(** * pivotaltojira: the JIRA client's rate-limit retry, the CSV ledger and
    the import / attachment phases, embedded from the Go sources.

    - [GoStrings] : the parts of Go's [strings] package the code calls.
    - [Api]       : api/jira_client.go ([retryOnRateLimit], [GetTransitions],
                    [UpdateStatus]) over an HTTP round-trip oracle.
    - [Services]  : services/csv_processor.go ([ReadCSV], [LoadIssueMapping],
                    [UpdateJiraKeysWithErrorFlags]) over the records of the
                    ledger file, and services/migration.go ([processRecord],
                    [ImportIssues], [UploadAttachments]) over an abstract
                    JIRA client.
    - [Migration] : the Convert phase ([ReadPivotalCSV],
                    [ProcessPivotalToJiraCSV], [WriteJiraCSV], [ConvertCSV]),
                    [UpdateJiraKeys] and [RunMigration], around the phases
                    of [Services].
    - [Spec], [Obs], [ApiObs], [MigObs] : what the statements observe;
      [Sample], [Sample2], [Sample3] : concrete instances.
    - [ApiFacts], [RecordFacts], [LedgerFacts], [PhaseFacts] : the proofs of
      the client, the records, the ledger and the two phases;
      [RewriteFacts], [ImportFacts], [MappingFacts], [UploadFacts],
      [RecordMore], [ApiMore] : more on each of them;
      [ConvertFacts], [ConvertRun], [QuietFacts], [RunFacts] : the Convert
      phase and the whole run; [KeysFacts] : [ReadCSV] on repeated headers
      and [UpdateJiraKeys]. *)

From stdpp Require Import gmap strings list fin_maps.
From Stdlib Require Import Ascii ZArith Lia.

#[local] Set Warnings "-register-all".
Local Open Scope Z_scope.

(** ** Results and effects *)

(** A Go [(T, error)] return.  [error] values are kept abstract per module. *)
Inductive res (E A : Type) : Type :=
| Ok (a : A)
| Err (e : E).
Arguments Ok {E A} a.
Arguments Err {E A} e.

(** Stateful code is a function on an explicit state.  [None] is the end of
    the process: an unrecovered run-time panic or a fatal run-time error. *)
Definition Eff (S A : Type) : Type := S -> option (A * S).

Definition ret {S A} (a : A) : Eff S A := fun s => Some (a, s).
Definition bind {S A B} (m : Eff S A) (k : A -> Eff S B) : Eff S B :=
  fun s => match m s with
           | Some (a, s') => k a s'
           | None => None
           end.
Definition crash {S A} : Eff S A := fun _ => None.

Declare Scope eff_scope.
Delimit Scope eff_scope with eff.
Notation "'let*' x ':=' m 'in' k" := (bind m (fun x => k))
  (at level 10, x pattern, m at level 100, k at level 200) : eff_scope.
Notation "m ;;; k" := (bind m (fun _ => k))
  (at level 100, k at level 200, right associativity) : eff_scope.

(** ** Go's [strings] package *)

Module GoStrings.

Fixpoint bytes (s : string) : list ascii :=
  match s with
  | EmptyString => []
  | String c r => c :: bytes r
  end.

Fixpoint mapBytes (f : ascii -> ascii) (s : string) : string :=
  match s with
  | EmptyString => EmptyString
  | String c r => String (f c) (mapBytes f r)
  end.

Definition byteVal (c : ascii) : N := N_of_ascii c.

(** [c >= utf8.RuneSelf] is false. *)
Definition isASCIIByte (c : ascii) : bool := (byteVal c <? 128)%N.
(** ['A' <= c && c <= 'Z'] *)
Definition isUpperByte (c : ascii) : bool :=
  ((65 <=? byteVal c) && (byteVal c <=? 90))%N.
(** [c += 'a' - 'A'] on upper-case bytes. *)
Definition lowerByte (c : ascii) : ascii :=
  if isUpperByte c then ascii_of_N (byteVal c + 32) else c.

(** [strings.ToLower].  The ASCII fast path is the library's; for a string
    with a byte at or above [utf8.RuneSelf] the library answers
    [Map(unicode.ToLower, s)], whose tables are taken as [unicodeLower]. *)
Definition ToLower (unicodeLower : string -> string) (s : string) : string :=
  if forallb isASCIIByte (bytes s) then
    if existsb isUpperByte (bytes s) then mapBytes lowerByte s else s
  else unicodeLower s.

(** [strings.Split(s, sep)] for a one-byte separator. *)
Fixpoint Split1 (sep : ascii) (s : string) : list string :=
  match s with
  | EmptyString => [EmptyString]
  | String c r =>
      if Ascii.eqb c sep then EmptyString :: Split1 sep r
      else match Split1 sep r with
           | [] => [String c EmptyString]
           | w :: ws => String c w :: ws
           end
  end.

End GoStrings.

(** ** api/jira_client.go *)

Module Api.

(** [*http.Request].  [Body] is the unread remainder of the request's body
    reader ([None] for a nil body); the reader is shared by every holder of
    the request, so whoever reads it advances it for all. *)
Record Request : Type := mkRequest {
  Method : string;
  URL : string;
  Header : list (string * string);
  Body : option string;
  ContentLength : Z;
  }.

(** What one attempt puts on the wire. *)
Record Wire : Type := mkWire {
  wMethod : string;
  wURL : string;
  wHeader : list (string * string);
  wBody : string;
  }.

Record Response : Type := mkResponse {
  StatusCode : Z;
  RespBody : string;
  }.

(** Errors of the client, by origin. *)
Inductive error : Type :=
  | TransportError (why : string)           (* from http.Client.Do *)
  | ErrNewRequest                           (* リクエスト作成エラー *)
  | ErrSend (cause : error)                 (* リクエスト送信エラー: %w *)
  | ErrGetTransitionsFailed (body : string) (* トランジション取得失敗: %s *)
  | ErrDecode                               (* レスポンス解析エラー *)
  | ErrNoTransitions                        (* トランジションが見つかりません *)
  | ErrNoTransitionTo (status : string)     (* ステータス '%s' への遷移が見つかりません *)
  | ErrStatusUpdateFailed (body : string).  (* ステータス更新失敗: %s *)

Inductive LogLine : Type :=
  | WarnRateLimited (body : string)  (* LogWarn レート制限に達しました。10秒後に再試行します。エラー: %s *)
  | InfoSkipBacklog (issueKey : string). (* LogInfo イシュー %s: 'Backlog' ステータスはスキップします *)

(** Observable actions, in program order. *)
Inductive Event : Type :=
  | EvSend (w : Wire)              (* one http.Client.Do attempt *)
  | EvRespReadAll                  (* io.ReadAll(resp.Body) *)
  | EvRespClose                    (* resp.Body.Close() *)
  | EvLog (l : LogLine)
  | EvSleep (nanoseconds : Z).     (* time.Sleep *)

(** [time.Second], a [time.Duration] in nanoseconds. *)
Definition Second : Z := 1000000000.

(** Decoded JSON, as [encoding/json] hands it to [interface{}]. *)
Inductive json : Type :=
  | JNull
  | JBool (b : bool)
  | JNumber (n : Z)
  | JString (s : string)
  | JArray (l : list json)
  | JObject (fields : list (string * json)).

(** [m[k]] on a decoded object: the last binding of [k] wins. *)
Fixpoint field (k : string) (fields : list (string * json)) : option json :=
  match fields with
  | [] => None
  | (k', v) :: r =>
      match field k r with
      | Some v' => Some v'
      | None => if String.eqb k k' then Some v else None
      end
  end.

Record Config : Type := mkConfig {
  JiraURL : string;
  JiraEmail : string;
  JiraAPIToken : string;
  }.

Section Client.

(** The remote end and the network between: one round trip consumes a
    wire request and answers with a response or a transport failure. *)
Variable Server : Type.
Variable roundTrip : Server -> Wire -> Server * res error Response.

(** Library pieces the client calls. *)
Variable unicodeLower : string -> string.
Variable urlParses : string -> bool.           (* http.NewRequest accepts the URL *)
Variable basicAuth : string -> string -> string.
Variable jsonMarshal : json -> string.
Variable jsonDecodeObject : string -> option (list (string * json)).

Variable config : Config.

Definition St : Type := (Server * list Event)%type.
Definition M (A : Type) : Type := Eff St A.

Definition emit (e : Event) : M unit :=
  fun '(srv, tr) => Some (tt, (srv, tr ++ [e])).

Definition ToLower : string -> string := GoStrings.ToLower unicodeLower.

(** The transport reads the request's body reader to its end and sends
    what it read.  The reader stays drained afterwards. *)
Definition drain (req : Request) : string * Request :=
  match Body req with
  | None => (EmptyString, req)
  | Some rest =>
      (rest, mkRequest (Method req) (URL req) (Header req)
               (Some EmptyString) (ContentLength req))
  end.

(** [j.client.Do(req)] *)
Definition Do (req : Request) : M (Request * res error Response) :=
  fun '(srv, tr) =>
    let '(sent, req') := drain req in
    let w := mkWire (Method req) (URL req) (Header req) sent in
    let '(srv', r) := roundTrip srv w in
    Some ((req', r), (srv', tr ++ [EvSend w])).

(** [io.ReadAll] on a reader holding [rest]: everything left, and an
    exhausted reader. *)
Definition io_ReadAll (rest : string) : string * string :=
  (rest, EmptyString).

(** [retryOnRateLimit] *)
Definition retryOnRateLimit (req : Request)
  : M (Request * res error Response) :=
  (let* (req1, r1) := Do req in
   match r1 with
   | Err e => ret (req1, Err e)
   | Ok resp =>
       if negb (StatusCode resp =? 429) then ret (req1, Ok resp)
       else
         let '(body, _) := io_ReadAll (RespBody resp) in
         emit EvRespReadAll ;;;
         emit EvRespClose ;;;
         emit (EvLog (WarnRateLimited body)) ;;;
         emit (EvSleep (10 * Second)) ;;;
         let req2 :=
           match Body req1 with
           | Some rest =>
               let '(bodyBytes, _) := io_ReadAll rest in
               mkRequest (Method req1) (URL req1) (Header req1)
                 (Some bodyBytes) (ContentLength req1)
           | None => req1
           end in
         Do req2
   end)%eff.

(** [http.NewRequest] followed by the headers the callers set. *)
Definition newRequest (method url : string) (body : option string)
  : res error Request :=
  if urlParses url then
    Ok (mkRequest method url
          [("Authorization"%string, basicAuth (JiraEmail config) (JiraAPIToken config));
           ("Content-Type"%string, "application/json"%string)]
          body
          (match body with Some b => Z.of_nat (String.length b) | None => 0 end))
  else Err ErrNewRequest.

Definition transitionsURL (issueKey : string) : string :=
  JiraURL config +:+ "/rest/api/2/issue/" +:+ issueKey +:+ "/transitions".

(** One element of the [transitions] array: [(lower-cased to.name, id)],
    or nothing when a type assertion fails. *)
Definition transitionEntry (t : json) : option (string * string) :=
  match t with
  | JObject transition =>
      match field "id" transition with
      | Some (JString id) =>
          match field "to" transition with
          | Some (JObject to) =>
              match field "name" to with
              | Some (JString name) => Some (ToLower name, id)
              | _ => None
              end
          | _ => None
          end
      | _ => None
      end
  | _ => None
  end.

Definition transitionMapOf (ts : list json) : gmap string string :=
  foldl (fun m t => match transitionEntry t with
                    | Some (name, id) => <[name := id]> m
                    | None => m
                    end) ∅ ts.

(** [GetTransitions] *)
Definition GetTransitions (issueKey : string)
  : M (res error (gmap string string)) :=
  match newRequest "GET" (transitionsURL issueKey) None with
  | Err e => ret (Err e)
  | Ok req =>
      (let* (_, r) := retryOnRateLimit req in
       match r with
       | Err e => ret (Err (ErrSend e))
       | Ok resp =>
           let* out := (if negb (StatusCode resp =? 200) then
                     emit EvRespReadAll ;;;
                     ret (Err (ErrGetTransitionsFailed (RespBody resp)))
                   else
                     emit EvRespReadAll ;;;
                     ret (match jsonDecodeObject (RespBody resp) with
                          | None => Err ErrDecode
                          | Some result =>
                              match field "transitions" result with
                              | Some (JArray transitions) =>
                                  Ok (transitionMapOf transitions)
                              | _ => Err ErrNoTransitions
                              end
                          end)) in
           emit EvRespClose ;;;   (* defer resp.Body.Close() *)
           ret out
       end)%eff
  end.

(** [UpdateStatus]: [None] is Go's nil error. *)
Definition UpdateStatus (issueKey targetStatus : string)
  : M (option error) :=
  if String.eqb (ToLower targetStatus) "backlog" then
    (emit (EvLog (InfoSkipBacklog issueKey)) ;;;
     ret None)%eff
  else
    (let* tr := GetTransitions issueKey in
     match tr with
     | Err e => ret (Some e)
     | Ok transitions =>
         match transitions !! ToLower targetStatus with
         | None => ret (Some (ErrNoTransitionTo targetStatus))
         | Some transitionID =>
             let payload :=
               JObject [("transition"%string,
                         JObject [("id"%string, JString transitionID)])] in
             let payloadBytes := jsonMarshal payload in
             match newRequest "POST" (transitionsURL issueKey)
                     (Some payloadBytes) with
             | Err e => ret (Some e)
             | Ok req =>
                 let* (_, r) := retryOnRateLimit req in
                 match r with
                 | Err e => ret (Some (ErrSend e))
                 | Ok resp =>
                     if negb (StatusCode resp =? 204) then
                       emit EvRespReadAll ;;;
                       emit EvRespClose ;;;
                       ret (Some (ErrStatusUpdateFailed (RespBody resp)))
                     else
                       emit EvRespClose ;;;
                       ret None
                 end
             end
         end
     end)%eff.

End Client.
End Api.

(** ** services/csv_processor.go and services/migration.go *)

Module Services.

(** The ledger file [config.JiraCSV].  [content] is the sequence of records
    encoding/csv splits the file into ([None]: the file cannot be opened);
    [writable] tells whether [os.Create] on it succeeds.  [csv.Writer] puts
    records on the file as they are given to it. *)
Record File : Type := mkFile {
  content : option (list (list string));
  writable : bool;
}.

(** [csv.Reader.ReadAll] with the default [FieldsPerRecord = 0]: the first
    record fixes the field count and every later record must match it
    ([ErrFieldCount] otherwise). *)
Definition csv_ReadAll (raw : list (list string))
  : option (list (list string)) :=
  match raw with
  | [] => Some []
  | first :: rest =>
      if forallb (fun r => Nat.eqb (length r) (length first)) rest
      then Some raw else None
  end.

(** [models.CSVRecord] and [models.IssueMapping] are [map[string]string];
    reading a missing key gives the empty string. *)
Definition get (m : gmap string string) (k : string) : string :=
  default EmptyString (m !! k).

(** One directory entry of [os.ReadDir]. *)
Record DirEntry : Type := mkDirEntry {
  Name : string;
  IsDir : bool;
  (** [os.ReadDir] of this entry when it is a folder; [None] when it fails. *)
  listing : option (list (string * bool));
}.

(** The attachments folder. *)
Inductive Folder : Type :=
| NotExist                               (* os.Stat: IsNotExist *)
| Unreadable                             (* os.ReadDir fails *)
| Entries (entries : list DirEntry).

Record Config : Type := mkConfig {
  AttachmentsFolder : string;
  MaxConcurrent : Z;
}.

(** Errors of the package, by origin. *)
Inductive error (ClientError : Type) : Type :=
| ErrCSVOpen          (* CSVオープンエラー *)
| ErrCSVRead          (* CSV読み込みエラー *)
| ErrCSVShort         (* CSVデータが不足しています *)
| ErrMappingOpen      (* マッピングCSVオープンエラー *)
| ErrMappingRead      (* マッピングCSV読み込みエラー *)
| ErrMappingShort     (* マッピングデータが不足しています *)
| ErrMappingColumns   (* マッピングに必要なカラムが見つかりません *)
| ErrUpdateShort      (* 更新するデータが不足しています *)
| ErrUpdateColumns    (* 必要なカラムが見つかりません *)
| ErrCSVCreate        (* CSVファイル作成エラー *)
| ErrIssueCreate (cause : ClientError)          (* イシュー作成エラー: %w *)
| ErrImportRead (cause : error ClientError)     (* JIRA CSV読み込みエラー: %w *)
| ErrImportUpdate (cause : error ClientError)   (* JIRA キー更新エラー: %w *)
| ErrLoadMapping (cause : error ClientError)    (* イシューマッピング読み込みエラー: %w *)
| ErrNoAttachmentsFolder (folder : string)      (* 添付ファイルフォルダが見つかりません: %s *)
| ErrReadFolder.                                (* フォルダ読み取りエラー *)
Arguments ErrCSVOpen {ClientError}.
Arguments ErrCSVRead {ClientError}.
Arguments ErrCSVShort {ClientError}.
Arguments ErrMappingOpen {ClientError}.
Arguments ErrMappingRead {ClientError}.
Arguments ErrMappingShort {ClientError}.
Arguments ErrMappingColumns {ClientError}.
Arguments ErrUpdateShort {ClientError}.
Arguments ErrUpdateColumns {ClientError}.
Arguments ErrCSVCreate {ClientError}.
Arguments ErrIssueCreate {ClientError} cause.
Arguments ErrImportRead {ClientError} cause.
Arguments ErrImportUpdate {ClientError} cause.
Arguments ErrLoadMapping {ClientError} cause.
Arguments ErrNoAttachmentsFolder {ClientError} folder.
Arguments ErrReadFolder {ClientError}.

(** Lines written through [utils.LogInfo], [LogWarn] and [LogError]; row
    numbers and counters are Go [int]s, far from their bounds here. *)
Inductive LogLine (ClientError : Type) : Type :=
| InfoImportStart (n : Z)                  (* イシューのインポートを開始します: %d 件 *)
| InfoRetryFailed (row : Z)                (* 行 %d: 前回失敗したレコードを再処理します *)
| ErrorRowFailed (row : Z) (e : error ClientError)  (* 行 %d の処理に失敗: %v *)
| InfoRowDone (row : Z) (issueKey : string)         (* 行 %d の処理が完了: %s *)
| InfoImportDone (success failure : Z)     (* イシューのインポートが完了しました: 成功=%d, 失敗=%d *)
| WarnStoryPoints (issueKey : string) (e : ClientError)
| WarnStatus (issueKey : string) (e : ClientError)
| WarnComment (issueKey : string) (e : ClientError)
| InfoComment (issueKey : string)
| InfoUpdatingKeys
| InfoKeysUpdated (updated total : Z)
| InfoLoadingMapping
| InfoMappingLoaded (n : Z)
| InfoUploadStart (folder : string)
| WarnNoIssueFor (pivotalID : string)      (* Pivotal ID %s に対応するJIRAイシューが見つかりません *)
| ErrorReadDir (issueFolder : list string)
| ErrorUpload (fPath : list string) (e : ClientError)
| InfoUploaded (base issueKey : string)
| InfoUploadDone (total uploaded failed : Z)
| InfoElapsed (name : string).             (* utils.TrackTime *)
Arguments InfoImportStart {ClientError} n.
Arguments InfoRetryFailed {ClientError} row.
Arguments ErrorRowFailed {ClientError} row e.
Arguments InfoRowDone {ClientError} row issueKey.
Arguments InfoImportDone {ClientError} success failure.
Arguments WarnStoryPoints {ClientError} issueKey e.
Arguments WarnStatus {ClientError} issueKey e.
Arguments WarnComment {ClientError} issueKey e.
Arguments InfoComment {ClientError} issueKey.
Arguments InfoUpdatingKeys {ClientError}.
Arguments InfoKeysUpdated {ClientError} updated total.
Arguments InfoLoadingMapping {ClientError}.
Arguments InfoMappingLoaded {ClientError} n.
Arguments InfoUploadStart {ClientError} folder.
Arguments WarnNoIssueFor {ClientError} pivotalID.
Arguments ErrorReadDir {ClientError} issueFolder.
Arguments ErrorUpload {ClientError} fPath e.
Arguments InfoUploaded {ClientError} base issueKey.
Arguments InfoUploadDone {ClientError} total uploaded failed.
Arguments InfoElapsed {ClientError} name.

(** The arguments of one [jiraClient.CreateIssue] call. *)
Record CreateArgs : Type := mkCreateArgs {
  summary : string;
  description : string;
  labels : list string;
  issueType : string;
  reporter : string;
  assignee : string;
}.

(** Observable actions: log lines and calls of the JIRA client, each call
    with what it returned. *)
Inductive Event (ClientError : Type) : Type :=
| EvLog (l : LogLine ClientError)
| EvCreateIssue (args : CreateArgs) (r : res ClientError string)
| EvUpdateStoryPoints (issueKey : string) (sp : Z) (r : option ClientError)
| EvUpdateStatus (issueKey status : string) (r : option ClientError)
| EvAddComment (issueKey comment : string) (r : option ClientError)
| EvUploadAttachment (issueKey : string) (fPath : list string)
    (r : option ClientError).
Arguments EvLog {ClientError} l.
Arguments EvCreateIssue {ClientError} args r.
Arguments EvUpdateStoryPoints {ClientError} issueKey sp r.
Arguments EvUpdateStatus {ClientError} issueKey status r.
Arguments EvAddComment {ClientError} issueKey comment r.
Arguments EvUploadAttachment {ClientError} issueKey fPath r.

(** *** Column lookup *)

(** The header loop of [UpdateJiraKeysWithErrorFlags]:
    [(idIndex, keyIndex, errorIndex)], each -1 until its header is seen. *)
Fixpoint scanHeaders3 (i : Z) (headers : list string) (acc : Z * Z * Z)
  : Z * Z * Z :=
  match headers with
  | [] => acc
  | header :: rest =>
      let '(idIndex, keyIndex, errorIndex) := acc in
      scanHeaders3 (i + 1) rest
        (if String.eqb header "JIRA Issue ID" then (i, keyIndex, errorIndex)
         else if String.eqb header "JIRA Issue Key" then (idIndex, i, errorIndex)
         else if String.eqb header "Error" then (idIndex, keyIndex, i)
         else acc)
  end.

(** The header loop of [LoadIssueMapping]: [(idIndex, keyIndex)]. *)
Fixpoint scanHeaders2 (i : Z) (headers : list string) (acc : Z * Z)
  : Z * Z :=
  match headers with
  | [] => acc
  | header :: rest =>
      let '(idIndex, keyIndex) := acc in
      scanHeaders2 (i + 1) rest
        (if String.eqb header "JIRA Issue ID" then (i, keyIndex)
         else if String.eqb header "JIRA Issue Key" then (idIndex, i)
         else acc)
  end.

(** [record[i]] for an index known to be in range. *)
Definition cell (record : list string) (i : Z) : string :=
  nth (Z.to_nat i) record EmptyString.

(** [record[i] = v]; [None] is the index-out-of-range panic. *)
Definition store (record : list string) (i : Z) (v : string)
  : option (list string) :=
  if (0 <=? i) && (i <? Z.of_nat (length record))
  then Some (<[Z.to_nat i := v]> record) else None.

(** The row body of [ReadCSV]:
    [for j := 0; j < min(len(headers), len(record)); j++]. *)
Definition rowData (headers record : list string) : gmap string string :=
  foldl (fun m hv => <[fst hv := snd hv]> m) ∅ (zip headers record).

(** One iteration of the mapping loop of [UpdateJiraKeysWithErrorFlags]:
    the row afterwards and whether [updated] was incremented. *)
Definition updateRecord (idIndex keyIndex errorIndex : Z)
    (mapping : gmap string string) (errorFlags : gmap string bool)
    (record : list string) : option (list string * bool) :=
  if Z.of_nat (length record) <=? Z.max idIndex keyIndex then
    Some (record, false)
  else
    let pivotalID := cell record idIndex in
    match mapping !! pivotalID with
    | Some jiraKey =>
        match store record keyIndex jiraKey with
        | None => None
        | Some record1 =>
            match store record1 errorIndex
                    (match errorFlags !! pivotalID with
                     | Some true => "1"
                     | _ => "0"
                     end)%string with
            | None => None
            | Some record2 => Some (record2, true)
            end
        end
    | None => Some (record, false)
    end.

Fixpoint updateRecords (idIndex keyIndex errorIndex : Z)
    (mapping : gmap string string) (errorFlags : gmap string bool)
    (rows : list (list string)) (updated : Z)
  : option (list (list string) * Z) :=
  match rows with
  | [] => Some ([], updated)
  | record :: rest =>
      match updateRecord idIndex keyIndex errorIndex mapping errorFlags record with
      | None => None
      | Some (record', hit) =>
          match updateRecords idIndex keyIndex errorIndex mapping errorFlags
                  rest (if hit then updated + 1 else updated) with
          | None => None
          | Some (rest', n) => Some (record' :: rest', n)
          end
      end
  end.

(** One iteration of the mapping loop of [LoadIssueMapping]. *)
Definition loadRecord (idIndex keyIndex : Z) (mapping : gmap string string)
    (record : list string) : gmap string string :=
  if Z.of_nat (length record) <=? Z.max idIndex keyIndex then mapping
  else
    let pivotalID := cell record idIndex in
    let jiraKey := cell record keyIndex in
    if negb (String.eqb pivotalID "") && negb (String.eqb jiraKey "")
       && negb (String.eqb jiraKey "ERROR")
    then <[pivotalID := jiraKey]> mapping else mapping.

Section Run.

(** The JIRA side: its state and what each client method answers.  The
    client's own errors are an abstract type. *)
Variable J : Type.
Variable ClientError : Type.
Variable createIssue : J -> CreateArgs -> J * res ClientError string.
Variable updateStoryPoints : J -> string -> Z -> J * option ClientError.
Variable updateStatus : J -> string -> string -> J * option ClientError.
Variable addComment : J -> string -> string -> J * option ClientError.
Variable uploadAttachment :
  J -> string -> list string -> J * option ClientError.

(** Library pieces. *)
Variable unicodeLower : string -> string.   (* strings.Map(unicode.ToLower, _) *)
Variable TrimSpace : string -> string.      (* strings.TrimSpace *)
Variable scanInt : string -> Z.             (* sp after fmt.Sscanf(s, "%d", &sp), sp := 0 before *)

Variable config : Config.

Record World : Type := mkWorld {
  jira : J;
  csv : File;
  folder : Folder;
  trace : list (Event ClientError);
}.

Definition M (A : Type) : Type := Eff World A.

Definition emit (e : Event ClientError) : M unit :=
  fun w => Some (tt, mkWorld (jira w) (csv w) (folder w) (trace w ++ [e])).
Definition log (l : LogLine ClientError) : M unit := emit (EvLog l).
Definition getFile : M File := fun w => Some (csv w, w).
Definition putFile (f : File) : M unit :=
  fun w => Some (tt, mkWorld (jira w) f (folder w) (trace w)).
Definition getFolder : M Folder := fun w => Some (folder w, w).

(** A client call: ask the JIRA side, record the call and its answer. *)
Definition call {A} (f : J -> J * A) (ev : A -> Event ClientError) : M A :=
  fun w =>
    let '(j', r) := f (jira w) in
    Some (r, mkWorld j' (csv w) (folder w) (trace w ++ [ev r])).

Definition CreateIssue (args : CreateArgs) : M (res ClientError string) :=
  call (fun j => createIssue j args) (EvCreateIssue args).
Definition UpdateStoryPoints (issueKey : string) (sp : Z)
  : M (option ClientError) :=
  call (fun j => updateStoryPoints j issueKey sp)
       (EvUpdateStoryPoints issueKey sp).
Definition UpdateStatus (issueKey status : string) : M (option ClientError) :=
  call (fun j => updateStatus j issueKey status) (EvUpdateStatus issueKey status).
Definition AddComment (issueKey comment : string) : M (option ClientError) :=
  call (fun j => addComment j issueKey comment) (EvAddComment issueKey comment).
Definition UploadAttachment (issueKey : string) (fPath : list string)
  : M (option ClientError) :=
  call (fun j => uploadAttachment j issueKey fPath)
       (EvUploadAttachment issueKey fPath).

Definition ToLower : string -> string := GoStrings.ToLower unicodeLower.

(** [for _, x := range l { b = f x b }] *)
Fixpoint forEach {A B} (f : A -> B -> M B) (l : list A) (b : B) : M B :=
  match l with
  | [] => ret b
  | x :: r => (let* b' := f x b in forEach f r b')%eff
  end.

(** *** csv_processor.go *)

(** [ReadCSV] *)
Definition ReadCSV : M (res (error ClientError) (list (gmap string string))) :=
  (let* file := getFile in
   match content file with
   | None => ret (Err ErrCSVOpen)
   | Some raw =>
       match csv_ReadAll raw with
       | None => ret (Err ErrCSVRead)
       | Some records =>
           if (length records <? 2)%nat then ret (Err ErrCSVShort)
           else
             let headers := hd [] records in
             ret (Ok (map (rowData headers) (tl records)))
       end
   end)%eff.

(** [LoadIssueMapping] *)
Definition LoadIssueMapping : M (res (error ClientError) (gmap string string)) :=
  (log InfoLoadingMapping ;;;
   let* file := getFile in
   match content file with
   | None => ret (Err ErrMappingOpen)
   | Some raw =>
       match csv_ReadAll raw with
       | None => ret (Err ErrMappingRead)
       | Some records =>
           if (length records <? 2)%nat then ret (Err ErrMappingShort)
           else
             let headers := hd [] records in
             let '(idIndex, keyIndex) := scanHeaders2 0 headers (-1, -1) in
             if (idIndex =? -1) || (keyIndex =? -1)
             then ret (Err ErrMappingColumns)
             else
               let mapping :=
                 foldl (loadRecord idIndex keyIndex) ∅ (tl records) in
               log (InfoMappingLoaded (Z.of_nat (size mapping))) ;;;
               ret (Ok mapping)
       end
   end)%eff.

(** [UpdateJiraKeysWithErrorFlags].  When the Error column is missing the
    code lengthens its local [headers] only: [append] returns a longer
    slice, which [headers] alone holds; [records[0]] keeps its length and
    is never assigned again (the data rows are, each by
    [records[i+1] = append(records[i+1], ...)] with an empty cell). *)
Definition UpdateJiraKeysWithErrorFlags
    (mapping : gmap string string) (errorFlags : gmap string bool)
  : M (option (error ClientError)) :=
  (log InfoUpdatingKeys ;;;
   let* file := getFile in
   match content file with
   | None => ret (Some ErrCSVOpen)
   | Some raw =>
       match csv_ReadAll raw with
       | None => ret (Some ErrCSVRead)
       | Some records =>
           if (length records <? 2)%nat then ret (Some ErrUpdateShort)
           else
             let headers := hd [] records in
             let '(idIndex, keyIndex, errorIndex) :=
               scanHeaders3 0 headers (-1, -1, -1) in
             if (idIndex =? -1) || (keyIndex =? -1)
             then ret (Some ErrUpdateColumns)
             else
               let '(errorIndex, rows) :=
                 if errorIndex =? -1 then
                   let headers' := headers ++ ["Error"%string] in
                   (Z.of_nat (length headers') - 1,
                    map (fun r => r ++ [EmptyString]) (tl records))
                 else (errorIndex, tl records) in
               match updateRecords idIndex keyIndex errorIndex
                       mapping errorFlags rows 0 with
               | None => crash
               | Some (rows', updated) =>
                   if writable file then
                     putFile (mkFile (Some (hd [] records :: rows')) true) ;;;
                     log (InfoKeysUpdated updated
                            (Z.of_nat (length records) - 1)) ;;;
                     ret None
                   else ret (Some ErrCSVCreate)
               end
       end
   end)%eff.

(** *** migration.go *)

Definition summaryOf (record : gmap string string) : string :=
  let summary := get record "Title" in
  let summary :=
    if String.eqb summary "" then "No Title"%string else summary in
  let pivotalId := get record "JIRA Issue ID" in
  "[" +:+ pivotalId +:+ "] " +:+ summary.

Definition labelsOf (record : gmap string string) : list string :=
  let labelsStr := get record "Labels" in
  if negb (String.eqb labelsStr "")
  then map TrimSpace (GoStrings.Split1 "," labelsStr)
  else [].

Definition issueTypeOf (record : gmap string string) : string :=
  match record !! "Type"%string with
  | Some recType =>
      if negb (String.eqb recType "") then
        let t := ToLower recType in
        if String.eqb t "bug" then "Bug"
        else if String.eqb t "feature" || String.eqb t "story" then "feature"
        else if String.eqb t "chore" then "chore"
        else if String.eqb t "epic" then "Epic"
        else if String.eqb t "release" then "release"
        else "Task"
      else "Task"
  | None => "Task"
  end%string.

Definition createArgsOf (record : gmap string string) : CreateArgs :=
  mkCreateArgs (summaryOf record) (get record "Description")
    (labelsOf record) (issueTypeOf record)
    (get record "Reporter") (get record "Assignee").

(** [processRecord] *)
Definition processRecord (record : gmap string string)
  : M (res (error ClientError) string) :=
  (let* created := CreateIssue (createArgsOf record) in
   match created with
   | Err e => ret (Err (ErrIssueCreate e))
   | Ok issueKey =>
       (let spStr := get record "Story Points" in
        if negb (String.eqb spStr "") then
          let sp := scanInt spStr in
          if 0 <? sp then
            let* e := UpdateStoryPoints issueKey sp in
            match e with
            | Some e => log (WarnStoryPoints issueKey e)
            | None => ret tt
            end
          else ret tt
        else ret tt) ;;;
       (let status := get record "JIRA Status" in
        if negb (String.eqb status "") && negb (String.eqb status "Backlog")
        then
          let* e := UpdateStatus issueKey status in
          match e with
          | Some e => log (WarnStatus issueKey e)
          | None => ret tt
          end
        else ret tt) ;;;
       (let comment := get record "Comment" in
        if negb (String.eqb comment "") then
          let* e := AddComment issueKey comment in
          match e with
          | Some e => log (WarnComment issueKey e)
          | None => log (InfoComment issueKey)
          end
        else ret tt) ;;;
       ret (Ok issueKey)
   end)%eff.

(** What the workers of [ImportIssues] share under [resultMutex]. *)
Record Results : Type := mkResults {
  resultMapping : gmap string string;
  errorFlags : gmap string bool;
  errorCount : Z;
}.

(** The body of one goroutine of [ImportIssues]. *)
Definition worker (idx : nat) (rec : gmap string string) (a : Results)
  : M Results :=
  ((match rec !! "Error"%string with
    | Some errorFlag =>
        if String.eqb errorFlag "1"
        then log (InfoRetryFailed (Z.of_nat idx + 1)) else ret tt
    | None => ret tt
    end) ;;;
   let* r := processRecord rec in
   let pivotalID := get rec "JIRA Issue ID" in
   match r with
   | Err err =>
       log (ErrorRowFailed (Z.of_nat idx + 1) err) ;;;
       ret (mkResults (<[pivotalID := "ERROR"%string]> (resultMapping a))
              (<[pivotalID := true]> (errorFlags a))
              (errorCount a + 1))
   | Ok issueKey =>
       log (InfoRowDone (Z.of_nat idx + 1) issueKey) ;;;
       ret (mkResults (<[pivotalID := issueKey]> (resultMapping a))
              (<[pivotalID := false]> (errorFlags a))
              (errorCount a))
   end)%eff.

(** The goroutines of [ImportIssues], one per record.  [sched] lists the
    record indices in the order in which the goroutines run; a goroutine's
    calls to JIRA touch no memory of the program, so they are placed with
    its update of the shared results. *)
Definition runWorkers (records : list (gmap string string))
    (sched : list nat) (a : Results) : M Results :=
  forEach (fun idx a =>
             match records !! idx with
             | Some rec => worker idx rec a
             | None => ret a
             end) sched a.

(** [ImportIssues].  [make(chan struct{}, n)] panics for a negative [n]; with
    [n = 0] the first [semaphore <- struct{}{}] blocks with no other
    goroutine alive, which the run time ends as a deadlock. *)
Definition ImportIssues (sched : list nat) : M (option (error ClientError)) :=
  (let* read := ReadCSV in
   let* out :=
     match read with
     | Err e => ret (Some (ErrImportRead e))
     | Ok records =>
         log (InfoImportStart (Z.of_nat (length records))) ;;;
         if MaxConcurrent config <? 0 then crash
         else if (MaxConcurrent config =? 0) && negb (Nat.eqb (length records) 0)
         then crash
         else
           let* a := runWorkers records sched (mkResults ∅ ∅ 0) in
           let* e :=
             UpdateJiraKeysWithErrorFlags (resultMapping a) (errorFlags a) in
           match e with
           | Some e => ret (Some (ErrImportUpdate e))
           | None =>
               log (InfoImportDone
                      (Z.of_nat (size (resultMapping a)) - errorCount a)
                      (errorCount a)) ;;;
               ret None
           end
     end in
   log (InfoElapsed "issue import") ;;;
   ret out)%eff.

(** The inner loop of [UploadAttachments]: one file of an issue folder.
    The counters are [(totalFiles, uploadedFiles, failedFiles)]. *)
Definition uploadFile (issueFolder : list string) (issueKey : string)
    (file : string * bool) (counts : Z * Z * Z) : M (Z * Z * Z) :=
  let '(totalFiles, uploadedFiles, failedFiles) := counts in
  if snd file then ret counts
  else
    let fPath := issueFolder ++ [fst file] in
    if MaxConcurrent config =? 0 then crash
    else
      (let* e := UploadAttachment issueKey fPath in
       match e with
       | Some e =>
           log (ErrorUpload fPath e) ;;;
           ret (totalFiles + 1, uploadedFiles, failedFiles + 1)
       | None =>
           log (InfoUploaded (fst file) issueKey) ;;;
           ret (totalFiles + 1, uploadedFiles + 1, failedFiles)
       end)%eff.

(** The outer loop of [UploadAttachments]: one entry of the folder. *)
Definition uploadGroup (issueMapping : gmap string string)
    (entry : DirEntry) (counts : Z * Z * Z) : M (Z * Z * Z) :=
  if negb (IsDir entry) then ret counts
  else
    let pivotalID := Name entry in
    let skip := (log (WarnNoIssueFor pivotalID) ;;; ret counts)%eff in
    match issueMapping !! pivotalID with
    | None => skip
    | Some issueKey =>
        if String.eqb issueKey "ERROR" then skip
        else
          let issueFolder := [AttachmentsFolder config; pivotalID] in
          match listing entry with
          | None => (log (ErrorReadDir issueFolder) ;;; ret counts)%eff
          | Some files => forEach (uploadFile issueFolder issueKey) files counts
          end
    end.

(** [UploadAttachments].  Paths are kept as their components; uploads are
    listed in the order they are submitted. *)
Definition UploadAttachments : M (option (error ClientError)) :=
  (let* loaded := LoadIssueMapping in
   let* out :=
     match loaded with
     | Err e => ret (Some (ErrLoadMapping e))
     | Ok issueMapping =>
         let* dir := getFolder in
         match dir with
         | NotExist =>
             ret (Some (ErrNoAttachmentsFolder (AttachmentsFolder config)))
         | _ =>
             log (InfoUploadStart (AttachmentsFolder config)) ;;;
             if MaxConcurrent config <? 0 then crash
             else
               match dir with
               | Entries entries =>
                   let* counts :=
                     forEach (uploadGroup issueMapping) entries (0, 0, 0) in
                   let '(totalFiles, uploadedFiles, failedFiles) := counts in
                   log (InfoUploadDone totalFiles uploadedFiles failedFiles) ;;;
                   ret None
               | _ => ret (Some ErrReadFolder)
               end
         end
     end in
   log (InfoElapsed "attachment upload") ;;;
   ret out)%eff.

End Run.

Arguments mkWorld {J ClientError} jira csv folder trace.
Arguments jira {J ClientError} w.
Arguments csv {J ClientError} w.
Arguments folder {J ClientError} w.
Arguments trace {J ClientError} w.
End Services.

(** ** Observations and reference definitions used in the statements *)

Module Spec.

(** The wire requests of a trace, in order. *)
Definition sends (tr : list Api.Event) : list Api.Wire :=
  omap (fun e => match e with Api.EvSend w => Some w | _ => None end) tr.

(** Case-insensitive equality of two strings, through [strings.ToLower]. *)
Definition equalFold (unicodeLower : string -> string) (s t : string) : bool :=
  String.eqb (GoStrings.ToLower unicodeLower s)
             (GoStrings.ToLower unicodeLower t).

(** The issue-type table as the specification words it: source type,
    compared without regard to case, to target type; [Task] otherwise. *)
Definition issueTypeSpec (unicodeLower : string -> string)
    (sourceType : string) : string :=
  let same := equalFold unicodeLower sourceType in
  (if same "bug" then "Bug"
   else if same "feature" || same "story" then "feature"
   else if same "chore" then "chore"
   else if same "epic" then "Epic"
   else if same "release" then "release"
   else "Task")%string.

(** The [CreateIssue] calls of a trace, in order. *)
Definition createCalls {CE} (tr : list (Services.Event CE))
  : list Services.CreateArgs :=
  omap (fun e => match e with
                 | Services.EvCreateIssue args _ => Some args
                 | _ => None
                 end) tr.

Definition isFailedCreate {CE} (e : Services.Event CE) : bool :=
  match e with
  | Services.EvCreateIssue _ (Err _) => true
  | _ => false
  end.

(** How many [CreateIssue] calls of a trace returned an error. *)
Definition failedCreates {CE} (tr : list (Services.Event CE)) : nat :=
  length (List.filter isFailedCreate tr).

(** The [UploadAttachment] calls of a trace: issue key and file path. *)
Definition uploads {CE} (tr : list (Services.Event CE))
  : list (string * list string) :=
  omap (fun e => match e with
                 | Services.EvUploadAttachment k p _ => Some (k, p)
                 | _ => None
                 end) tr.

(** The log lines of a trace. *)
Definition logLines {CE} (tr : list (Services.Event CE))
  : list (Services.LogLine CE) :=
  omap (fun e => match e with
                 | Services.EvLog l => Some l
                 | _ => None
                 end) tr.

(** The last position of [name] among [headers], counted from [i];
    [d] when there is none. *)
Fixpoint lastIndexFrom (name : string) (i : Z) (headers : list string)
    (d : Z) : Z :=
  match headers with
  | [] => d
  | h :: r => lastIndexFrom name (i + 1) r (if String.eqb h name then i else d)
  end.

Definition column (name : string) (headers : list string) : Z :=
  lastIndexFrom name 0 headers (-1).

(** Where a row keeps its error flag: under the Error header, or in the
    cell after the last header when the ledger has no such column. *)
Definition errorColumn (headers : list string) : Z :=
  if column "Error" headers =? -1 then Z.of_nat (length headers)
  else column "Error" headers.

Definition sourceID (headers row : list string) : string :=
  Services.cell row (column "JIRA Issue ID" headers).
Definition targetKey (headers row : list string) : string :=
  Services.cell row (column "JIRA Issue Key" headers).
Definition errorFlag (headers row : list string) : string :=
  Services.cell row (errorColumn headers).

(** The outcome of one record in an Import run, and the two maps in which
    [ImportIssues] keeps the outcomes of a run. *)
Inductive Outcome : Type :=
| Success (key : string)
| Failure.

(** The text of the error flag written for an id. *)
Definition flagText (errorFlags : gmap string bool) (id : string) : string :=
  match errorFlags !! id with
  | Some true => "1"
  | _ => "0"
  end.

(** How a rewritten row relates to the row it comes from: same id; key and
    flag as they were when the run has nothing for the id, else the run's
    key and flag. *)
Definition rewritten (headers : list string) (mapping : gmap string string)
    (errorFlags : gmap string bool) (row row' : list string) : Prop :=
  sourceID headers row' = sourceID headers row /\
  match mapping !! sourceID headers row with
  | None =>
      targetKey headers row' = targetKey headers row /\
      errorFlag headers row' = errorFlag headers row
  | Some key =>
      targetKey headers row' = key /\
      errorFlag headers row' = flagText errorFlags (sourceID headers row)
  end.

Definition mappingOf (o : gmap string Outcome) : gmap string string :=
  (fun x => match x with Success k => k | Failure => "ERROR"%string end) <$> o.
Definition errorFlagsOf (o : gmap string Outcome) : gmap string bool :=
  (fun x => match x with Success _ => false | Failure => true end) <$> o.

(** One record's result as the workers of [ImportIssues] book it: the key
    or the text ERROR, the error flag, and the error counter. *)
Definition failed {CE} (c : res CE string) : bool :=
  match c with Err _ => true | Ok _ => false end.
Definition keyText {CE} (c : res CE string) : string :=
  match c with Ok k => k | Err _ => "ERROR" end.
Definition tally {CE} (a : Services.Results) (o : string * res CE string)
  : Services.Results :=
  Services.mkResults
    (<[fst o := keyText (snd o)]> (Services.resultMapping a))
    (<[fst o := failed (snd o)]> (Services.errorFlags a))
    (if failed (snd o) then Services.errorCount a + 1
     else Services.errorCount a).
Definition countFailed {CE} (outs : list (string * res CE string)) : nat :=
  length (filter (fun o => failed (snd o) = true) outs).


(** A world after some more events. *)
Definition after {J CE} (w : Services.World J CE)
    (evs : list (Services.Event CE)) : Services.World J CE :=
  Services.mkWorld (Services.jira w) (Services.csv w) (Services.folder w)
    (Services.trace w ++ evs).

End Spec.

(** ** Concrete instances *)

Module Sample.

(** Identity stands in for the Unicode tables; the samples are ASCII. *)
Definition lower (s : string) : string := s.

(** A server that answers 429 to the first request and 201 afterwards; its
    state counts the requests seen. *)
Definition rateLimitedOnce (n : nat) (w : Api.Wire)
  : nat * res Api.error Api.Response :=
  (S n, Ok (if Nat.eqb n 0 then Api.mkResponse 429 "slow down"
            else Api.mkResponse 201 "created")).

Definition apiConfig : Api.Config :=
  Api.mkConfig "https://jira.example" "me@example.com" "token".

(** The request [CreateIssue] builds with [bytes.NewBuffer(payloadBytes)]. *)
Definition postIssue : Api.Request :=
  Api.mkRequest "POST" "https://jira.example/rest/api/2/issue"
    [("Content-Type", "application/json")] (Some "payload") 7.

(** *** A JIRA side for the services *)

(** The state counts the calls; [CreateIssue] refuses a description that
    says [reject] and otherwise hands out [PRJ-<n>]. *)
Definition keyOf (n : nat) : string :=
  "PRJ-" +:+ String (ascii_of_nat (48 + n)) EmptyString.
Definition createIssue (n : nat) (args : Services.CreateArgs)
  : nat * res string string :=
  (S n, if String.eqb (Services.description args) "reject"
        then Err "400 Bad Request"%string else Ok (keyOf n)).
Definition updateStoryPoints (n : nat) (k : string) (sp : Z)
  : nat * option string := (S n, None).
Definition updateStatus (n : nat) (k s : string) : nat * option string :=
  (S n, None).
Definition addComment (n : nat) (k c : string) : nat * option string :=
  (S n, None).
Definition uploadAttachment (n : nat) (k : string) (p : list string)
  : nat * option string := (S n, None).
Definition trimSpace (s : string) : string := s.
Definition scanInt (s : string) : Z := 0.
Definition config : Services.Config := Services.mkConfig "attachments" 10.

Definition world (rows : list (list string)) (dir : Services.Folder)
  : Services.World nat string :=
  Services.mkWorld 0%nat (Services.mkFile (Some rows) true) dir [].

(** The header [WriteJiraCSV] writes. *)
Definition jiraHeader : list string :=
  ["JIRA Issue ID"; "Title"; "Description"; "Labels"; "Type";
   "JIRA Status"; "Story Points"; "Created Date"; "Resolved Date";
   "Assignee"; "Reporter"; "Comment"; "JIRA Issue Key"]%string.

(** A ledger as the Convert phase leaves it: one story, no Error column.
    JIRA will refuse it. *)
Definition freshLedger : list (list string) :=
  [jiraHeader;
   ["101"; "Broken login"; "reject"; ""; "bug"; "Backlog"; "0"; ""; "";
    ""; ""; ""; ""]%string].

(** A ledger after a run that succeeded: key set, error flag 0. *)
Definition doneLedger : list (list string) :=
  [jiraHeader ++ ["Error"%string];
   ["101"; "Login page"; "ok"; ""; "story"; "Backlog"; "0"; ""; "";
    ""; ""; ""; "PRJ-7"; "0"]%string].


(** The ledger of the merge example: id, key, error flag. *)
Definition mergeLedger : list (list string) :=
  [["JIRA Issue ID"; "JIRA Issue Key"; "Error"];
   ["id1"; ""; ""];
   ["id2"; "KEY-2"; "0"]]%string.

Definition mergeOutcomes : gmap string Spec.Outcome :=
  {[ "id1"%string := Spec.Success "KEY-1" ]}.

(** The phases against this JIRA side. *)
Definition import : list nat -> Services.M nat string (option (Services.error string)) :=
  Services.ImportIssues nat string createIssue updateStoryPoints updateStatus
    addComment lower trimSpace scanInt config.
Definition upload : Services.M nat string (option (Services.error string)) :=
  Services.UploadAttachments nat string uploadAttachment config.

(** An attachments folder with one file for story 101. *)
Definition oneAttachment : Services.Folder :=
  Services.Entries
    [Services.mkDirEntry "101" true (Some [("shot.png"%string, false)])].

End Sample.

(** ** Further observations *)

Module Obs.

Definition isFailedUpload {CE} (e : Services.Event CE) : bool :=
  match e with
  | Services.EvUploadAttachment _ _ (Some _) => true
  | _ => false
  end.

(** How many [UploadAttachment] calls of a trace returned an error. *)
Definition failedUploads {CE} (tr : list (Services.Event CE)) : nat :=
  length (List.filter isFailedUpload tr).

Definition isCall {CE} (e : Services.Event CE) : bool :=
  match e with
  | Services.EvLog _ => false
  | _ => true
  end.

(** The calls of the JIRA client in a trace, without the log lines. *)
Definition clientCalls {CE} (tr : list (Services.Event CE))
  : list (Services.Event CE) :=
  List.filter isCall tr.

(** A call of the JIRA client without its answer. *)
Inductive Call : Type :=
| CreateIssue (args : Services.CreateArgs)
| UpdateStoryPoints (issueKey : string) (sp : Z)
| UpdateStatus (issueKey status : string)
| AddComment (issueKey comment : string)
| UploadAttachment (issueKey : string) (fPath : list string).

Definition callOf {CE} (e : Services.Event CE) : option Call :=
  match e with
  | Services.EvLog _ => None
  | Services.EvCreateIssue args _ => Some (CreateIssue args)
  | Services.EvUpdateStoryPoints k sp _ => Some (UpdateStoryPoints k sp)
  | Services.EvUpdateStatus k s _ => Some (UpdateStatus k s)
  | Services.EvAddComment k c _ => Some (AddComment k c)
  | Services.EvUploadAttachment k p _ => Some (UploadAttachment k p)
  end.

(** The calls of a trace, in order. *)
Definition calls {CE} (tr : list (Services.Event CE)) : list Call :=
  omap callOf tr.

(** The calls [processRecord] makes for a record once the issue exists
    under [issueKey]. *)
Definition followUps (scanInt : string -> Z) (record : gmap string string)
    (issueKey : string) : list Call :=
  (if negb (String.eqb (Services.get record "Story Points") "")
      && (0 <? scanInt (Services.get record "Story Points"))
   then [UpdateStoryPoints issueKey
           (scanInt (Services.get record "Story Points"))]
   else [])
  ++ (if negb (String.eqb (Services.get record "JIRA Status") "")
         && negb (String.eqb (Services.get record "JIRA Status") "Backlog")
      then [UpdateStatus issueKey (Services.get record "JIRA Status")]
      else [])
  ++ (if negb (String.eqb (Services.get record "Comment") "")
      then [AddComment issueKey (Services.get record "Comment")]
      else []).

(** A key [LoadIssueMapping] accepts. *)
Definition usableKey (k : string) : bool :=
  negb (String.eqb k "") && negb (String.eqb k "ERROR").

(** The uploads one entry of the attachments folder calls for: none for a
    plain file, for a folder without a usable key or for a folder that
    cannot be listed; else one per plain file of the folder. *)
Definition groupUploads (root : string) (m : gmap string string)
    (entry : Services.DirEntry) : list (string * list string) :=
  if Services.IsDir entry then
    match m !! Services.Name entry with
    | Some k =>
        if String.eqb k "ERROR" then []
        else match Services.listing entry with
             | Some files =>
                 map (fun file => (k, [root; Services.Name entry; fst file]))
                   (List.filter (fun file => negb (snd file)) files)
             | None => []
             end
    | None => []
    end
  else [].

(** What a stretch of the upload loops does to the world and to the
    counters: files untouched, trace longer by [evs] without any
    [CreateIssue], [totalFiles] up by the uploads of [evs], [failedFiles]
    by the failed ones, [uploadedFiles] by the rest. *)
Definition advances {J CE} (w w' : Services.World J CE)
    (counts counts' : Z * Z * Z) (evs : list (Services.Event CE)) : Prop :=
  Services.csv w' = Services.csv w /\
  Services.folder w' = Services.folder w /\
  Services.trace w' = Services.trace w ++ evs /\
  Spec.createCalls evs = [] /\
  counts' =
    (counts.1.1 + Z.of_nat (length (Spec.uploads evs)),
     counts.1.2 + (Z.of_nat (length (Spec.uploads evs))
                   - Z.of_nat (failedUploads evs)),
     counts.2 + Z.of_nat (failedUploads evs)).

Definition expectedUploads (root : string) (m : gmap string string)
    (entries : list Services.DirEntry) : list (string * list string) :=
  flat_map (groupUploads root m) entries.

End Obs.

(** ** More concrete instances *)

Module Sample2.

(** A ledger without the id and key columns. *)
Definition noKeyLedger : Services.World nat string :=
  Sample.world [["Title"]; ["Login page"]]%string Services.NotExist.

(** The ledger of a successful earlier run, with the attachment of its
    story. *)
Definition doneWorld : Services.World nat string :=
  Sample.world Sample.doneLedger Sample.oneAttachment.

Definition doneMapping : gmap string string :=
  {[ "101"%string := "PRJ-7"%string ]}.

Definition doneLoaded : Services.World nat string :=
  Spec.after doneWorld
    [Services.EvLog Services.InfoLoadingMapping;
     Services.EvLog (Services.InfoMappingLoaded 1)].

(** The fresh ledger, and what the workers hand to the rewrite after JIRA
    has refused story 101. *)
Definition freshWorld : Services.World nat string :=
  Sample.world Sample.freshLedger Services.NotExist.
Definition refusedKeys : gmap string string :=
  {[ "101"%string := "ERROR"%string ]}.
Definition refusedFlags : gmap string bool := {[ "101"%string := true ]}.
Definition freshRewritten : Services.World nat string :=
  Services.mkWorld 0%nat
    (Services.mkFile
       (Some [Sample.jiraHeader;
              ["101"; "Broken login"; "reject"; ""; "bug"; "Backlog"; "0";
               ""; ""; ""; ""; ""; "ERROR"; "1"]%string]) true)
    Services.NotExist
    [Services.EvLog Services.InfoUpdatingKeys;
     Services.EvLog (Services.InfoKeysUpdated 1 1)].

(** The merge example, rewritten. *)
Definition mergeWorld : Services.World nat string :=
  Sample.world Sample.mergeLedger Services.NotExist.
Definition mergeRewritten : Services.World nat string :=
  Services.mkWorld 0%nat
    (Services.mkFile
       (Some [["JIRA Issue ID"; "JIRA Issue Key"; "Error"];
              ["id1"; "KEY-1"; "0"];
              ["id2"; "KEY-2"; "0"]]%string) true)
    Services.NotExist
    [Services.EvLog Services.InfoUpdatingKeys;
     Services.EvLog (Services.InfoKeysUpdated 1 2)].

End Sample2.

(** ** The Convert phase and the whole run *)

(** [config.StatusMapping] *)
Module ConfigMap.

Definition StatusMapping : gmap string string :=
  list_to_map
    [("unscheduled", "Backlog");
     ("unstarted", "Backlog");
     ("started", "進行中");
     ("finished", "REVIEWS");
     ("delivered", "RELEASED");
     ("accepted", "受け入れ済み");
     ("rejected", "Backlog")]%string.

End ConfigMap.

Module Migration.
Import Services.

(** What [os.Open] and [csv.Reader.ReadAll] with [FieldsPerRecord = -1]
    give for a file: the records as they are, of any lengths. *)
Inductive Source : Type :=
| CannotOpen                              (* os.Open fails *)
| Malformed                               (* ReadAll fails *)
| Records (records : list (list string)).

(** [config.PivotalCSV]: the path of the ledger itself, or a file the
    program only reads. *)
Inductive Input : Type :=
| TheLedger
| Export (src : Source).

(** [strings.Join] *)
Fixpoint Join (elems : list string) (sep : string) : string :=
  match elems with
  | [] => EmptyString
  | [a] => a
  | a :: r => a +:+ sep +:+ Join r sep
  end.

Definition newline : string := String (ascii_of_nat 10) EmptyString.

(** ["\n\n===========================\n\n"] *)
Definition commentSeparator : string :=
  newline +:+ newline +:+ "===========================" +:+ newline +:+ newline.

(** The header loop of [ReadPivotalCSV]:
    [headerIndices[header] = append(headerIndices[header], i)]. *)
Definition headerIndices (headers : list string) : gmap string (list nat) :=
  foldl (fun m ih => <[snd ih := default [] (m !! snd ih) ++ [fst ih]]> m) ∅
    (zip (seq 0 (length headers)) headers).

(** [newRecord := make([]string, len(headers)); copy(newRecord, record)] *)
Definition padded (n : nat) (record : list string) : list string :=
  record ++ replicate (n - length record) EmptyString.

(** The row body of [ReadPivotalCSV].  Each round of the loop over
    [headerIndices] writes the key it ranges over and no other, so the
    order of the map iteration does not show. *)
Definition pivotalRow (headerIndices : gmap string (list nat))
    (record : list string) : gmap string string :=
  let rowData :=
    map_imap (fun header indices =>
                if negb (String.eqb header "Comment") then
                  Some (match indices with
                        | i :: _ =>
                            if (i <? length record)%nat
                            then nth i record EmptyString else EmptyString
                        | [] => EmptyString
                        end)
                else None) headerIndices in
  match headerIndices !! "Comment"%string with
  | Some commentIndices =>
      if (0 <? length commentIndices)%nat then
        let comments :=
          omap (fun idx =>
                  if (idx <? length record)%nat
                     && negb (String.eqb (nth idx record EmptyString) "")
                  then Some (nth idx record EmptyString) else None)
            commentIndices in
        <["Comment"%string :=
            if (0 <? length comments)%nat
            then Join comments commentSeparator else EmptyString]> rowData
      else rowData
  | None => rowData
  end.

(** [WriteJiraCSV]'s [headers]. *)
Definition jiraHeaders : list string :=
  ["JIRA Issue ID"; "Title"; "Description"; "Labels"; "Type";
   "JIRA Status"; "Story Points"; "Created Date"; "Resolved Date";
   "Assignee"; "Reporter"; "Comment"; "JIRA Issue Key"]%string.

(** [convertDateFormat]'s [formats]. *)
Definition formats : list string :=
  ["2006-01-02T15:04:05"; "1/2/06 3:04 PM"; "01/Jan/06 3:04 PM";
   "Jan 2, 2006"]%string.

(** One iteration of the mapping loop of [UpdateJiraKeys]: the row
    afterwards and whether [updated] was incremented; [None] is the
    index-out-of-range panic. *)
Definition updateKey (idIndex keyIndex : Z) (mapping : gmap string string)
    (record : list string) : option (list string * bool) :=
  if Z.of_nat (length record) <=? Z.max idIndex keyIndex then
    Some (record, false)
  else
    let pivotalID := cell record idIndex in
    match mapping !! pivotalID with
    | Some jiraKey =>
        match store record keyIndex jiraKey with
        | None => None
        | Some record1 => Some (record1, true)
        end
    | None => Some (record, false)
    end.

Fixpoint updateKeys (idIndex keyIndex : Z) (mapping : gmap string string)
    (rows : list (list string)) (updated : Z)
  : option (list (list string) * Z) :=
  match rows with
  | [] => Some ([], updated)
  | record :: rest =>
      match updateKey idIndex keyIndex mapping record with
      | None => None
      | Some (record', hit) =>
          match updateKeys idIndex keyIndex mapping rest
                  (if hit then updated + 1 else updated) with
          | None => None
          | Some (rest', n) => Some (record' :: rest', n)
          end
      end
  end.

(** Errors of the Convert phase and of the run; [Svc] carries an error the
    functions of [Services] word. *)
Inductive error (ClientError : Type) : Type :=
| Svc (e : Services.error ClientError)
| ErrRowTooLong (row nHeaders nFields : Z)
    (* 行 %d: フィールド数がヘッダー数より多いです *)
| ErrNoData                       (* 処理するデータがありません *)
| ErrNothingToWrite               (* 書き込むデータがありません *)
| ErrPivotalRead (cause : error ClientError)  (* Pivotal CSV読み込みエラー: %w *)
| ErrConvert (cause : error ClientError)      (* CSV変換エラー: %w *)
| ErrJiraWrite (cause : error ClientError)    (* JIRA CSV書き込みエラー: %w *)
| ErrAuth (cause : ClientError).              (* JIRA認証エラー: %w *)
Arguments Svc {ClientError} e.
Arguments ErrRowTooLong {ClientError} row nHeaders nFields.
Arguments ErrNoData {ClientError}.
Arguments ErrNothingToWrite {ClientError}.
Arguments ErrPivotalRead {ClientError} cause.
Arguments ErrConvert {ClientError} cause.
Arguments ErrJiraWrite {ClientError} cause.
Arguments ErrAuth {ClientError} cause.

(** Log lines; file names, which are fixed by the configuration, are left
    out of them. *)
Inductive LogLine : Type :=
| InfoReadingPivotal                   (* Pivotal CSVファイル '%s' を読み込みます *)
| WarnShortRow (row nHeaders nFields : Z)
    (* 行 %d: フィールド数が不一致 ... 不足分は空にします *)
| InfoPivotalRead (n : Z)              (* Pivotal CSVを読み込みました: %d 行 *)
| InfoConverting                       (* PivotalデータをJIRA形式に変換しています... *)
| WarnDate (dateStr : string)          (* 日付変換エラー: '%s' *)
| InfoProgress (i n : Z)               (* 処理中... %d/%d 行完了 *)
| InfoConverted (n : Z)                (* 変換完了: %d 行を処理しました *)
| InfoWritingJira                      (* JIRA CSVファイル '%s' を作成します *)
| InfoWritten (n : Z)                  (* CSV書き込み完了: %d 行 *)
| InfoConvertDone                      (* CSVの変換が完了しました *)
| InfoUpdatingKeysOnly                 (* JIRAキーをCSVファイルに更新しています... *)
| InfoKeysOnlyUpdated (updated total : Z)
    (* JIRAキーの更新完了: %d/%d 件を更新しました *)
| InfoAuthOK                           (* JIRA認証成功 *)
| InfoStartConvert                     (* CSVデータの変換を開始します *)
| InfoStartImport                      (* JIRAイシューのインポートを開始します *)
| InfoStartUpload                      (* 添付ファイルのアップロードを開始します *)
| InfoMigrationDone                    (* 移行処理が完了しました *)
| InfoElapsedAll.                      (* utils.TrackTime, 移行処理全体 *)

(** Observable actions of a run: those of the Import and Upload phases,
    the log lines above, and the call of [CheckAuth] with its answer. *)
Inductive Event (ClientError : Type) : Type :=
| Inner (e : Services.Event ClientError)
| Log (l : LogLine)
| EvCheckAuth (r : option ClientError).
Arguments Inner {ClientError} e.
Arguments Log {ClientError} l.
Arguments EvCheckAuth {ClientError} r.

Section Run.

Variable J : Type.
Variable ClientError : Type.
Variable checkAuth : J -> J * option ClientError.
Variable createIssue : J -> CreateArgs -> J * res ClientError string.
Variable updateStoryPoints : J -> string -> Z -> J * option ClientError.
Variable updateStatus : J -> string -> string -> J * option ClientError.
Variable addComment : J -> string -> string -> J * option ClientError.
Variable uploadAttachment :
  J -> string -> list string -> J * option ClientError.

(** Library pieces. *)
Variable unicodeLower : string -> string.
Variable TrimSpace : string -> string.
Variable scanInt : string -> Z.
Variable Atoi : string -> Z.        (* the int strconv.Atoi returns, its error dropped *)
Variable Itoa : Z -> string.        (* strconv.Itoa *)
Variable Time : Type.               (* time.Time *)
Variable timeParse : string -> string -> option Time.  (* time.Parse(layout, value) *)
Variable timeFormat : Time -> string -> string.        (* t.Format(layout) *)

Variable config : Config.
Variable PivotalCSV : Input.

Record State : Type := mkState {
  jira : J;
  ledger : File;
  folder : Folder;
  trace : list (Event ClientError);
}.

Definition M (A : Type) : Type := Eff State A.

Definition log (l : LogLine) : M unit :=
  fun s => Some (tt, mkState (jira s) (ledger s) (folder s)
                       (trace s ++ [Log l])).
Definition getLedger : M File := fun s => Some (ledger s, s).
Definition putLedger (f : File) : M unit :=
  fun s => Some (tt, mkState (jira s) f (folder s) (trace s)).

(** A phase of [Services] inside the run: it works on the same JIRA side,
    ledger and folder, and its events join the trace in their order. *)
Definition lift {A} (m : Services.M J ClientError A) : M A :=
  fun s =>
    match m (mkWorld (jira s) (ledger s) (folder s) []) with
    | Some (a, w) =>
        Some (a, mkState (Services.jira w) (csv w) (Services.folder w)
                   (trace s ++ map Inner (Services.trace w)))
    | None => None
    end.

(** [jiraClient.CheckAuth()] *)
Definition CheckAuth : M (option ClientError) :=
  fun s =>
    let '(j', r) := checkAuth (jira s) in
    Some (r, mkState j' (ledger s) (folder s) (trace s ++ [EvCheckAuth r])).

Definition ToLower : string -> string := GoStrings.ToLower unicodeLower.

(** *** csv_processor.go *)

(** [os.Open(p.config.PivotalCSV)] and [reader.ReadAll()]. *)
Definition readPivotal : M Source :=
  fun s =>
    Some (match PivotalCSV with
          | Export src => src
          | TheLedger =>
              match content (ledger s) with
              | None => CannotOpen
              | Some raw => Records raw
              end
          end, s).

(** The loop of [ReadPivotalCSV] over [records[1:]], from row [i]. *)
Fixpoint readRows (headers : list string) (indices : gmap string (list nat))
    (i : nat) (rows : list (list string)) (result : list (gmap string string))
  : M (res (error ClientError) (list (gmap string string))) :=
  match rows with
  | [] => ret (Ok result)
  | record :: rest =>
      if (length headers <? length record)%nat then
        ret (Err (ErrRowTooLong (Z.of_nat i + 2) (Z.of_nat (length headers))
                    (Z.of_nat (length record))))
      else
        (let* record :=
           (if (length record <? length headers)%nat then
              log (WarnShortRow (Z.of_nat i + 2) (Z.of_nat (length headers))
                     (Z.of_nat (length record))) ;;;
              ret (padded (length headers) record)
            else ret record) in
         readRows headers indices (S i) rest
           (result ++ [pivotalRow indices record]))%eff
  end.

(** [ReadPivotalCSV] *)
Definition ReadPivotalCSV
  : M (res (error ClientError) (list (gmap string string))) :=
  (log InfoReadingPivotal ;;;
   let* src := readPivotal in
   match src with
   | CannotOpen => ret (Err (Svc ErrCSVOpen))
   | Malformed => ret (Err (Svc ErrCSVRead))
   | Records records =>
       if (length records <? 2)%nat then ret (Err (Svc ErrCSVShort))
       else
         let headers := hd [] records in
         let* r := readRows headers (headerIndices headers) 0 (tl records) [] in
         match r with
         | Err e => ret (Err e)
         | Ok result =>
             log (InfoPivotalRead (Z.of_nat (length result))) ;;;
             ret (Ok result)
         end
   end)%eff.

Fixpoint firstParse (formats : list string) (dateStr : string)
  : option Time :=
  match formats with
  | [] => None
  | format :: rest =>
      match timeParse format dateStr with
      | Some t => Some t
      | None => firstParse rest dateStr
      end
  end.

(** [convertDateFormat] *)
Definition convertDateFormat (dateStr : string) : M string :=
  if String.eqb dateStr "" then ret EmptyString
  else
    match firstParse formats dateStr with
    | Some t => ret (timeFormat t "2006-01-02T15:04:05.000+0000")
    | None => (log (WarnDate dateStr) ;;; ret EmptyString)%eff
    end.

(** The body of the loop of [ProcessPivotalToJiraCSV], up to the append. *)
Definition jiraRecord (record : gmap string string)
  : M (gmap string string) :=
  (let jiraRecord : gmap string string := ∅ in
   let jiraRecord := <["JIRA Issue ID"%string := get record "Id"]> jiraRecord in
   let jiraRecord := <["Title"%string := get record "Title"]> jiraRecord in
   let jiraRecord :=
     <["Description"%string := get record "Description"]> jiraRecord in
   let jiraRecord := <["Labels"%string := get record "Labels"]> jiraRecord in
   let jiraRecord := <["Type"%string := get record "Type"]> jiraRecord in
   let pivotalStatus := ToLower (get record "Current State") in
   let jiraRecord :=
     <["JIRA Status"%string := get ConfigMap.StatusMapping pivotalStatus]>
       jiraRecord in
   let storyPoints :=
     match record !! "Estimate"%string with
     | Some estimate =>
         if negb (String.eqb estimate "") then Atoi estimate else 0
     | None => 0
     end in
   let jiraRecord :=
     <["Story Points"%string := Itoa storyPoints]> jiraRecord in
   let* created := convertDateFormat (get record "Created at") in
   let jiraRecord := <["Created Date"%string := created]> jiraRecord in
   let* resolved := convertDateFormat (get record "Accepted at") in
   let jiraRecord := <["Resolved Date"%string := resolved]> jiraRecord in
   let jiraRecord := <["Assignee"%string := get record "Owned By"]> jiraRecord in
   let jiraRecord :=
     <["Reporter"%string := get record "Requested By"]> jiraRecord in
   let jiraRecord := <["Comment"%string := get record "Comment"]> jiraRecord in
   let jiraRecord := <["JIRA Issue Key"%string := EmptyString]> jiraRecord in
   ret jiraRecord)%eff.

(** The loop of [ProcessPivotalToJiraCSV], from index [i]; [n] is
    [len(records)]. *)
Fixpoint convertRows (n : nat) (i : nat) (records : list (gmap string string))
    (result : list (gmap string string)) : M (list (gmap string string)) :=
  match records with
  | [] => ret result
  | record :: rest =>
      (let* r := jiraRecord record in
       (if (0 <? i)%nat && (i mod 100 =? 0)%nat
        then log (InfoProgress (Z.of_nat i) (Z.of_nat n)) else ret tt) ;;;
       convertRows n (S i) rest (result ++ [r]))%eff
  end.

(** [ProcessPivotalToJiraCSV] *)
Definition ProcessPivotalToJiraCSV (records : list (gmap string string))
  : M (res (error ClientError) (list (gmap string string))) :=
  (log InfoConverting ;;;
   if (length records =? 0)%nat then ret (Err ErrNoData)
   else
     let* result := convertRows (length records) 0 records [] in
     log (InfoConverted (Z.of_nat (length result))) ;;;
     ret (Ok result))%eff.

(** One row of [WriteJiraCSV]: [row[i] = record[header]]. *)
Definition jiraRow (record : gmap string string) : list string :=
  map (get record) jiraHeaders.

(** [WriteJiraCSV] *)
Definition WriteJiraCSV (records : list (gmap string string))
  : M (option (error ClientError)) :=
  (log InfoWritingJira ;;;
   if (length records =? 0)%nat then ret (Some ErrNothingToWrite)
   else
     let* file := getLedger in
     if writable file then
       putLedger (mkFile (Some (jiraHeaders :: map jiraRow records)) true) ;;;
       log (InfoWritten (Z.of_nat (length records))) ;;;
       ret None
     else ret (Some (Svc ErrCSVCreate)))%eff.


(** *** migration.go *)

(** [ConvertCSV] *)
Definition ConvertCSV : M (option (error ClientError)) :=
  (let* read := ReadPivotalCSV in
   match read with
   | Err e => ret (Some (ErrPivotalRead e))
   | Ok records =>
       let* converted := ProcessPivotalToJiraCSV records in
       match converted with
       | Err e => ret (Some (ErrConvert e))
       | Ok jiraRecords =>
           let* e := WriteJiraCSV jiraRecords in
           match e with
           | Some e => ret (Some (ErrJiraWrite e))
           | None => log InfoConvertDone ;;; ret None
           end
       end
   end)%eff.

(** The Import and the Upload phase of [Services], within the run. *)
Definition ImportIssues (sched : list nat) : M (option (error ClientError)) :=
  (let* e := lift (Services.ImportIssues J ClientError createIssue
                     updateStoryPoints updateStatus addComment unicodeLower
                     TrimSpace scanInt config sched) in
   ret (option_map Svc e))%eff.

Definition UploadAttachments : M (option (error ClientError)) :=
  (let* e := lift (Services.UploadAttachments J ClientError uploadAttachment
                     config) in
   ret (option_map Svc e))%eff.

(** [RunMigration]; [sched] is the order in which the goroutines of the
    Import phase run. *)
Definition RunMigration (convertOnly importOnly attachmentsOnly : bool)
    (sched : list nat) : M (option (error ClientError)) :=
  (let* out :=
     (let* e := CheckAuth in
      match e with
      | Some e => ret (Some (ErrAuth e))
      | None =>
          log InfoAuthOK ;;;
          let* e :=
            (if negb importOnly && negb attachmentsOnly
             then log InfoStartConvert ;;; ConvertCSV
             else ret None) in
          match e with
          | Some e => ret (Some e)
          | None =>
              if convertOnly then ret None
              else
                let* e :=
                  (if negb attachmentsOnly
                   then log InfoStartImport ;;; ImportIssues sched
                   else ret None) in
                match e with
                | Some e => ret (Some e)
                | None =>
                    let* e :=
                      (if negb importOnly || attachmentsOnly
                       then log InfoStartUpload ;;; UploadAttachments
                       else ret None) in
                    match e with
                    | Some e => ret (Some e)
                    | None => log InfoMigrationDone ;;; ret None
                    end
                end
          end
      end) in
   log InfoElapsedAll ;;;   (* defer utils.TrackTime *)
   ret out)%eff.

End Run.

Arguments mkState {J ClientError} jira ledger folder trace.
Arguments jira {J ClientError} s.
Arguments ledger {J ClientError} s.
Arguments folder {J ClientError} s.
Arguments trace {J ClientError} s.
End Migration.

(** ** Observations on the client *)

Module ApiObs.

(** The id an element of the [transitions] array offers for the status
    name [k]: the element must pass every type assertion of
    [GetTransitions] and its lower-cased [to.name] must be [k]. *)
Definition leadsTo (unicodeLower : string -> string) (k : string)
    (t : Api.json) : option string :=
  match Api.transitionEntry unicodeLower t with
  | Some (name, id) => if String.eqb name k then Some id else None
  | None => None
  end.

(** A wire request of the given method to the given URL. *)
Definition goesTo (method url : string) (w : Api.Wire) : Prop :=
  Api.wMethod w = method /\ Api.wURL w = url.

(** The request [CheckAuth] builds: a GET with a nil body. *)
Definition getMyself : Api.Request :=
  Api.mkRequest "GET" "https://jira.example/rest/api/2/myself"
    [("Authorization", "Basic bWU6dG9rZW4=")] None 0.

End ApiObs.

(** ** Observations on the run *)

Module MigObs.
Import Services Migration.

(** The cell of [record] under the first column named [h]; the empty
    string when the record ends before that column. *)
Fixpoint firstCell (h : string) (headers record : list string)
  : option string :=
  match headers with
  | [] => None
  | x :: hs =>
      if String.eqb x h then Some (hd EmptyString record)
      else firstCell h hs (tl record)
  end.

(** The cells of [record] under the columns named [h], left to right. *)
Fixpoint cellsUnder (h : string) (headers record : list string)
  : list string :=
  match headers, record with
  | x :: hs, v :: vs =>
      (if String.eqb x h then [v] else []) ++ cellsUnder h hs vs
  | _, _ => []
  end.

Definition nonEmpty (s : string) : bool := negb (String.eqb s "").

(** The positions of [h] among [headers], counted from [i]. *)
Fixpoint positionsFrom (i : nat) (h : string) (headers : list string)
  : list nat :=
  match headers with
  | [] => []
  | x :: hs =>
      (if String.eqb x h then [i] else []) ++ positionsFrom (S i) h hs
  end.

(** What [ReadPivotalCSV] gets from [os.Open] and [ReadAll]. *)
Definition sourceOf (PivotalCSV : Input) (f : File) : Source :=
  match PivotalCSV with
  | Export src => src
  | TheLedger =>
      match content f with
      | None => CannotOpen
      | Some raw => Records raw
      end
  end.

(** A step that only writes log lines. *)
Definition logged {J CE} (s s' : State J CE) (lines : list LogLine) : Prop :=
  jira s' = jira s /\ ledger s' = ledger s /\ folder s' = folder s /\
  trace s' = trace s ++ map Log lines.

(** What [ProcessPivotalToJiraCSV] carries over from a record of the
    export: the keys of the result are the headers [WriteJiraCSV] writes,
    eight fields are copied, and the key is blank. *)
Definition carried (record r : gmap string string) : Prop :=
  dom r = list_to_set jiraHeaders /\
  r !! "JIRA Issue ID"%string = Some (get record "Id") /\
  r !! "Title"%string = Some (get record "Title") /\
  r !! "Description"%string = Some (get record "Description") /\
  r !! "Labels"%string = Some (get record "Labels") /\
  r !! "Type"%string = Some (get record "Type") /\
  r !! "Assignee"%string = Some (get record "Owned By") /\
  r !! "Reporter"%string = Some (get record "Requested By") /\
  r !! "Comment"%string = Some (get record "Comment") /\
  r !! "JIRA Issue Key"%string = Some EmptyString.

(** A record of the export and the record [ProcessPivotalToJiraCSV] makes
    of it: the fields above, and the status [config.StatusMapping] gives
    for the lower-cased state. *)
Definition converted (unicodeLower : string -> string)
    (record r : gmap string string) : Prop :=
  carried record r /\
  r !! "JIRA Status"%string
  = Some (get ConfigMap.StatusMapping
            (GoStrings.ToLower unicodeLower (get record "Current State"))).


(** The Pivotal states whose stories get a status other than Backlog. *)
Definition movingStates : list string :=
  ["started"; "finished"; "delivered"; "accepted"]%string.

(** The events of the Import and Upload phases within a run. *)
Definition inner {CE} (tr : list (Event CE)) : list (Services.Event CE) :=
  omap (fun e => match e with Inner e => Some e | _ => None end) tr.

End MigObs.


(** ** A run, concretely *)

Module Sample3.
Import Services Migration.

Definition checkAuth (n : nat) : nat * option string := (n, None).
Definition refuseAuth (n : nat) : nat * option string :=
  (n, Some "401 Unauthorized"%string).
Definition atoi (s : string) : Z := 0.
Definition itoa (n : Z) : string := "0".
Definition timeParse (layout value : string) : option unit := None.
Definition timeFormat (t : unit) (layout : string) : string := EmptyString.

(** An export with two Comment columns and one story. *)
Definition exportHeaders : list string :=
  ["Id"; "Title"; "Current State"; "Comment"; "Title"; "Comment"]%string.
Definition exportRow : list string :=
  ["101"; "Login page"; "Started"; "first"; "Other title"; "second"]%string.
Definition export : Input := Export (Records [exportHeaders; exportRow]).

(** Before the first run: no ledger yet, one attachment waiting. *)
Definition start : State nat string :=
  mkState 0%nat (mkFile None true) Sample.oneAttachment [].

(** A later run: the ledger of a finished import is in place. *)
Definition later : State nat string :=
  mkState 0%nat (mkFile (Some Sample.doneLedger) true) Sample.oneAttachment [].

Definition readPivotalCSV
  : M nat string (res (error string) (list (gmap string string))) :=
  ReadPivotalCSV nat string export.
Definition process (records : list (gmap string string))
  : M nat string (res (error string) (list (gmap string string))) :=
  ProcessPivotalToJiraCSV nat string Sample.lower atoi itoa unit timeParse
    timeFormat records.
Definition convertCSV : M nat string (option (error string)) :=
  ConvertCSV nat string Sample.lower atoi itoa unit timeParse timeFormat
    export.
Definition run (auth : nat -> nat * option string)
    (convertOnly importOnly attachmentsOnly : bool)
  : M nat string (option (error string)) :=
  RunMigration nat string auth Sample.createIssue Sample.updateStoryPoints
    Sample.updateStatus Sample.addComment Sample.uploadAttachment Sample.lower
    Sample.trimSpace Sample.scanInt atoi itoa unit timeParse timeFormat
    Sample.config export convertOnly importOnly attachmentsOnly [0%nat].

(** The story of the export as [ReadPivotalCSV] returns it. *)
Definition story : gmap string string :=
  pivotalRow (headerIndices exportHeaders) exportRow.

(** The story converted, and the state after the conversion. *)
Definition converted : list (gmap string string) :=
  match process [story] start with
  | Some (Ok result, _) => result
  | _ => []
  end.
Definition afterProcess : State nat string :=
  match process [story] start with
  | Some (_, s) => s
  | None => start
  end.

End Sample3.

(** ** A ledger with a repeated header *)

Module Sample4.

(** A ledger with two Title columns. *)
Definition twoTitles : Services.World nat string :=
  Sample.world [["JIRA Issue ID"; "Title"; "Title"];
                ["1"; "old"; "new"]]%string Services.NotExist.
End Sample4.

(** * Verification *)

(** ** api/jira_client.go *)

Module ApiFacts.
Import Api.

Section Facts.

Variable Server : Type.
Variable roundTrip : Server -> Wire -> Server * res error Response.
Variable unicodeLower : string -> string.
Variable urlParses : string -> bool.
Variable basicAuth : string -> string -> string.
Variable jsonMarshal : json -> string.
Variable jsonDecodeObject : string -> option (list (string * json)).
Variable config : Config.

Abbreviation retry := (retryOnRateLimit Server roundTrip).

#[local] Arguments Do : simpl never.

(** The wire request of the first attempt. *)
Lemma Do_sends (req : Request) (srv : Server) (tr : list Event) :
  Do Server roundTrip req (srv, tr) =
  let w := mkWire (Method req) (URL req) (Header req) (default EmptyString (Body req)) in
  Some ((snd (drain req), snd (roundTrip srv w)),
        (fst (roundTrip srv w), tr ++ [EvSend w])).
Proof.
  unfold Do, drain. destruct (Body req) as [b|]; simpl;
    destruct (roundTrip srv _) as [srv' r]; reflexivity.
Qed.

(** After one attempt nothing is left to read from the request's body. *)
Lemma drain_leaves_nothing (req : Request) :
  default EmptyString (Body (snd (drain req))) = EmptyString.
Proof.
  unfold drain. destruct (Body req) eqn:Hb; simpl; [reflexivity|].
  rewrite Hb. reflexivity.
Qed.

(** C5: the request is sent once; a transport error of the first attempt is
    returned as it is; a first response other than 429 is returned with no
    further action; on 429, and only then, the response body is read to its
    end and closed, one warning is logged, the code sleeps ten seconds and
    sends once more, and whatever the second attempt gives, response of any
    status or transport error, is the result. *)
Theorem retryOnRateLimit_single_retry
    (req : Request) (srv : Server) (tr : list Event) :
  let w1 := mkWire (Method req) (URL req) (Header req)
              (default EmptyString (Body req)) in
  match roundTrip srv w1 with
  | (srv1, Err e) =>
      exists req', retry req (srv, tr) =
                   Some ((req', Err e), (srv1, tr ++ [EvSend w1]))
  | (srv1, Ok resp) =>
      if StatusCode resp =? 429 then
        exists req' body2,
          let w2 := mkWire (Method req) (URL req) (Header req) body2 in
          retry req (srv, tr) =
          Some ((req', snd (roundTrip srv1 w2)),
                (fst (roundTrip srv1 w2),
                 tr ++ [EvSend w1; EvRespReadAll; EvRespClose;
                        EvLog (WarnRateLimited (RespBody resp));
                        EvSleep (10 * Second); EvSend w2]))
      else
        exists req', retry req (srv, tr) =
                     Some ((req', Ok resp), (srv1, tr ++ [EvSend w1]))
  end.
Proof.
  intros w1. unfold retryOnRateLimit, bind. rewrite Do_sends.
  cbv zeta. fold w1.
  destruct (roundTrip srv w1) as [srv1 [resp|e]] eqn:Hrt; simpl.
  - destruct (StatusCode resp =? 429) eqn:Hs; simpl.
    + set (req2 := match Body (snd (drain req)) with
                   | Some rest => _ | None => _ end).
      exists (snd (drain req2)), (default EmptyString (Body req2)).
      rewrite Do_sends. cbv zeta.
      assert (Hm : Method req2 = Method req /\ URL req2 = URL req
                   /\ Header req2 = Header req).
      { unfold req2, drain.
        destruct (Body req) eqn:Hb; simpl; rewrite ?Hb; auto. }
      destruct Hm as (-> & -> & ->).
      rewrite <- !app_assoc. reflexivity.
    + eexists. unfold ret. reflexivity.
  - eexists. unfold ret. reflexivity.
Qed.

(** The retry sends an empty body whenever the first attempt had one to
    send: [io.ReadAll(req.Body)] runs after the first attempt has read the
    reader to its end. *)
Lemma retryOnRateLimit_second_body (req : Request) (srv : Server)
    (tr : list Event) (b : string) (srv1 : Server) (resp : Response) :
  Body req = Some b ->
  roundTrip srv (mkWire (Method req) (URL req) (Header req) b) = (srv1, Ok resp) ->
  StatusCode resp = 429 ->
  exists out st,
    retry req (srv, tr) = Some (out, st) /\
    Spec.sends (snd st) =
    Spec.sends tr ++ [mkWire (Method req) (URL req) (Header req) b;
                      mkWire (Method req) (URL req) (Header req) EmptyString].
Proof.
  intros Hb Hrt Hs.
  unfold retryOnRateLimit, bind. rewrite Do_sends, Hb. simpl. rewrite Hrt. simpl.
  rewrite Hs. simpl. unfold drain at 1. rewrite Hb. simpl.
  rewrite Do_sends. simpl.
  eexists _, _. split; [reflexivity|]. simpl.
  unfold Spec.sends. rewrite !omap_app. simpl. rewrite <- !app_assoc.
  unfold drain. rewrite Hb. reflexivity.
Qed.

(** C6: a target status equal to "backlog" up to case makes [UpdateStatus]
    return nil after one info line; nothing is sent and the server is not
    touched. *)
Theorem UpdateStatus_backlog_is_local
    (issueKey targetStatus : string) (srv : Server) (tr : list Event) :
  Spec.equalFold unicodeLower targetStatus "backlog" = true ->
  UpdateStatus Server roundTrip unicodeLower urlParses basicAuth jsonMarshal
    jsonDecodeObject config issueKey targetStatus (srv, tr)
  = Some (None, (srv, tr ++ [EvLog (InfoSkipBacklog issueKey)])).
Proof.
  unfold Spec.equalFold, UpdateStatus, ToLower.
  change (GoStrings.ToLower unicodeLower "backlog") with "backlog"%string.
  intros ->. reflexivity.
Qed.

End Facts.

(** C1: a POST with the seven-byte body [payload] against a server that
    answers 429 first.  The first attempt carries the body, the retry
    carries none, although the request still announces seven bytes. *)
Theorem retryOnRateLimit_retry_loses_body :
  exists out srv tr,
    retryOnRateLimit nat Sample.rateLimitedOnce Sample.postIssue (0%nat, [])
      = Some (out, (srv, tr)) /\
    map wBody (Spec.sends tr) = ["payload"%string; EmptyString] /\
    ContentLength (fst out) = 7.
Proof.
  eexists _, _, _. split; [lazy; reflexivity|]. split; reflexivity.
Qed.

Lemma UpdateStatus_backlog_is_local_witness :
  Spec.equalFold Sample.lower "BackLog" "backlog" = true /\
  UpdateStatus nat Sample.rateLimitedOnce Sample.lower (fun _ => true)
    (fun a b => a +:+ ":" +:+ b) (fun _ => EmptyString) (fun _ => None)
    Sample.apiConfig "PRJ-1" "BackLog" (0%nat, [])
  = Some (None, (0%nat, [EvLog (InfoSkipBacklog "PRJ-1")])).
Proof.
  split; [reflexivity|].
  apply (UpdateStatus_backlog_is_local nat Sample.rateLimitedOnce Sample.lower
           (fun _ => true) (fun a b => a +:+ ":" +:+ b) (fun _ => EmptyString)
           (fun _ => None) Sample.apiConfig "PRJ-1" "BackLog" 0%nat []).
  reflexivity.
Defined.

End ApiFacts.

(** ** services/migration.go: one record *)

Module RecordFacts.
Import Services.

Section Facts.

Variable J : Type.
Variable ClientError : Type.
Variable createIssue : J -> CreateArgs -> J * res ClientError string.
Variable updateStoryPoints : J -> string -> Z -> J * option ClientError.
Variable updateStatus : J -> string -> string -> J * option ClientError.
Variable addComment : J -> string -> string -> J * option ClientError.
Variable unicodeLower : string -> string.
Variable TrimSpace : string -> string.
Variable scanInt : string -> Z.

Abbreviation W := (World J ClientError).
Abbreviation process :=
  (processRecord J ClientError createIssue updateStoryPoints updateStatus
     addComment unicodeLower TrimSpace scanInt).
Abbreviation argsOf := (createArgsOf unicodeLower TrimSpace).

(** What [processRecord] leaves behind: the ledger file and the folder are
    not touched; the trace grows by the [CreateIssue] call and then by
    events none of which is a [CreateIssue] or an upload; and the record
    fails exactly when that call failed. *)
Lemma processRecord_trace (record : gmap string string) (w : W) :
  exists (created : res ClientError string)
         (rest : list (Event ClientError)) (w' : W),
    process record w =
      Some (match created with
            | Ok issueKey => Ok issueKey
            | Err e => Err (ErrIssueCreate e)
            end, w') /\
    csv w' = csv w /\ folder w' = folder w /\
    trace w' = trace w ++ EvCreateIssue (argsOf record) created :: rest /\
    Spec.createCalls rest = [] /\
    Spec.failedCreates rest = 0%nat /\
    Spec.uploads rest = [].
Proof.
  unfold processRecord, CreateIssue, UpdateStoryPoints, UpdateStatus,
    AddComment, call, bind, ret, log, emit.
  destruct w as [j f d tr]. simpl.
  destruct (createIssue j _) as [j1 [issueKey|e]]; simpl.
  2:{ exists (Err e), [], (mkWorld j1 f d
                             (tr ++ [EvCreateIssue (argsOf record) (Err e)])).
      repeat split; reflexivity. }
  exists (Ok issueKey).
  repeat match goal with
         | |- context [if ?c then _ else _] => destruct c; simpl
         | |- context [updateStoryPoints ?a ?b ?c] =>
             destruct (updateStoryPoints a b c) as [? [?|]]; simpl
         | |- context [updateStatus ?a ?b ?c] =>
             destruct (updateStatus a b c) as [? [?|]]; simpl
         | |- context [addComment ?a ?b ?c] =>
             destruct (addComment a b c) as [? [?|]]; simpl
         end;
    rewrite <- ?app_assoc; simpl;
    eexists _, _; (split; [reflexivity|]); simpl;
    repeat split; reflexivity.
Qed.

(** C8: the issue type handed to [CreateIssue] is the table's answer for
    the record's Type, read without regard to case; a missing or empty Type
    and every type outside the table give [Task]. *)
Theorem processRecord_issue_type (record : gmap string string) (w : W) :
  exists (r : res (error ClientError) string) (w' : W)
         (created : res ClientError string) (rest : list (Event ClientError)),
    process record w = Some (r, w') /\
    trace w' = trace w ++ EvCreateIssue (argsOf record) created :: rest /\
    Spec.createCalls rest = [] /\
    issueType (argsOf record) =
      Spec.issueTypeSpec unicodeLower (get record "Type").
Proof.
  destruct (processRecord_trace record w)
    as (created & rest & w' & Hrun & _ & _ & Htr & Hc & _).
  eexists _, w', created, rest. split; [exact Hrun|].
  split; [exact Htr|]. split; [exact Hc|].
  simpl. unfold issueTypeOf, get, Spec.issueTypeSpec, Spec.equalFold, ToLower.
  change (GoStrings.ToLower unicodeLower "bug") with "bug"%string.
  change (GoStrings.ToLower unicodeLower "feature") with "feature"%string.
  change (GoStrings.ToLower unicodeLower "story") with "story"%string.
  change (GoStrings.ToLower unicodeLower "chore") with "chore"%string.
  change (GoStrings.ToLower unicodeLower "epic") with "epic"%string.
  change (GoStrings.ToLower unicodeLower "release") with "release"%string.
  destruct (record !! "Type"%string) as [recType|]; simpl; [|reflexivity].
  destruct (String.eqb recType "") eqn:He; simpl; [|reflexivity].
  apply String.eqb_eq in He. subst recType. reflexivity.
Qed.

(** C9: the summary handed to [CreateIssue] is the record's id in square
    brackets, a space, and the title, with the text [No Title] standing in
    for an empty title; it is never the empty string. *)
Theorem processRecord_summary (record : gmap string string) (w : W) :
  exists (r : res (error ClientError) string) (w' : W)
         (created : res ClientError string) (rest : list (Event ClientError)),
    process record w = Some (r, w') /\
    trace w' = trace w ++ EvCreateIssue (argsOf record) created :: rest /\
    Spec.createCalls rest = [] /\
    summary (argsOf record) =
      "[" +:+ get record "JIRA Issue ID" +:+ "] " +:+
      (if String.eqb (get record "Title") "" then "No Title"
       else get record "Title") /\
    String.eqb (summary (argsOf record)) "" = false.
Proof.
  destruct (processRecord_trace record w)
    as (created & rest & w' & Hrun & _ & _ & Htr & Hc & _).
  eexists _, w', created, rest. split; [exact Hrun|].
  split; [exact Htr|]. split; [exact Hc|]. split; reflexivity.
Qed.

End Facts.

(** The examples of the specification, evaluated on the code. *)
Example issue_type_Story :
  map (fun t => issueTypeOf Sample.lower {[ "Type"%string := t ]})
    ["Story"; "STORY"; "story"; "Bug"; "FEATURE"; "Chore"; "ePiC"; "Release";
     "spike"; ""]%string
  = ["feature"; "feature"; "feature"; "Bug"; "feature"; "chore"; "Epic";
     "release"; "Task"; "Task"]%string.
Proof. vm_compute. reflexivity. Qed.

Example issue_type_absent : issueTypeOf Sample.lower ∅ = "Task"%string.
Proof. reflexivity. Qed.

Example summary_examples :
  summaryOf {[ "JIRA Issue ID"%string := "101"%string;
               "Title"%string := "Login page"%string ]}
    = "[101] Login page"%string /\
  summaryOf {[ "JIRA Issue ID"%string := "101"%string ]}
    = "[101] No Title"%string.
Proof. split; vm_compute; reflexivity. Qed.

End RecordFacts.

(** ** services/csv_processor.go: columns and rows *)

Module LedgerFacts.
Import Services.

Lemma scanHeaders3_columns (headers : list string) :
  forall i a b c,
    scanHeaders3 i headers (a, b, c) =
    (Spec.lastIndexFrom "JIRA Issue ID" i headers a,
     Spec.lastIndexFrom "JIRA Issue Key" i headers b,
     Spec.lastIndexFrom "Error" i headers c).
Proof.
  induction headers as [|h r IH]; intros i a b c; simpl; [reflexivity|].
  destruct (String.eqb h "JIRA Issue ID") eqn:E1.
  { apply String.eqb_eq in E1. subst h. simpl. apply IH. }
  destruct (String.eqb h "JIRA Issue Key") eqn:E2.
  { apply String.eqb_eq in E2. subst h. simpl. apply IH. }
  destruct (String.eqb h "Error") eqn:E3; apply IH.
Qed.

Lemma scanHeaders2_columns (headers : list string) :
  forall i a b,
    scanHeaders2 i headers (a, b) =
    (Spec.lastIndexFrom "JIRA Issue ID" i headers a,
     Spec.lastIndexFrom "JIRA Issue Key" i headers b).
Proof.
  induction headers as [|h r IH]; intros i a b; simpl; [reflexivity|].
  destruct (String.eqb h "JIRA Issue ID") eqn:E1.
  { apply String.eqb_eq in E1. subst h. simpl. apply IH. }
  destruct (String.eqb h "JIRA Issue Key") eqn:E2; apply IH.
Qed.

(** The index found is the default or a position holding the name. *)
Lemma lastIndexFrom_spec (name : string) (headers : list string) :
  forall i d,
    let r := Spec.lastIndexFrom name i headers d in
    r = d \/
    (i <= r < i + Z.of_nat (length headers) /\
     headers !! Z.to_nat (r - i) = Some name).
Proof.
  induction headers as [|h t IH]; intros i d; simpl; [by left|].
  destruct (IH (i + 1) (if String.eqb h name then i else d)) as [H|[H1 H2]].
  - destruct (String.eqb h name) eqn:E.
    + right. rewrite H. apply String.eqb_eq in E. subst h.
      split; [lia|]. by replace (i - i) with 0 by lia.
    + left. exact H.
  - right. split; [lia|].
    replace (Z.to_nat (Spec.lastIndexFrom name (i + 1) t
                         (if String.eqb h name then i else d) - i))
      with (S (Z.to_nat (Spec.lastIndexFrom name (i + 1) t
                           (if String.eqb h name then i else d) - (i + 1))))
      by lia.
    exact H2.
Qed.

Lemma column_range (name : string) (headers : list string) :
  Spec.column name headers <> -1 ->
  0 <= Spec.column name headers < Z.of_nat (length headers) /\
  headers !! Z.to_nat (Spec.column name headers) = Some name.
Proof.
  intros Hne. unfold Spec.column in *.
  destruct (lastIndexFrom_spec name headers 0 (-1)) as [H|[H1 H2]];
    [contradiction|].
  split; [lia|]. by rewrite Z.sub_0_r in H2.
Qed.

Lemma column_distinct (n1 n2 : string) (headers : list string) :
  n1 <> n2 ->
  Spec.column n1 headers <> -1 -> Spec.column n2 headers <> -1 ->
  Spec.column n1 headers <> Spec.column n2 headers.
Proof.
  intros Hn H1 H2 Heq.
  destruct (column_range _ _ H1) as [_ L1].
  destruct (column_range _ _ H2) as [_ L2].
  rewrite Heq in L1. congruence.
Qed.

(** [record[i]] after [record[j] = v]. *)
Lemma cell_insert_eq (l : list string) (i : Z) (v : string) :
  0 <= i < Z.of_nat (length l) -> cell (<[Z.to_nat i := v]> l) i = v.
Proof.
  intros H. unfold cell. rewrite nth_lookup, list_lookup_insert_eq; [done|lia].
Qed.

Lemma cell_insert_ne (l : list string) (i j : Z) (v : string) :
  0 <= i -> 0 <= j -> i <> j -> cell (<[Z.to_nat i := v]> l) j = cell l j.
Proof.
  intros Hi Hj Hne. unfold cell.
  rewrite !nth_lookup, list_lookup_insert_ne; [done|lia].
Qed.

(** A trailing empty cell changes no reading of a row: reading past the
    end already gives the empty string. *)
Lemma cell_app_empty (l : list string) (i : Z) :
  cell (l ++ [EmptyString]) i = cell l i.
Proof.
  unfold cell. rewrite !nth_lookup.
  destruct (decide (Z.to_nat i < length l)%nat) as [Hlt|Hge].
  - by rewrite lookup_app_l.
  - rewrite lookup_app_r by lia. rewrite (lookup_ge_None_2 l) by lia.
    destruct (Z.to_nat i - length l)%nat; reflexivity.
Qed.



Lemma csv_ReadAll_Some (raw records : list (list string)) :
  csv_ReadAll raw = Some records ->
  records = raw /\
  forall h t, raw = h :: t -> Forall (fun r => length r = length h) t.
Proof.
  destruct raw as [|h t]; simpl.
  - intros [= <-]. split; [done|]. intros ? ? [=].
  - destruct (forallb _ t) eqn:E; [|done]. intros [= <-]. split; [done|].
    intros h' t' [= <- <-]. apply Forall_forall. intros r Hr.
    rewrite forallb_forall in E. apply Nat.eqb_eq, E.
    by apply list_elem_of_In.
Qed.

Lemma csv_ReadAll_uniform (h : list string) (t : list (list string)) :
  Forall (fun r => length r = length h) t -> csv_ReadAll (h :: t) = Some (h :: t).
Proof.
  intros H. simpl.
  replace (forallb _ t) with true; [done|]. symmetry.
  apply forallb_forall. intros r Hr. apply Nat.eqb_eq.
  rewrite Forall_forall in H. by apply H, list_elem_of_In.
Qed.

Section Rows.

Variables idIndex keyIndex errorIndex : Z.
Variable mapping : gmap string string.
Variable errorFlags : gmap string bool.

(** With its indices in range one iteration of the loop cannot panic. *)
Lemma updateRecord_in_range (record : list string) :
  0 <= idIndex -> 0 <= keyIndex ->
  Z.max idIndex keyIndex < Z.of_nat (length record) ->
  0 <= errorIndex < Z.of_nat (length record) ->
  updateRecord idIndex keyIndex errorIndex mapping errorFlags record =
  Some (match mapping !! cell record idIndex with
        | Some jiraKey =>
            (<[Z.to_nat errorIndex :=
                 Spec.flagText errorFlags (cell record idIndex)]>
               (<[Z.to_nat keyIndex := jiraKey]> record), true)
        | None => (record, false)
        end).
Proof.
  intros Hi Hk Hmax He. unfold updateRecord, store.
  destruct (Z.of_nat (length record) <=? Z.max idIndex keyIndex) eqn:E;
    [lia|].
  destruct (mapping !! cell record idIndex) as [jiraKey|]; [|done].
  replace ((0 <=? keyIndex) && (keyIndex <? Z.of_nat (length record)))
    with true by lia.
  rewrite length_insert.
  replace ((0 <=? errorIndex) && (errorIndex <? Z.of_nat (length record)))
    with true by lia.
  reflexivity.
Qed.

Lemma updateRecords_Forall2 (rows : list (list string)) :
  forall updated rows' n,
    updateRecords idIndex keyIndex errorIndex mapping errorFlags rows updated
      = Some (rows', n) ->
    Forall2 (fun r r' => exists hit,
               updateRecord idIndex keyIndex errorIndex mapping errorFlags r
                 = Some (r', hit)) rows rows'.
Proof.
  induction rows as [|r t IH]; intros updated rows' n; simpl.
  - intros [= <- _]. constructor.
  - destruct (updateRecord _ _ _ _ _ r) as [[r' hit]|] eqn:Er; [|done].
    destruct (updateRecords _ _ _ _ _ t _) as [[t' n']|] eqn:Et; [|done].
    intros [= <- _]. constructor; [by exists hit|]. by eapply IH.
Qed.

Lemma updateRecords_total (rows : list (list string)) :
  Forall (fun r => is_Some (updateRecord idIndex keyIndex errorIndex
                              mapping errorFlags r)) rows ->
  forall updated,
    is_Some (updateRecords idIndex keyIndex errorIndex mapping errorFlags
               rows updated).
Proof.
  induction 1 as [|r t [[r' hit] Hr] _ IH]; intros updated; simpl; [done|].
  rewrite Hr. destruct (IH (if hit then updated + 1 else updated))
    as [[t' n] ->]. done.
Qed.

End Rows.

(** One row through the loop, read by header names. *)
Lemma updateRecord_rewritten (headers : list string)
    (mapping : gmap string string) (errorFlags : gmap string bool)
    (errorIndex : Z) (record record' : list string) (hit : bool) :
  Spec.column "JIRA Issue ID" headers <> -1 ->
  Spec.column "JIRA Issue Key" headers <> -1 ->
  errorIndex = Spec.errorColumn headers ->
  Z.of_nat (length headers) <= Z.of_nat (length record) ->
  errorIndex < Z.of_nat (length record) ->
  updateRecord (Spec.column "JIRA Issue ID" headers)
    (Spec.column "JIRA Issue Key" headers) errorIndex
    mapping errorFlags record = Some (record', hit) ->
  Spec.rewritten headers mapping errorFlags record record'.
Proof.
  intros Hid Hkey -> Hlen Herr.
  destruct (column_range _ _ Hid) as [Rid _].
  destruct (column_range _ _ Hkey) as [Rkey _].
  assert (Hik : Spec.column "JIRA Issue ID" headers
                <> Spec.column "JIRA Issue Key" headers)
    by (apply column_distinct; done).
  assert (He : 0 <= Spec.errorColumn headers
               /\ Spec.errorColumn headers <> Spec.column "JIRA Issue ID" headers
               /\ Spec.errorColumn headers <> Spec.column "JIRA Issue Key" headers).
  { unfold Spec.errorColumn.
    destruct (Spec.column "Error" headers =? -1) eqn:E.
    - lia.
    - assert (Hne : Spec.column "Error" headers <> -1) by lia.
      destruct (column_range _ _ Hne) as [Re _].
      split; [lia|]. split; apply column_distinct; done. }
  destruct He as (He0 & Hei & Hek).
  rewrite updateRecord_in_range by lia.
  unfold Spec.rewritten, Spec.sourceID, Spec.targetKey, Spec.errorFlag.
  destruct (mapping !! cell record _) as [jiraKey|]; intros [= <- _].
  - split; [|split].
    + rewrite !cell_insert_ne by lia. reflexivity.
    + rewrite cell_insert_ne by lia. apply cell_insert_eq. lia.
    + apply cell_insert_eq. rewrite length_insert. lia.
  - done.
Qed.

Lemma Forall2_map_left {A B C} (f : A -> B) (P : B -> C -> Prop)
    (l : list A) :
  forall k, Forall2 P (map f l) k -> Forall2 (fun x => P (f x)) l k.
Proof.
  induction l as [|x t IH]; intros k H; inversion H; subst; constructor; auto.
Qed.

(** The whole loop: no panic, and every row rewritten as specified. *)
Lemma updateRecords_rewritten (headers : list string)
    (mapping : gmap string string) (errorFlags : gmap string bool)
    (errorIndex : Z) (rows : list (list string)) :
  Spec.column "JIRA Issue ID" headers <> -1 ->
  Spec.column "JIRA Issue Key" headers <> -1 ->
  errorIndex = Spec.errorColumn headers ->
  Forall (fun r => Z.of_nat (length headers) <= Z.of_nat (length r)
                   /\ errorIndex < Z.of_nat (length r)) rows ->
  forall updated, exists rows' n,
    updateRecords (Spec.column "JIRA Issue ID" headers)
      (Spec.column "JIRA Issue Key" headers) errorIndex
      mapping errorFlags rows updated = Some (rows', n) /\
    Forall2 (Spec.rewritten headers mapping errorFlags) rows rows'.
Proof.
  intros Hid Hkey He.
  destruct (column_range _ _ Hid) as [Rid _].
  destruct (column_range _ _ Hkey) as [Rkey _].
  assert (He0 : 0 <= errorIndex).
  { subst errorIndex. unfold Spec.errorColumn.
    destruct (Spec.column "Error" headers =? -1) eqn:E; [lia|].
    assert (Hx : Spec.column "Error" headers <> -1) by lia.
    destruct (column_range _ _ Hx). lia. }
  induction 1 as [|r t [H1 H2] _ IH]; intros updated; simpl.
  - exists [], updated. split; [done|constructor].
  - destruct (updateRecord (Spec.column "JIRA Issue ID" headers)
                (Spec.column "JIRA Issue Key" headers) errorIndex
                mapping errorFlags r) as [[r' hit]|] eqn:Er.
    2:{ rewrite updateRecord_in_range in Er by lia. done. }
    destruct (IH (if hit then updated + 1 else updated))
      as (t' & n & -> & Ht).
    exists (r' :: t'), n. split; [done|]. constructor; [|exact Ht].
    eapply updateRecord_rewritten; eauto.
Qed.

End LedgerFacts.

(** ** The phases *)

Module PhaseFacts.
Import Services LedgerFacts.

(** Unfold the effect layer of a phase down to its case analysis. *)
Ltac eff_open :=
  unfold bind, ret, crash, log, emit, getFile, putFile, getFolder; simpl.

(** A ledger [headers :: r0 :: rt] passes the length test; name the three
    column indices the header loop computes. *)
Ltac scan_headers headers r0 rt :=
  change ((length (headers :: r0 :: rt) <? 2)%nat) with false; cbv iota;
  change (hd [] (headers :: r0 :: rt)) with headers;
  try change (tl (headers :: r0 :: rt)) with (r0 :: rt);
  rewrite scanHeaders3_columns;
  fold (Spec.column "JIRA Issue ID" headers)
       (Spec.column "JIRA Issue Key" headers)
       (Spec.column "Error" headers).

Section Facts.

Variable J : Type.
Variable ClientError : Type.
Variable createIssue : J -> CreateArgs -> J * res ClientError string.
Variable updateStoryPoints : J -> string -> Z -> J * option ClientError.
Variable updateStatus : J -> string -> string -> J * option ClientError.
Variable addComment : J -> string -> string -> J * option ClientError.
Variable uploadAttachment :
  J -> string -> list string -> J * option ClientError.
Variable unicodeLower : string -> string.
Variable TrimSpace : string -> string.
Variable scanInt : string -> Z.
Variable config : Config.

Abbreviation W := (World J ClientError).
Abbreviation updateKeys := (UpdateJiraKeysWithErrorFlags J ClientError).
Abbreviation readCSV := (ReadCSV J ClientError).
Abbreviation loadMapping := (LoadIssueMapping J ClientError).
Abbreviation process :=
  (processRecord J ClientError createIssue updateStoryPoints updateStatus
     addComment unicodeLower TrimSpace scanInt).
Abbreviation argsOf := (createArgsOf unicodeLower TrimSpace).
Abbreviation work :=
  (worker J ClientError createIssue updateStoryPoints updateStatus
     addComment unicodeLower TrimSpace scanInt).
Abbreviation workers :=
  (runWorkers J ClientError createIssue updateStoryPoints updateStatus
     addComment unicodeLower TrimSpace scanInt).
Abbreviation import :=
  (ImportIssues J ClientError createIssue updateStoryPoints updateStatus
     addComment unicodeLower TrimSpace scanInt config).
Abbreviation upload :=
  (UploadAttachments J ClientError uploadAttachment config).

(** The rows a run needs in front of it to be able to rewrite the ledger. *)
Lemma rewritten_app_empty (headers : list string)
    (mapping : gmap string string) (errorFlags : gmap string bool)
    (row row' : list string) :
  Spec.rewritten headers mapping errorFlags (row ++ [EmptyString]) row' ->
  Spec.rewritten headers mapping errorFlags row row'.
Proof.
  unfold Spec.rewritten, Spec.sourceID, Spec.targetKey, Spec.errorFlag.
  by rewrite !cell_app_empty.
Qed.

(** [UpdateJiraKeysWithErrorFlags] on a ledger with uniform rows, at least
    one data row and the two key columns: it does not panic, and fails only
    when the file cannot be created. *)
Lemma updateKeys_run (mapping : gmap string string)
    (errorFlags : gmap string bool) (w : W)
    (headers : list string) (rows : list (list string)) :
  content (csv w) = Some (headers :: rows) ->
  Forall (fun r => length r = length headers) rows ->
  rows <> [] ->
  Spec.column "JIRA Issue ID" headers <> -1 ->
  Spec.column "JIRA Issue Key" headers <> -1 ->
  exists rows' updated,
    Forall2 (Spec.rewritten headers mapping errorFlags) rows rows' /\
    updateKeys mapping errorFlags w =
    Some (if writable (csv w) then
            (None,
             mkWorld (jira w) (mkFile (Some (headers :: rows')) true)
               (folder w)
               (trace w ++ [EvLog InfoUpdatingKeys;
                            EvLog (InfoKeysUpdated updated
                                     (Z.of_nat (length rows)))]))
          else
            (Some ErrCSVCreate,
             mkWorld (jira w) (csv w) (folder w)
               (trace w ++ [EvLog InfoUpdatingKeys]))).
Proof.
  intros Hc Hu Hne Hid Hkey.
  destruct (column_range _ _ Hid) as [Rid _].
  destruct (column_range _ _ Hkey) as [Rkey _].
  unfold UpdateJiraKeysWithErrorFlags. eff_open.
  rewrite Hc, (csv_ReadAll_uniform _ _ Hu).
  destruct rows as [|r0 rt]; [done|]. scan_headers headers r0 rt.
  replace ((Spec.column "JIRA Issue ID" headers =? -1)
           || (Spec.column "JIRA Issue Key" headers =? -1)) with false by lia.
  set (rows := r0 :: rt) in *.
  assert (Hlen : Z.of_nat (S (S (length rt))) - 1 = Z.of_nat (S (length rt)))
    by lia.
  destruct (Spec.column "Error" headers =? -1) eqn:Eerr.
  - destruct (updateRecords_rewritten headers mapping errorFlags
                (Z.of_nat (length (headers ++ ["Error"%string])) - 1)
                (map (fun r => r ++ [EmptyString]) rows) Hid Hkey)
      with (updated := 0) as (rows' & n & -> & Hrw).
    { unfold Spec.errorColumn. rewrite Eerr, length_app. simpl. lia. }
    { apply Forall_map. eapply Forall_impl; [exact Hu|]. intros r Hr. simpl.
      rewrite !length_app, Hr. simpl. lia. }
    exists rows', n. split.
    + apply Forall2_map_left in Hrw. eapply Forall2_impl; [exact Hrw|].
      intros r r'. apply rewritten_app_empty.
    + destruct (writable (csv w)); simpl; rewrite <- ?app_assoc; simpl;
        [|reflexivity].
      rewrite Hlen. reflexivity.
  - assert (Hx : Spec.column "Error" headers <> -1) by lia.
    destruct (column_range _ _ Hx) as [Re _].
    destruct (updateRecords_rewritten headers mapping errorFlags
                (Spec.column "Error" headers) rows Hid Hkey)
      with (updated := 0) as (rows' & n & -> & Hrw).
    { unfold Spec.errorColumn. by rewrite Eerr. }
    { eapply Forall_impl; [exact Hu|]. intros r Hr. simpl in *. lia. }
    exists rows', n. split; [exact Hrw|].
    destruct (writable (csv w)); simpl; rewrite <- ?app_assoc; simpl;
      [|reflexivity].
    rewrite Hlen. reflexivity.
Qed.


(** *** The workers of [ImportIssues] *)

Lemma failedCreates_app (tr1 tr2 : list (Event ClientError)) :
  Spec.failedCreates (tr1 ++ tr2)
  = (Spec.failedCreates tr1 + Spec.failedCreates tr2)%nat.
Proof. unfold Spec.failedCreates. by rewrite List.filter_app, length_app. Qed.

Lemma createCalls_app (tr1 tr2 : list (Event ClientError)) :
  Spec.createCalls (tr1 ++ tr2) = Spec.createCalls tr1 ++ Spec.createCalls tr2.
Proof. apply omap_app. Qed.

(** One worker: it books the result of its record, calls [CreateIssue]
    once, with the record's arguments, and leaves the files alone. *)
Lemma worker_run (idx : nat) (rec : gmap string string) (a : Results)
    (w : W) :
  exists (created : res ClientError string) (w' : W),
    work idx rec a w
      = Some (Spec.tally a (get rec "JIRA Issue ID", created), w') /\
    (exists evs, trace w' = trace w ++ evs) /\
    csv w' = csv w /\ folder w' = folder w /\
    Spec.createCalls (trace w')
      = Spec.createCalls (trace w) ++ [argsOf rec] /\
    Spec.failedCreates (trace w')
      = (Spec.failedCreates (trace w)
         + if Spec.failed created then 1 else 0)%nat.
Proof.
  unfold worker.
  set (pre := match rec !! "Error"%string with
              | Some errorFlag => _ | None => _ end).
  assert (Hpre : exists evs, pre w =
            Some (tt, mkWorld (jira w) (csv w) (folder w) (trace w ++ evs))
            /\ Spec.createCalls evs = [] /\ Spec.failedCreates evs = 0%nat).
  { unfold pre. destruct w as [j f d tr]. simpl.
    destruct (rec !! "Error"%string) as [flag|];
      [destruct (String.eqb flag "1")|];
      unfold log, emit, ret; simpl.
    - eexists [_]. done.
    - exists []. by rewrite app_nil_r.
    - exists []. by rewrite app_nil_r. }
  destruct Hpre as (evs & Hpre & Hc0 & Hf0).
  unfold bind at 1. rewrite Hpre.
  destruct (RecordFacts.processRecord_trace J ClientError createIssue updateStoryPoints
              updateStatus addComment unicodeLower TrimSpace scanInt rec
              (mkWorld (jira w) (csv w) (folder w) (trace w ++ evs)))
    as (created & rest & w1 & Hrun & Hcsv & Hfol & Htr & Hc1 & Hf1 & _).
  unfold bind at 1. rewrite Hrun. simpl in Hcsv, Hfol, Htr.
  exists created.
  destruct created as [issueKey|e]; unfold bind, log, emit, ret; simpl;
    eexists; (split; [reflexivity|]); simpl; rewrite Htr;
    (split; [eexists; rewrite <- !app_assoc; reflexivity|]);
    repeat split; try done;
    rewrite ?createCalls_app, ?failedCreates_app; simpl;
    rewrite ?createCalls_app, ?failedCreates_app; simpl;
    rewrite ?Hc0, ?Hc1, ?app_nil_r; try done;
    change (EvCreateIssue (argsOf rec) ?c :: rest)
      with ([EvCreateIssue (argsOf rec) c] ++ rest);
    rewrite ?failedCreates_app, ?Hf0, ?Hf1;
    unfold Spec.failedCreates; simpl; lia.
Qed.

(** All workers, in the order [sched] runs them. *)
Lemma workers_run (records : list (gmap string string)) (sched : list nat) :
  forall (a : Results) (w : W),
  exists (outs : list (string * res ClientError string)) (w' : W),
    workers records sched a w = Some (foldl Spec.tally a outs, w') /\
    (exists evs, trace w' = trace w ++ evs) /\
    map fst outs
      = map (fun r => get r "JIRA Issue ID") (omap (fun i => records !! i) sched) /\
    csv w' = csv w /\ folder w' = folder w /\
    Spec.createCalls (trace w')
      = Spec.createCalls (trace w)
        ++ map argsOf (omap (fun i => records !! i) sched) /\
    Spec.failedCreates (trace w')
      = (Spec.failedCreates (trace w) + Spec.countFailed outs)%nat.
Proof.
  induction sched as [|idx sched IH]; intros a w.
  - exists [], w. simpl. rewrite app_nil_r.
    split; [done|]. split; [by exists []; rewrite app_nil_r|].
    repeat split; done.
  - unfold runWorkers. simpl. fold (workers records sched).
    destruct (records !! idx) as [rec|] eqn:Hrec.
    + destruct (worker_run idx rec a w)
        as (created & w1 & Hrun & [evs1 Hev1] & Hcsv & Hfol & Hc & Hf).
      unfold bind. rewrite Hrun.
      destruct (IH (Spec.tally a (get rec "JIRA Issue ID", created)) w1)
        as (outs & w' & Hrun' & [evs2 Hev2] & Hids & Hcsv' & Hfol' & Hc' & Hf').
      exists ((get rec "JIRA Issue ID", created) :: outs), w'.
      split; [exact Hrun'|].
      split; [exists (evs1 ++ evs2); by rewrite Hev2, Hev1, app_assoc|].
      simpl. rewrite Hids, Hcsv', Hfol', Hc', Hf', Hc, Hf.
      rewrite <- app_assoc. repeat split; try done.
      unfold Spec.countFailed. rewrite filter_cons. simpl.
      destruct (Spec.failed created); simpl; [|lia].
      destruct (decide (true = true)); [simpl; lia|done].
    + unfold bind, ret. simpl. apply IH.
Qed.




(** C10: a CSV file with fewer than two records makes [ReadCSV] fail, and
    with it the Import phase, before any issue is created; the same file
    makes [LoadIssueMapping] fail, and with it the upload phase. *)
Theorem short_csv_is_an_error (w : W) (raw : list (list string))
    (sched : list nat) :
  content (csv w) = Some raw ->
  (length raw < 2)%nat ->
  readCSV w = Some (Err ErrCSVShort, w) /\
  import sched w =
    Some (Some (ErrImportRead ErrCSVShort),
          mkWorld (jira w) (csv w) (folder w)
            (trace w ++ [EvLog (InfoElapsed "issue import")])) /\
  upload w =
    Some (Some (ErrLoadMapping ErrMappingShort),
          mkWorld (jira w) (csv w) (folder w)
            (trace w ++ [EvLog InfoLoadingMapping;
                         EvLog (InfoElapsed "attachment upload")])).
Proof.
  intros Hc Hlen. destruct w as [j f d tr]. simpl in *.
  assert (Hread : csv_ReadAll raw = Some raw).
  { destruct raw as [|h [|? ?]]; simpl in *; [done|done|lia]. }
  assert (Hshort : (length raw <? 2)%nat = true) by (apply Nat.ltb_lt; lia).
  unfold ReadCSV, ImportIssues, UploadAttachments, LoadIssueMapping, ReadCSV.
  eff_open. rewrite Hc, Hread, Hshort. simpl. rewrite <- app_assoc. done.
Qed.

(** *** The Import phase *)

Lemma readCSV_run (w : W) (headers : list string) (rows : list (list string)) :
  content (csv w) = Some (headers :: rows) ->
  Forall (fun r => length r = length headers) rows ->
  rows <> [] ->
  readCSV w = Some (Ok (map (rowData headers) rows), w).
Proof.
  intros Hc Hu Hne. unfold ReadCSV. eff_open.
  rewrite Hc, (csv_ReadAll_uniform _ _ Hu).
  destruct rows as [|r0 rt]; [done|]. reflexivity.
Qed.

(** Running through the indices of a list in their order gives the list. *)
Lemma omap_lookup_seq {A} (l : list A) :
  forall pre : list A,
    omap (fun i => (pre ++ l) !! i) (seq (length pre) (length l)) = l.
Proof.
  induction l as [|x l IH]; intros pre; simpl; [done|].
  rewrite list_lookup_middle by done. f_equal.
  specialize (IH (pre ++ [x])).
  rewrite length_app, <- app_assoc in IH. simpl in IH.
  by replace (S (length pre)) with (length pre + 1)%nat by lia.
Qed.

Lemma omap_lookup_Permutation {A} (l : list A) (sched : list nat) :
  sched ≡ₚ seq 0 (length l) -> omap (fun i => l !! i) sched ≡ₚ l.
Proof.
  intros ->. pose proof (omap_lookup_seq l []) as H. simpl in H.
  by rewrite H.
Qed.

(** After a successful [ReadCSV] the rewrite of the ledger returns. *)
Lemma updateKeys_returns (mapping : gmap string string)
    (errorFlags : gmap string bool) (w : W)
    (headers : list string) (rows : list (list string)) :
  content (csv w) = Some (headers :: rows) ->
  Forall (fun r => length r = length headers) rows ->
  rows <> [] ->
  exists (e : option (error ClientError)) (w' : W),
    updateKeys mapping errorFlags w = Some (e, w') /\
    Spec.createCalls (trace w') = Spec.createCalls (trace w).
Proof.
  intros Hc Hu Hne.
  destruct (decide (Spec.column "JIRA Issue ID" headers <> -1
                    /\ Spec.column "JIRA Issue Key" headers <> -1))
    as [[Hid Hkey]|Hno].
  - destruct (updateKeys_run mapping errorFlags w headers rows Hc Hu Hne
                Hid Hkey) as (rows' & n & _ & ->).
    destruct (writable (csv w)); eexists _, _; (split; [reflexivity|]);
      simpl; rewrite createCalls_app; simpl; by rewrite app_nil_r.
  - unfold UpdateJiraKeysWithErrorFlags. eff_open.
    rewrite Hc, (csv_ReadAll_uniform _ _ Hu).
    destruct rows as [|r0 rt]; [done|]. scan_headers headers r0 rt.
    replace ((Spec.column "JIRA Issue ID" headers =? -1)
             || (Spec.column "JIRA Issue Key" headers =? -1)) with true by lia.
    eexists _, _. split; [reflexivity|]. simpl.
    rewrite createCalls_app. simpl. by rewrite app_nil_r.
Qed.

(** [ImportIssues] in three steps: read, run the workers, rewrite. *)
Lemma import_steps (w w2 w3 : W) (records : list (gmap string string))
    (sched : list nat) (a : Results) (e : option (error ClientError)) :
  readCSV w = Some (Ok records, w) ->
  1 <= MaxConcurrent config ->
  workers records sched (mkResults ∅ ∅ 0)
    (Spec.after w [EvLog (InfoImportStart (Z.of_nat (length records)))])
    = Some (a, w2) ->
  updateKeys (resultMapping a) (errorFlags a) w2 = Some (e, w3) ->
  import sched w =
  Some (match e with
        | Some e =>
            (Some (ErrImportUpdate e),
             Spec.after w3 [EvLog (InfoElapsed "issue import")])
        | None =>
            (None,
             Spec.after w3
               [EvLog (InfoImportDone
                         (Z.of_nat (size (resultMapping a)) - errorCount a)
                         (errorCount a));
                EvLog (InfoElapsed "issue import")])
        end).
Proof.
  intros Hread Hmax Hwork Hupd.
  unfold ImportIssues. unfold bind at 1. rewrite Hread.
  unfold bind at 1. unfold bind at 1. unfold log at 1, emit at 1.
  replace (MaxConcurrent config <? 0) with false by lia.
  replace (MaxConcurrent config =? 0) with false by lia. simpl.
  fold (workers records sched). unfold bind at 1.
  unfold Spec.after in Hwork. rewrite Hwork.
  unfold bind at 1. rewrite Hupd.
  destruct e as [e|]; unfold bind, log, emit, ret, Spec.after; simpl;
    rewrite <- ?app_assoc; reflexivity.
Qed.

(** C2, as the code has it: the Import phase hands every record of the
    ledger to [CreateIssue], once each, whatever key and error flag the
    ledger row already holds; nothing is skipped. *)
Theorem import_offers_every_record (w : W) (headers : list string)
    (rows : list (list string)) (sched : list nat) :
  content (csv w) = Some (headers :: rows) ->
  Forall (fun r => length r = length headers) rows ->
  rows <> [] ->
  1 <= MaxConcurrent config ->
  sched ≡ₚ seq 0 (length rows) ->
  exists (out : option (error ClientError)) (w' : W),
    import sched w = Some (out, w') /\
    Spec.createCalls (trace w') ≡ₚ
      Spec.createCalls (trace w)
      ++ map (fun row => argsOf (rowData headers row)) rows.
Proof.
  intros Hc Hu Hne Hmax Hperm.
  pose proof (readCSV_run w headers rows Hc Hu Hne) as Hread.
  set (records := map (rowData headers) rows) in *.
  destruct (workers_run records sched (mkResults ∅ ∅ 0)
              (Spec.after w [EvLog (InfoImportStart
                                      (Z.of_nat (length records)))]))
    as (outs & w2 & Hwork & _ & _ & Hcsv & _ & Hcalls & _).
  simpl in Hcsv, Hcalls.
  destruct (updateKeys_returns
              (resultMapping (foldl Spec.tally (mkResults ∅ ∅ 0) outs))
              (errorFlags (foldl Spec.tally (mkResults ∅ ∅ 0) outs))
              w2 headers rows) as (e & w3 & Hupd & Hcalls3); try done.
  { by rewrite Hcsv. }
  rewrite (import_steps w w2 w3 records sched _ e Hread Hmax Hwork Hupd).
  assert (Hall : Spec.createCalls (trace w3) ≡ₚ
                 Spec.createCalls (trace w)
                 ++ map (fun row => argsOf (rowData headers row)) rows).
  { rewrite Hcalls3, Hcalls, createCalls_app. simpl. rewrite app_nil_r.
    apply Permutation_app_head.
    rewrite <- (map_map (rowData headers) argsOf rows).
    apply Permutation_map. apply omap_lookup_Permutation.
    unfold records. by rewrite length_map. }
  destruct e as [e|]; eexists _, _; (split; [reflexivity|]); simpl;
    rewrite createCalls_app; simpl; by rewrite app_nil_r.
Qed.






End Facts.

(** *** The upload phase *)

(** [LoadIssueMapping] never maps an id to the text ERROR or to nothing. *)
Lemma loadRecord_no_sentinel (idIndex keyIndex : Z)
    (rows : list (list string)) :
  forall m : gmap string string,
    (forall id k, m !! id = Some k -> k <> "ERROR"%string /\ k <> EmptyString) ->
    forall id k,
      foldl (loadRecord idIndex keyIndex) m rows !! id = Some k ->
      k <> "ERROR"%string /\ k <> EmptyString.
Proof.
  induction rows as [|r t IH]; intros m Hm; simpl; [exact Hm|].
  apply IH. unfold loadRecord.
  destruct (Z.of_nat (length r) <=? Z.max idIndex keyIndex); [exact Hm|].
  destruct (negb (String.eqb (cell r idIndex) "")); simpl; [|exact Hm].
  destruct (String.eqb (cell r keyIndex) "") eqn:E1; simpl; [exact Hm|].
  destruct (String.eqb (cell r keyIndex) "ERROR") eqn:E2; simpl; [exact Hm|].
  apply String.eqb_neq in E1, E2.
  intros id k. destruct (decide (cell r idIndex = id)) as [<-|Hne].
  - rewrite lookup_insert_eq. intros [= <-]. done.
  - rewrite lookup_insert_ne by done. apply Hm.
Qed.

Section Upload.

Variable J : Type.
Variable ClientError : Type.
Variable uploadAttachment :
  J -> string -> list string -> J * option ClientError.
Variable config : Config.

Lemma LoadIssueMapping_no_sentinel (w w' : World J ClientError)
    (m : gmap string string) (id : string) :
  LoadIssueMapping J ClientError w = Some (Ok m, w') ->
  m !! id <> Some "ERROR"%string.
Proof.
  unfold LoadIssueMapping. eff_open.
  destruct (content (csv w)) as [raw|]; [|done].
  destruct (csv_ReadAll raw) as [records|]; [|done].
  destruct (length records <? 2)%nat; [done|].
  destruct (scanHeaders2 0 (hd [] records) (-1, -1)) as [idIndex keyIndex].
  destruct ((idIndex =? -1) || (keyIndex =? -1)); [done|].
  intros [= <- _] Hk.
  by destruct (loadRecord_no_sentinel idIndex keyIndex (tl records) ∅
                 ltac:(intros ? ? H; by rewrite lookup_empty in H) id _ Hk).
Qed.

(** A folder whose id has no usable key in the mapping is passed over with
    one warning; no file of it is uploaded and the counters stay. *)
Lemma uploadGroup_skips (issueMapping : gmap string string)
    (entry : DirEntry) (counts : Z * Z * Z) (w : World J ClientError) :
  IsDir entry = true ->
  issueMapping !! Name entry = None
  \/ issueMapping !! Name entry = Some "ERROR"%string ->
  uploadGroup J ClientError uploadAttachment config issueMapping entry counts w
  = Some (counts, Spec.after w [EvLog (WarnNoIssueFor (Name entry))]).
Proof.
  intros Hdir Hmap. unfold uploadGroup. rewrite Hdir. simpl.
  destruct Hmap as [-> | ->]; reflexivity.
Qed.

End Upload.

(** With an Error column already in the header the two phases fit: the
    failed story 101 is passed over with a warning. *)
Example failed_record_skipped_when_column_exists :
  exists w1 w2,
    Sample.import [0%nat]
      (Sample.world
         [Sample.jiraHeader ++ ["Error"%string];
          ["101"; "Broken login"; "reject"; ""; "bug"; "Backlog"; "0";
           ""; ""; ""; ""; ""; ""; ""]%string]
         Sample.oneAttachment) = Some (None, w1) /\
    Sample.upload w1 = Some (None, w2) /\
    Spec.uploads (trace w2) = [] /\
    Spec.logLines (trace w2) =
      Spec.logLines (trace w1)
      ++ [InfoLoadingMapping; InfoMappingLoaded 0;
          InfoUploadStart "attachments"; WarnNoIssueFor "101";
          InfoUploadDone 0 0 0; InfoElapsed "attachment upload"].
Proof.
  eexists _, _. split; [vm_compute; reflexivity|].
  split; [vm_compute; reflexivity|]. split; reflexivity.
Qed.

(** The example of the specification for the merge: prior rows
    [(id1, "", "")] and [(id2, "KEY-2", "0")], one new outcome
    [id1: Success("KEY-1")]. *)
Example merge_example_of_the_spec :
  exists w',
    UpdateJiraKeysWithErrorFlags nat string
      (Spec.mappingOf Sample.mergeOutcomes)
      (Spec.errorFlagsOf Sample.mergeOutcomes)
      (Sample.world Sample.mergeLedger NotExist) = Some (None, w') /\
    content (csv w') =
      Some [["JIRA Issue ID"; "JIRA Issue Key"; "Error"];
            ["id1"; "KEY-1"; "0"];
            ["id2"; "KEY-2"; "0"]]%string.
Proof. eexists. split; [vm_compute; reflexivity|reflexivity]. Qed.


(** C2 as stated fails: the ledger row of story 101 holds the key [PRJ-7]
    and the error flag 0 from an earlier run, and the Import phase creates
    the issue again. *)
Lemma import_recreates_succeeded_record :
  Spec.targetKey (Sample.jiraHeader ++ ["Error"%string])
    ["101"; "Login page"; "ok"; ""; "story"; "Backlog"; "0"; ""; "";
     ""; ""; ""; "PRJ-7"; "0"]%string = "PRJ-7"%string /\
  Spec.errorFlag (Sample.jiraHeader ++ ["Error"%string])
    ["101"; "Login page"; "ok"; ""; "story"; "Backlog"; "0"; ""; "";
     ""; ""; ""; "PRJ-7"; "0"]%string = "0"%string /\
  exists w',
    Sample.import [0%nat] (Sample.world Sample.doneLedger NotExist)
      = Some (None, w') /\
    Spec.createCalls (trace w')
      = [mkCreateArgs "[101] Login page" "ok" [] "feature" "" ""].
Proof.
  split; [reflexivity|]. split; [reflexivity|].
  eexists. split; [vm_compute; reflexivity|reflexivity].
Qed.

Lemma import_offers_every_record_witness :
  exists out w',
    Sample.import [0%nat] (Sample.world Sample.doneLedger NotExist)
      = Some (out, w') /\
    Spec.createCalls (trace w') ≡ₚ
      [mkCreateArgs "[101] Login page" "ok" [] "feature" "" ""].
Proof.
  destruct (import_offers_every_record nat string Sample.createIssue
              Sample.updateStoryPoints Sample.updateStatus Sample.addComment
              Sample.lower Sample.trimSpace Sample.scanInt Sample.config
              (Sample.world Sample.doneLedger NotExist)
              (Sample.jiraHeader ++ ["Error"%string])
              [["101"; "Login page"; "ok"; ""; "story"; "Backlog"; "0"; "";
                ""; ""; ""; ""; "PRJ-7"; "0"]%string] [0%nat])
    as (out & w' & Hrun & Hcalls).
  - reflexivity.
  - repeat constructor.
  - discriminate.
  - vm_compute. discriminate.
  - reflexivity.
  - exists out, w'. split; [exact Hrun|exact Hcalls].
Defined.


Lemma short_csv_is_an_error_witness :
  Sample.import [] (Sample.world [Sample.jiraHeader] NotExist) =
    Some (Some (ErrImportRead ErrCSVShort),
          mkWorld 0%nat (mkFile (Some [Sample.jiraHeader]) true) NotExist
            [EvLog (InfoElapsed "issue import")]) /\
  Sample.upload (Sample.world [Sample.jiraHeader] NotExist) =
    Some (Some (ErrLoadMapping ErrMappingShort),
          mkWorld 0%nat (mkFile (Some [Sample.jiraHeader]) true) NotExist
            [EvLog InfoLoadingMapping;
             EvLog (InfoElapsed "attachment upload")]).
Proof.
  destruct (short_csv_is_an_error nat string Sample.createIssue
              Sample.updateStoryPoints Sample.updateStatus Sample.addComment
              Sample.uploadAttachment Sample.lower Sample.trimSpace
              Sample.scanInt Sample.config
              (Sample.world [Sample.jiraHeader] NotExist)
              [Sample.jiraHeader] [])
    as (_ & Himp & Hupl).
  - reflexivity.
  - simpl. lia.
  - split; [exact Himp|exact Hupl].
Defined.

(** C4 at a ledger as the Convert phase writes it (no Error column), story
    101 with one attachment, JIRA refusing the issue.  The row gets the key
    ERROR and the flag 1, but the header row stays as it was, one field
    shorter than the rows; [LoadIssueMapping] cannot read that file, so the
    upload phase ends with an error: nothing is uploaded, and no warning
    about the folder of story 101 is logged. *)
Theorem failed_record_stops_upload_phase :
  exists w1 w2,
    Sample.import [0%nat] (Sample.world Sample.freshLedger Sample.oneAttachment)
      = Some (None, w1) /\
    content (csv w1) =
      Some [Sample.jiraHeader;
            ["101"; "Broken login"; "reject"; ""; "bug"; "Backlog"; "0";
             ""; ""; ""; ""; ""; "ERROR"; "1"]%string] /\
    Sample.upload w1 = Some (Some (ErrLoadMapping ErrMappingRead), w2) /\
    trace w2 = trace w1 ++ [EvLog InfoLoadingMapping;
                            EvLog (InfoElapsed "attachment upload")] /\
    Spec.uploads (trace w2) = [] /\
    WarnNoIssueFor "101" ∉ Spec.logLines (trace w2).
Proof.
  eexists _, _. split; [vm_compute; reflexivity|].
  split; [reflexivity|]. split; [vm_compute; reflexivity|].
  split; [reflexivity|]. split; [reflexivity|].
  simpl. intros Hin.
  repeat (apply elem_of_cons in Hin as [Hin|Hin]; [discriminate|]).
  by apply elem_of_nil in Hin.
Qed.

End PhaseFacts.

(** ** More on the rewrite of the ledger *)

Module RewriteFacts.
Import Services LedgerFacts PhaseFacts.

Section Facts.

Variable J : Type.
Variable ClientError : Type.

Abbreviation W := (World J ClientError).
Abbreviation updateKeys := (UpdateJiraKeysWithErrorFlags J ClientError).

Lemma updateRecord_length (idIndex keyIndex errorIndex : Z)
    (mapping : gmap string string) (errorFlags : gmap string bool)
    (record record' : list string) (hit : bool) :
  updateRecord idIndex keyIndex errorIndex mapping errorFlags record
    = Some (record', hit) ->
  length record' = length record.
Proof.
  unfold updateRecord, store. intros Hrun.
  repeat case_match; simplify_eq; rewrite ?length_insert; done.
Qed.

Lemma updateRecords_lengths (idIndex keyIndex errorIndex : Z)
    (mapping : gmap string string) (errorFlags : gmap string bool)
    (rows : list (list string)) :
  forall updated rows' n,
    updateRecords idIndex keyIndex errorIndex mapping errorFlags rows updated
      = Some (rows', n) ->
    Forall2 (fun r r' => length r' = length r) rows rows'.
Proof.
  intros updated rows' n Hrun. apply updateRecords_Forall2 in Hrun.
  eapply Forall2_impl; [exact Hrun|]. intros r r' [hit Hr].
  by eapply updateRecord_length.
Qed.


Lemma updateKeys_total (mapping : gmap string string)
    (errorFlags : gmap string bool) (w : W) :
  exists (r : option (error ClientError)) (w' : W),
    updateKeys mapping errorFlags w = Some (r, w').
Proof.
  destruct (content (csv w)) as [raw|] eqn:Hc.
  2:{ unfold UpdateJiraKeysWithErrorFlags. eff_open. rewrite Hc. eauto. }
  destruct (csv_ReadAll raw) as [records|] eqn:Hr.
  2:{ unfold UpdateJiraKeysWithErrorFlags. eff_open. rewrite Hc, Hr. eauto. }
  destruct (csv_ReadAll_Some _ _ Hr) as [-> Hu].
  destruct raw as [|headers [|r0 rt]].
  - unfold UpdateJiraKeysWithErrorFlags. eff_open. rewrite Hc, Hr. eauto.
  - unfold UpdateJiraKeysWithErrorFlags. eff_open. rewrite Hc, Hr. eauto.
  - destruct (updateKeys_returns J ClientError mapping errorFlags w headers
                (r0 :: rt) Hc (Hu _ _ eq_refl)) as (e & w' & Hrun & _);
      [done|]. eauto.
Qed.

(** X2: [UpdateJiraKeysWithErrorFlags] never runs into an index out of
    range, whatever the ledger file holds and whatever the maps hold: it
    always returns. *)
Theorem updateKeys_never_panics (mapping : gmap string string)
    (errorFlags : gmap string bool) (w : W) :
  exists (r : option (error ClientError)) (w' : W),
    updateKeys mapping errorFlags w = Some (r, w').
Proof. apply updateKeys_total. Qed.

(** The shape of a successful rewrite. *)
Lemma updateKeys_success_shape (mapping : gmap string string)
    (errorFlags : gmap string bool) (w w' : W)
    (headers : list string) (rows : list (list string)) :
  content (csv w) = Some (headers :: rows) ->
  updateKeys mapping errorFlags w = Some (None, w') ->
  exists rows',
    csv w' = mkFile (Some (headers :: rows')) true /\
    Forall (fun r => length r = length headers) rows /\ rows <> [] /\
    Forall2 (fun r r' =>
               length r' = if Spec.column "Error" headers =? -1
                           then S (length r) else length r) rows rows'.
Proof.
  intros Hc. unfold UpdateJiraKeysWithErrorFlags. eff_open. rewrite Hc.
  destruct (csv_ReadAll (headers :: rows)) as [records|] eqn:Hr; [|done].
  apply csv_ReadAll_Some in Hr as [-> Hu]. specialize (Hu _ _ eq_refl).
  destruct rows as [|r0 rt]; [done|]. scan_headers headers r0 rt.
  destruct ((Spec.column "JIRA Issue ID" headers =? -1)
            || (Spec.column "JIRA Issue Key" headers =? -1)); [done|].
  destruct (Spec.column "Error" headers =? -1) eqn:Eerr.
  - destruct (updateRecords _ _ _ _ _ _ _) as [[rows' n]|] eqn:Hupd; [|done].
    destruct (writable (csv w)); [|done]. intros [= <-]. simpl.
    exists rows'. repeat split; try done.
    apply updateRecords_lengths in Hupd.
    apply Forall2_map_left in Hupd. eapply Forall2_impl; [exact Hupd|].
    intros r r' ->. rewrite length_app. simpl. lia.
  - destruct (updateRecords _ _ _ _ _ _ _) as [[rows' n]|] eqn:Hupd; [|done].
    destruct (writable (csv w)); [|done]. intros [= <-]. simpl.
    exists rows'. repeat split; try done.
    by apply updateRecords_lengths in Hupd.
Qed.

(** X3: on a ledger that has an Error column a successful rewrite keeps
    the header row and the length of every row, so the file can be read
    again. *)
Theorem rewrite_keeps_ledger_readable (mapping : gmap string string)
    (errorFlags : gmap string bool) (w w' : W)
    (headers : list string) (rows : list (list string)) :
  content (csv w) = Some (headers :: rows) ->
  Spec.column "Error" headers <> -1 ->
  updateKeys mapping errorFlags w = Some (None, w') ->
  exists rows',
    content (csv w') = Some (headers :: rows') /\
    Forall2 (fun r r' => length r' = length r) rows rows' /\
    csv_ReadAll (headers :: rows') = Some (headers :: rows').
Proof.
  intros Hc Herr Hrun.
  destruct (updateKeys_success_shape _ _ _ _ _ _ Hc Hrun)
    as (rows' & Hcsv & Hu & _ & Hlen).
  replace (Spec.column "Error" headers =? -1) with false in Hlen by lia.
  exists rows'. rewrite Hcsv. split; [done|]. split; [exact Hlen|].
  apply csv_ReadAll_uniform.
  clear -Hu Hlen. induction Hlen as [|r r' rows rows' Hr _ IH]; [done|].
  inversion Hu; subst. constructor; [congruence|by apply IH].
Qed.

(** X4: on a ledger without an Error column a successful rewrite gives
    every data row one more field than the header row has; no reader of
    the package accepts that file any more. *)
Theorem rewrite_without_error_column_breaks_ledger
    (mapping : gmap string string) (errorFlags : gmap string bool)
    (w w' : W) (headers : list string) (rows : list (list string)) :
  content (csv w) = Some (headers :: rows) ->
  Spec.column "Error" headers = -1 ->
  updateKeys mapping errorFlags w = Some (None, w') ->
  exists rows',
    content (csv w') = Some (headers :: rows') /\
    Forall (fun r' => length r' = S (length headers)) rows' /\
    ReadCSV J ClientError w' = Some (Err ErrCSVRead, w') /\
    LoadIssueMapping J ClientError w'
      = Some (Err ErrMappingRead, Spec.after w' [EvLog InfoLoadingMapping]) /\
    forall mapping2 errorFlags2,
      updateKeys mapping2 errorFlags2 w'
      = Some (Some ErrCSVRead, Spec.after w' [EvLog InfoUpdatingKeys]).
Proof.
  intros Hc Herr Hrun.
  destruct (updateKeys_success_shape _ _ _ _ _ _ Hc Hrun)
    as (rows' & Hcsv & Hu & Hne & Hlen).
  rewrite Herr in Hlen. simpl in Hlen.
  assert (Hall : Forall (fun r' => length r' = S (length headers)) rows').
  { clear -Hu Hlen. induction Hlen as [|r r' rows rows' Hr _ IH]; [done|].
    inversion Hu; subst. constructor; [congruence|by apply IH]. }
  assert (Hbad : csv_ReadAll (headers :: rows') = None).
  { destruct rows' as [|r' t']; [by inversion Hlen; subst|].
    inversion Hall as [|? ? Hr' _]; subst. simpl.
    replace (length r' =? length headers)%nat with false; [done|].
    symmetry. apply Nat.eqb_neq. lia. }
  exists rows'. rewrite Hcsv. split; [done|]. split; [exact Hall|].
  unfold ReadCSV, LoadIssueMapping, UpdateJiraKeysWithErrorFlags, Spec.after.
  eff_open. rewrite Hcsv. cbn [content]. rewrite Hbad.
  repeat split; done.
Qed.

End Facts.


Lemma rewrite_keeps_ledger_readable_witness :
  exists rows',
    content (csv Sample2.mergeRewritten)
      = Some (["JIRA Issue ID"; "JIRA Issue Key"; "Error"]%string :: rows') /\
    csv_ReadAll (["JIRA Issue ID"; "JIRA Issue Key"; "Error"]%string :: rows')
      = Some (["JIRA Issue ID"; "JIRA Issue Key"; "Error"]%string :: rows').
Proof.
  destruct (rewrite_keeps_ledger_readable nat string
              (Spec.mappingOf Sample.mergeOutcomes)
              (Spec.errorFlagsOf Sample.mergeOutcomes)
              Sample2.mergeWorld Sample2.mergeRewritten
              ["JIRA Issue ID"; "JIRA Issue Key"; "Error"]%string
              [["id1"; ""; ""]; ["id2"; "KEY-2"; "0"]]%string)
    as (rows' & Hc & _ & Hr).
  - reflexivity.
  - vm_compute. discriminate.
  - vm_compute. reflexivity.
  - exists rows'. split; [exact Hc|exact Hr].
Defined.

Lemma rewrite_without_error_column_breaks_ledger_witness :
  ReadCSV nat string Sample2.freshRewritten
    = Some (Err ErrCSVRead, Sample2.freshRewritten) /\
  LoadIssueMapping nat string Sample2.freshRewritten
    = Some (Err ErrMappingRead,
            Spec.after Sample2.freshRewritten [EvLog InfoLoadingMapping]).
Proof.
  destruct (rewrite_without_error_column_breaks_ledger nat string
              Sample2.refusedKeys Sample2.refusedFlags
              Sample2.freshWorld Sample2.freshRewritten Sample.jiraHeader
              [["101"; "Broken login"; "reject"; ""; "bug"; "Backlog"; "0";
                ""; ""; ""; ""; ""; ""]%string])
    as (rows' & _ & _ & Hread & Hload & _).
  - reflexivity.
  - vm_compute. reflexivity.
  - vm_compute. reflexivity.
  - split; [exact Hread|exact Hload].
Defined.

End RewriteFacts.

(** ** More on the Import phase *)

Module ImportFacts.
Import Services LedgerFacts PhaseFacts.

Section Facts.

Variable J : Type.
Variable ClientError : Type.
Variable createIssue : J -> CreateArgs -> J * res ClientError string.
Variable updateStoryPoints : J -> string -> Z -> J * option ClientError.
Variable updateStatus : J -> string -> string -> J * option ClientError.
Variable addComment : J -> string -> string -> J * option ClientError.
Variable unicodeLower : string -> string.
Variable TrimSpace : string -> string.
Variable scanInt : string -> Z.
Variable config : Config.

Abbreviation W := (World J ClientError).
Abbreviation updateKeys := (UpdateJiraKeysWithErrorFlags J ClientError).
Abbreviation readCSV := (ReadCSV J ClientError).
Abbreviation argsOf := (createArgsOf unicodeLower TrimSpace).
Abbreviation workers :=
  (runWorkers J ClientError createIssue updateStoryPoints updateStatus
     addComment unicodeLower TrimSpace scanInt).
Abbreviation import :=
  (ImportIssues J ClientError createIssue updateStoryPoints updateStatus
     addComment unicodeLower TrimSpace scanInt config).

(** [ReadCSV] changes nothing, and what it returns has at least one record. *)
Lemma readCSV_pure (w : W) :
  exists r, readCSV w = Some (r, w) /\
            forall records, r = Ok records -> records <> [].
Proof.
  unfold ReadCSV. eff_open.
  destruct (content (csv w)) as [raw|]; [|eexists; split; [done|done]].
  destruct (csv_ReadAll raw) as [records|]; [|eexists; split; [done|done]].
  destruct records as [|h [|r0 rt]]; simpl;
    eexists; (split; [reflexivity|]); intros ? [=]; by subst.
Qed.

Lemma updateKeys_missing_columns (mapping : gmap string string)
    (errorFlags : gmap string bool) (w : W)
    (headers : list string) (rows : list (list string)) :
  content (csv w) = Some (headers :: rows) ->
  Forall (fun r => length r = length headers) rows ->
  rows <> [] ->
  Spec.column "JIRA Issue ID" headers = -1
  \/ Spec.column "JIRA Issue Key" headers = -1 ->
  updateKeys mapping errorFlags w
  = Some (Some ErrUpdateColumns, Spec.after w [EvLog InfoUpdatingKeys]).
Proof.
  intros Hc Hu Hne Hmiss. unfold UpdateJiraKeysWithErrorFlags. eff_open.
  rewrite Hc, (csv_ReadAll_uniform _ _ Hu).
  destruct rows as [|r0 rt]; [done|]. scan_headers headers r0 rt.
  replace ((Spec.column "JIRA Issue ID" headers =? -1)
           || (Spec.column "JIRA Issue Key" headers =? -1)) with true by lia.
  reflexivity.
Qed.

(** X5: a ledger that lacks the id or the key column is noticed only after
    the workers have run: every record has had its [CreateIssue] call, the
    phase then fails, and the ledger file keeps no trace of the run. *)
Theorem import_without_key_columns (w : W) (headers : list string)
    (rows : list (list string)) (sched : list nat) :
  content (csv w) = Some (headers :: rows) ->
  Forall (fun r => length r = length headers) rows ->
  rows <> [] ->
  Spec.column "JIRA Issue ID" headers = -1
  \/ Spec.column "JIRA Issue Key" headers = -1 ->
  1 <= MaxConcurrent config ->
  sched ≡ₚ seq 0 (length rows) ->
  exists w' : W,
    import sched w = Some (Some (ErrImportUpdate ErrUpdateColumns), w') /\
    csv w' = csv w /\
    Spec.createCalls (trace w') ≡ₚ
      Spec.createCalls (trace w)
      ++ map (fun row => argsOf (rowData headers row)) rows.
Proof.
  intros Hc Hu Hne Hmiss Hmax Hperm.
  pose proof (readCSV_run J ClientError w headers rows Hc Hu Hne) as Hread.
  set (records := map (rowData headers) rows) in *.
  destruct (workers_run J ClientError createIssue updateStoryPoints
              updateStatus addComment unicodeLower TrimSpace scanInt
              records sched (mkResults ∅ ∅ 0)
              (Spec.after w [EvLog (InfoImportStart
                                      (Z.of_nat (length records)))]))
    as (outs & w2 & Hwork & _ & _ & Hcsv & _ & Hcalls & _).
  simpl in Hcsv, Hcalls.
  assert (Hc2 : content (csv w2) = Some (headers :: rows)) by by rewrite Hcsv.
  pose proof (updateKeys_missing_columns
                (resultMapping (foldl Spec.tally (mkResults ∅ ∅ 0) outs))
                (errorFlags (foldl Spec.tally (mkResults ∅ ∅ 0) outs))
                w2 headers rows Hc2 Hu Hne Hmiss) as Hupd.
  rewrite (import_steps J ClientError createIssue updateStoryPoints
             updateStatus addComment unicodeLower TrimSpace scanInt config
             w w2 _ records sched _ _ Hread Hmax Hwork Hupd).
  eexists. split; [reflexivity|]. simpl. split; [exact Hcsv|].
  rewrite !createCalls_app. simpl. rewrite !app_nil_r, Hcalls, createCalls_app.
  simpl. rewrite app_nil_r. apply Permutation_app_head.
  rewrite <- (map_map (rowData headers) argsOf rows).
  apply Permutation_map, omap_lookup_Permutation.
  unfold records. by rewrite length_map.
Qed.

(** X6: [ImportIssues] ends the process, by the panic of a negative channel
    size or by the deadlock of a channel of size zero, exactly when
    [MaxConcurrent] is below one and the ledger can be read; in every other
    case it returns, for every order of the workers. *)
Theorem import_crashes_iff (w : W) (sched : list nat) :
  import sched w = None <->
  MaxConcurrent config < 1 /\
  exists records, readCSV w = Some (Ok records, w).
Proof.
  destruct (readCSV_pure w) as (r & Hread & Hne).
  destruct r as [records|e].
  - specialize (Hne records eq_refl).
    assert (Hlen : Nat.eqb (length records) 0 = false)
      by (destruct records; done).
    destruct (decide (MaxConcurrent config < 1)) as [Hlt|Hge].
    + split; [intros _; split; [done|by exists records]|intros _].
      unfold ImportIssues. unfold bind at 1. rewrite Hread.
      unfold bind at 1. unfold bind at 1. unfold log at 1, emit at 1.
      destruct (MaxConcurrent config <? 0) eqn:E1; [done|].
      replace (MaxConcurrent config =? 0) with true by lia.
      by rewrite Hlen.
    + split; [|intros [? _]; lia]. intros Hnone. exfalso.
      destruct (workers_run J ClientError createIssue updateStoryPoints
                  updateStatus addComment unicodeLower TrimSpace scanInt
                  records sched (mkResults ∅ ∅ 0)
                  (Spec.after w [EvLog (InfoImportStart
                                          (Z.of_nat (length records)))]))
        as (outs & w2 & Hwork & _).
      destruct (RewriteFacts.updateKeys_total J ClientError
                  (resultMapping (foldl Spec.tally (mkResults ∅ ∅ 0) outs))
                  (errorFlags (foldl Spec.tally (mkResults ∅ ∅ 0) outs)) w2)
        as (e & w3 & Hupd).
      rewrite (import_steps J ClientError createIssue updateStoryPoints
                 updateStatus addComment unicodeLower TrimSpace scanInt
                 config w w2 w3 records sched _ e Hread ltac:(lia) Hwork Hupd)
        in Hnone.
      by destruct e.
  - split.
    + unfold ImportIssues. unfold bind at 1. rewrite Hread. eff_open. done.
    + intros [_ [records Hr]]. rewrite Hread in Hr. done.
Qed.

End Facts.

Lemma import_without_key_columns_witness :
  exists w',
    Sample.import [0%nat] Sample2.noKeyLedger
      = Some (Some (ErrImportUpdate ErrUpdateColumns), w') /\
    csv w' = csv Sample2.noKeyLedger /\
    Spec.createCalls (trace w') ≡ₚ
      [mkCreateArgs "[] Login page" "" [] "Task" "" ""].
Proof.
  destruct (import_without_key_columns nat string Sample.createIssue
              Sample.updateStoryPoints Sample.updateStatus Sample.addComment
              Sample.lower Sample.trimSpace Sample.scanInt Sample.config
              Sample2.noKeyLedger ["Title"%string] [["Login page"%string]]
              [0%nat])
    as (w' & Hrun & Hcsv & Hcalls).
  - reflexivity.
  - repeat constructor.
  - discriminate.
  - left. vm_compute. reflexivity.
  - vm_compute. discriminate.
  - reflexivity.
  - exists w'. split; [exact Hrun|]. split; [exact Hcsv|exact Hcalls].
Defined.

End ImportFacts.

(** ** [LoadIssueMapping] *)

Module MappingFacts.
Import Services LedgerFacts PhaseFacts.

(** What the loop of [LoadIssueMapping] adds comes from a row. *)
Lemma loadRecords_sound (idIndex keyIndex : Z) (rows : list (list string)) :
  forall (m : gmap string string) (id k : string),
    foldl (loadRecord idIndex keyIndex) m rows !! id = Some k ->
    m !! id = Some k \/
    (id <> EmptyString /\ Obs.usableKey k = true /\
     exists row, row ∈ rows /\ cell row idIndex = id /\ cell row keyIndex = k).
Proof.
  induction rows as [|r t IH]; intros m id k; simpl; [by left|].
  intros H. apply IH in H as [H|(H1 & H2 & row & Hin & H3 & H4)].
  - revert H. unfold loadRecord.
    destruct (Z.of_nat (length r) <=? Z.max idIndex keyIndex); [by left|].
    destruct (String.eqb (cell r idIndex) "") eqn:E0; simpl; [by left|].
    destruct (Obs.usableKey (cell r keyIndex)) eqn:E1;
      unfold Obs.usableKey in E1; rewrite E1; [|by left].
    destruct (decide (cell r idIndex = id)) as [<-|Hne].
    + rewrite lookup_insert_eq. intros [= <-]. right.
      apply String.eqb_neq in E0. split; [done|]. split; [done|].
      exists r. split; [by left|done].
    + rewrite lookup_insert_ne by done. by left.
  - right. split; [done|]. split; [done|]. exists row. split; [by right|done].
Qed.

(** The loop touches only the ids of its rows. *)
Lemma loadRecords_other (idIndex keyIndex : Z) (rows : list (list string)) :
  forall (m : gmap string string) (id : string),
    id ∉ map (fun r => cell r idIndex) rows ->
    foldl (loadRecord idIndex keyIndex) m rows !! id = m !! id.
Proof.
  induction rows as [|r t IH]; intros m id Hid; simpl; [done|].
  simpl in Hid. rewrite IH by (intros H; apply Hid; by right).
  unfold loadRecord. repeat case_match; try done.
  rewrite lookup_insert_ne; [done|]. intros Heq. apply Hid.
  rewrite <- Heq. by left.
Qed.

(** With distinct ids every row decides the binding of its id. *)
Lemma loadRecords_complete (idIndex keyIndex : Z) (rows : list (list string)) :
  NoDup (map (fun r => cell r idIndex) rows) ->
  forall (m : gmap string string) (row : list string),
    row ∈ rows ->
    Z.max idIndex keyIndex < Z.of_nat (length row) ->
    cell row idIndex <> EmptyString ->
    foldl (loadRecord idIndex keyIndex) m rows !! cell row idIndex =
    if Obs.usableKey (cell row keyIndex) then Some (cell row keyIndex)
    else m !! cell row idIndex.
Proof.
  induction rows as [|r t IH]; intros Hnd m row Hin Hlen Hid; simpl.
  { inversion Hin. }
  simpl in Hnd. apply NoDup_cons in Hnd as [Hfresh Hnd].
  apply elem_of_cons in Hin as [->|Hin].
  - rewrite loadRecords_other by done. unfold loadRecord.
    replace (Z.of_nat (length r) <=? Z.max idIndex keyIndex) with false by lia.
    apply String.eqb_neq in Hid. rewrite Hid. simpl.
    unfold Obs.usableKey.
    destruct (negb (String.eqb (cell r keyIndex) "")
              && negb (String.eqb (cell r keyIndex) "ERROR")); [|done].
    by rewrite lookup_insert_eq.
  - rewrite (IH Hnd _ row Hin Hlen Hid).
    destruct (Obs.usableKey (cell row keyIndex)); [done|].
    unfold loadRecord. repeat case_match; try done.
    rewrite lookup_insert_ne; [done|]. intros Heq. apply Hfresh.
    rewrite Heq. apply list_elem_of_fmap. by exists row.
Qed.

Section Facts.

Variable J : Type.
Variable ClientError : Type.

Abbreviation W := (World J ClientError).
Abbreviation loadMapping := (LoadIssueMapping J ClientError).

(** A successful [LoadIssueMapping], opened. *)
Lemma loadMapping_shape (w w' : W) (m : gmap string string)
    (headers : list string) (rows : list (list string)) :
  content (csv w) = Some (headers :: rows) ->
  loadMapping w = Some (Ok m, w') ->
  Forall (fun r => length r = length headers) rows /\
  Spec.column "JIRA Issue ID" headers <> -1 /\
  Spec.column "JIRA Issue Key" headers <> -1 /\
  m = foldl (loadRecord (Spec.column "JIRA Issue ID" headers)
               (Spec.column "JIRA Issue Key" headers)) ∅ rows /\
  w' = Spec.after w [EvLog InfoLoadingMapping;
                     EvLog (InfoMappingLoaded (Z.of_nat (size m)))].
Proof.
  intros Hc. unfold LoadIssueMapping. eff_open. rewrite Hc.
  destruct (csv_ReadAll (headers :: rows)) as [records|] eqn:Hr; [|done].
  apply csv_ReadAll_Some in Hr as [-> Hu]. specialize (Hu _ _ eq_refl).
  destruct rows as [|r0 rt]; [done|].
  change ((length (headers :: r0 :: rt) <? 2)%nat) with false. cbv iota.
  change (hd [] (headers :: r0 :: rt)) with headers.
  change (tl (headers :: r0 :: rt)) with (r0 :: rt).
  rewrite scanHeaders2_columns.
  fold (Spec.column "JIRA Issue ID" headers)
       (Spec.column "JIRA Issue Key" headers).
  destruct ((Spec.column "JIRA Issue ID" headers =? -1)
            || (Spec.column "JIRA Issue Key" headers =? -1)) eqn:E; [done|].
  intros [= <- <-]. unfold Spec.after. simpl. rewrite <- app_assoc.
  repeat split; try done; lia.
Qed.

(** X7: every binding [LoadIssueMapping] returns is read from a row of the
    ledger: the id is the row's id and is not empty, the key is the row's
    key and is neither empty nor the text ERROR. *)
Theorem loadMapping_sound (w w' : W) (m : gmap string string)
    (headers : list string) (rows : list (list string)) (id k : string) :
  content (csv w) = Some (headers :: rows) ->
  loadMapping w = Some (Ok m, w') ->
  m !! id = Some k ->
  id <> EmptyString /\ k <> EmptyString /\ k <> "ERROR"%string /\
  exists row, row ∈ rows /\ Spec.sourceID headers row = id
              /\ Spec.targetKey headers row = k.
Proof.
  intros Hc Hrun Hk.
  destruct (loadMapping_shape _ _ _ _ _ Hc Hrun) as (_ & _ & _ & -> & _).
  apply loadRecords_sound in Hk as [Hk|(H1 & H2 & row & Hin & H3 & H4)].
  { by rewrite lookup_empty in Hk. }
  unfold Obs.usableKey in H2. apply andb_true_iff in H2 as [H2 H2'].
  apply negb_true_iff, String.eqb_neq in H2, H2'.
  repeat split; try done. by exists row.
Qed.

(** X8: when the ids of the ledger are distinct, [LoadIssueMapping] binds
    the id of a row exactly when the row's key is usable, and then to that
    key; a row with an empty key or the key ERROR leaves its id unbound. *)
Theorem loadMapping_complete (w w' : W) (m : gmap string string)
    (headers : list string) (rows : list (list string))
    (row : list string) :
  content (csv w) = Some (headers :: rows) ->
  loadMapping w = Some (Ok m, w') ->
  NoDup (map (Spec.sourceID headers) rows) ->
  row ∈ rows ->
  Spec.sourceID headers row <> EmptyString ->
  m !! Spec.sourceID headers row =
  if Obs.usableKey (Spec.targetKey headers row)
  then Some (Spec.targetKey headers row) else None.
Proof.
  intros Hc Hrun Hnd Hin Hid.
  destruct (loadMapping_shape _ _ _ _ _ Hc Hrun) as (Hu & Hi & Hk & -> & _).
  destruct (column_range _ _ Hi) as [Ri _].
  destruct (column_range _ _ Hk) as [Rk _].
  unfold Spec.sourceID, Spec.targetKey in *.
  rewrite (loadRecords_complete _ _ rows Hnd ∅ row Hin); [|..|done].
  - by rewrite lookup_empty.
  - rewrite Forall_forall in Hu. rewrite (Hu row Hin). lia.
Qed.

End Facts.

Lemma loadMapping_sound_witness :
  exists row,
    row ∈ [["101"; "Login page"; "ok"; ""; "story"; "Backlog"; "0"; ""; "";
            ""; ""; ""; "PRJ-7"; "0"]%string] /\
    Spec.sourceID (Sample.jiraHeader ++ ["Error"%string]) row = "101"%string /\
    Spec.targetKey (Sample.jiraHeader ++ ["Error"%string]) row
      = "PRJ-7"%string.
Proof.
  destruct (loadMapping_sound nat string Sample2.doneWorld Sample2.doneLoaded
              Sample2.doneMapping (Sample.jiraHeader ++ ["Error"%string])
              [["101"; "Login page"; "ok"; ""; "story"; "Backlog"; "0"; "";
                ""; ""; ""; ""; "PRJ-7"; "0"]%string] "101" "PRJ-7")
    as (_ & _ & _ & Hrow).
  - reflexivity.
  - vm_compute. reflexivity.
  - vm_compute. reflexivity.
  - exact Hrow.
Defined.

Lemma loadMapping_complete_witness :
  Sample2.doneMapping !! "101"%string = Some "PRJ-7"%string.
Proof.
  apply (loadMapping_complete nat string Sample2.doneWorld Sample2.doneLoaded
           Sample2.doneMapping (Sample.jiraHeader ++ ["Error"%string])
           [["101"; "Login page"; "ok"; ""; "story"; "Backlog"; "0"; "";
             ""; ""; ""; ""; "PRJ-7"; "0"]%string]
           ["101"; "Login page"; "ok"; ""; "story"; "Backlog"; "0"; "";
            ""; ""; ""; ""; "PRJ-7"; "0"]%string).
  - reflexivity.
  - vm_compute. reflexivity.
  - apply (bool_decide_unpack _). vm_compute. reflexivity.
  - by left.
  - vm_compute. discriminate.
Defined.

End MappingFacts.

(** ** The upload phase *)

Module UploadFacts.
Import Services LedgerFacts PhaseFacts.

Section Facts.

Variable J : Type.
Variable ClientError : Type.
Variable uploadAttachment :
  J -> string -> list string -> J * option ClientError.
Variable config : Config.

Abbreviation W := (World J ClientError).
Abbreviation loadMapping := (LoadIssueMapping J ClientError).
Abbreviation upload :=
  (UploadAttachments J ClientError uploadAttachment config).
Abbreviation upFile := (uploadFile J ClientError uploadAttachment config).
Abbreviation upGroup := (uploadGroup J ClientError uploadAttachment config).

Lemma uploads_app (tr1 tr2 : list (Event ClientError)) :
  Spec.uploads (tr1 ++ tr2) = Spec.uploads tr1 ++ Spec.uploads tr2.
Proof. apply omap_app. Qed.

Lemma failedUploads_app (tr1 tr2 : list (Event ClientError)) :
  Obs.failedUploads (tr1 ++ tr2)
  = (Obs.failedUploads tr1 + Obs.failedUploads tr2)%nat.
Proof. unfold Obs.failedUploads. by rewrite List.filter_app, length_app. Qed.

(** Equal counters, component by component. *)
Ltac counts_eq :=
  unfold Obs.failedUploads; simpl;
  repeat match goal with |- (_, _) = (_, _) => f_equal end; lia.

Lemma advances_refl (w : W) (counts : Z * Z * Z) :
  Obs.advances w w counts counts [].
Proof.
  unfold Obs.advances. simpl. rewrite app_nil_r. repeat split; try done.
  destruct counts as [[t u] f]. simpl. counts_eq.
Qed.

Lemma advances_trans (w1 w2 w3 : W) (c1 c2 c3 : Z * Z * Z)
    (evs1 evs2 : list (Event ClientError)) :
  Obs.advances w1 w2 c1 c2 evs1 -> Obs.advances w2 w3 c2 c3 evs2 ->
  Obs.advances w1 w3 c1 c3 (evs1 ++ evs2).
Proof.
  intros (A1 & A2 & A3 & A4 & A5) (B1 & B2 & B3 & B4 & B5).
  unfold Obs.advances. rewrite B1, B2, B3, A1, A2, A3, app_assoc.
  repeat split; try done.
  - by rewrite createCalls_app, A4, B4.
  - rewrite uploads_app, failedUploads_app, length_app.
    subst c3 c2. destruct c1 as [[t u] f]. simpl. counts_eq.
Qed.

Lemma uploadFile_run (issueFolder : list string) (issueKey : string)
    (file : string * bool) (counts : Z * Z * Z) (w : W) :
  MaxConcurrent config <> 0 ->
  exists (counts' : Z * Z * Z) (w' : W) (evs : list (Event ClientError)),
    upFile issueFolder issueKey file counts w = Some (counts', w') /\
    Obs.advances w w' counts counts' evs /\
    Spec.uploads evs =
      if snd file then [] else [(issueKey, issueFolder ++ [fst file])].
Proof.
  intros Hmax. unfold uploadFile. destruct counts as [[t u] f].
  destruct file as [name isDir]. simpl. destruct isDir.
  { exists (t, u, f), w, []. split; [done|]. split; [apply advances_refl|done]. }
  replace (MaxConcurrent config =? 0) with false by lia.
  unfold UploadAttachment, call, bind, log, emit, ret. simpl.
  destruct (uploadAttachment (jira w) issueKey (issueFolder ++ [name]))
    as [j' [e|]]; simpl; eexists _, _, [_; _];
    (split; [reflexivity|]); unfold Obs.advances; simpl;
    rewrite <- ?app_assoc; simpl; repeat split; try done;
    counts_eq.
Qed.

Lemma uploadFiles_run (issueFolder : list string) (issueKey : string)
    (files : list (string * bool)) :
  MaxConcurrent config <> 0 ->
  forall (counts : Z * Z * Z) (w : W),
  exists (counts' : Z * Z * Z) (w' : W) (evs : list (Event ClientError)),
    forEach J ClientError (upFile issueFolder issueKey) files counts w
      = Some (counts', w') /\
    Obs.advances w w' counts counts' evs /\
    Spec.uploads evs =
      map (fun file => (issueKey, issueFolder ++ [fst file]))
        (List.filter (fun file => negb (snd file)) files).
Proof.
  intros Hmax. induction files as [|file files IH]; intros counts w; simpl.
  { exists counts, w, []. split; [done|]. split; [apply advances_refl|done]. }
  destruct (uploadFile_run issueFolder issueKey file counts w Hmax)
    as (c1 & w1 & evs1 & Hrun1 & Hadv1 & Hup1).
  destruct (IH c1 w1) as (c2 & w2 & evs2 & Hrun2 & Hadv2 & Hup2).
  exists c2, w2, (evs1 ++ evs2). unfold bind. rewrite Hrun1.
  split; [exact Hrun2|]. split; [by eapply advances_trans|].
  rewrite uploads_app, Hup1, Hup2. by destruct (snd file).
Qed.

Lemma uploadGroup_run (m : gmap string string) (entry : DirEntry)
    (counts : Z * Z * Z) (w : W) :
  MaxConcurrent config <> 0 ->
  exists (counts' : Z * Z * Z) (w' : W) (evs : list (Event ClientError)),
    upGroup m entry counts w = Some (counts', w') /\
    Obs.advances w w' counts counts' evs /\
    Spec.uploads evs = Obs.groupUploads (AttachmentsFolder config) m entry.
Proof.
  intros Hmax. unfold uploadGroup, Obs.groupUploads.
  assert (Hlog : forall l : LogLine ClientError,
            Obs.advances w (Spec.after w [EvLog l]) counts counts [EvLog l]).
  { intros l. unfold Obs.advances, Spec.after. simpl. repeat split; try done.
    destruct counts as [[t u] f]. simpl. counts_eq. }
  destruct (IsDir entry); simpl.
  2:{ exists counts, w, []. split; [done|]. split; [apply advances_refl|done]. }
  destruct (m !! Name entry) as [k|].
  2:{ eexists _, _, _. split; [reflexivity|]. split; [apply Hlog|done]. }
  destruct (String.eqb k "ERROR").
  { eexists _, _, _. split; [reflexivity|]. split; [apply Hlog|done]. }
  destruct (listing entry) as [files|].
  2:{ eexists _, _, _. split; [reflexivity|]. split; [apply Hlog|done]. }
  apply (uploadFiles_run [AttachmentsFolder config; Name entry] k files Hmax).
Qed.

Lemma uploadGroups_run (m : gmap string string) (entries : list DirEntry) :
  MaxConcurrent config <> 0 ->
  forall (counts : Z * Z * Z) (w : W),
  exists (counts' : Z * Z * Z) (w' : W) (evs : list (Event ClientError)),
    forEach J ClientError (upGroup m) entries counts w = Some (counts', w') /\
    Obs.advances w w' counts counts' evs /\
    Spec.uploads evs = Obs.expectedUploads (AttachmentsFolder config) m entries.
Proof.
  intros Hmax. induction entries as [|entry entries IH]; intros counts w; simpl.
  { exists counts, w, []. split; [done|]. split; [apply advances_refl|done]. }
  destruct (uploadGroup_run m entry counts w Hmax)
    as (c1 & w1 & evs1 & Hrun1 & Hadv1 & Hup1).
  destruct (IH c1 w1) as (c2 & w2 & evs2 & Hrun2 & Hadv2 & Hup2).
  exists c2, w2, (evs1 ++ evs2). unfold bind. rewrite Hrun1.
  split; [exact Hrun2|]. split; [by eapply advances_trans|].
  by rewrite uploads_app, Hup1, Hup2.
Qed.

(** [LoadIssueMapping] only logs. *)
Lemma loadMapping_pure (w w1 : W)
    (r : res (error ClientError) (gmap string string)) :
  loadMapping w = Some (r, w1) ->
  csv w1 = csv w /\ folder w1 = folder w /\ jira w1 = jira w /\
  exists logs, trace w1 = trace w ++ map EvLog logs.
Proof.
  unfold LoadIssueMapping. eff_open. intros Hrun.
  repeat case_match; simplify_eq; simpl; repeat split; try done;
    rewrite <- ?app_assoc; simpl.
  all: try by eexists [_].
  by eexists [_; _].
Qed.

(** The upload phase on a ledger it can read and a folder it can list. *)
Lemma upload_run (w w1 : W) (m : gmap string string)
    (entries : list DirEntry) :
  loadMapping w = Some (Ok m, w1) ->
  folder w = Entries entries ->
  1 <= MaxConcurrent config ->
  exists (counts : Z * Z * Z) (w2 : W) (evs : list (Event ClientError)),
    Obs.advances
      (Spec.after w1 [EvLog (InfoUploadStart (AttachmentsFolder config))])
      w2 (0, 0, 0) counts evs /\
    Spec.uploads evs
      = Obs.expectedUploads (AttachmentsFolder config) m entries /\
    upload w =
      Some (None,
            Spec.after w2
              [EvLog (InfoUploadDone counts.1.1 counts.1.2 counts.2);
               EvLog (InfoElapsed "attachment upload")]).
Proof.
  intros Hload Hfolder Hmax.
  destruct (loadMapping_pure _ _ _ Hload) as (_ & Hf1 & _ & _).
  destruct (uploadGroups_run m entries ltac:(lia) (0, 0, 0)
              (Spec.after w1
                 [EvLog (InfoUploadStart (AttachmentsFolder config))]))
    as (counts & w2 & evs & Hrun & Hadv & Hup).
  exists counts, w2, evs. split; [exact Hadv|]. split; [exact Hup|].
  unfold UploadAttachments. unfold bind at 1. rewrite Hload.
  unfold bind at 1. unfold bind at 1. unfold getFolder at 1.
  rewrite Hf1, Hfolder. unfold bind at 1. unfold log at 1, emit at 1.
  replace (MaxConcurrent config <? 0) with false by lia.
  unfold bind at 1. unfold Spec.after in Hrun. rewrite Hrun.
  destruct counts as [[t u] f]. unfold Spec.after. eff_open.
  by rewrite <- app_assoc.
Qed.

(** X9: on a readable ledger and a listable folder the upload phase
    returns nil; its report line counts every [UploadAttachment] call of
    the phase once, as uploaded or as failed, and the ledger file is not
    touched. *)
Theorem upload_report (w w1 : W) (m : gmap string string)
    (entries : list DirEntry) :
  loadMapping w = Some (Ok m, w1) ->
  folder w = Entries entries ->
  1 <= MaxConcurrent config ->
  exists (w' : W) (evs : list (Event ClientError)) (total uploaded failed : Z),
    upload w = Some (None, w') /\
    trace w' =
      trace w1 ++ EvLog (InfoUploadStart (AttachmentsFolder config)) :: evs
      ++ [EvLog (InfoUploadDone total uploaded failed);
          EvLog (InfoElapsed "attachment upload")] /\
    total = Z.of_nat (length (Spec.uploads evs)) /\
    failed = Z.of_nat (Obs.failedUploads evs) /\
    total = uploaded + failed /\
    Spec.createCalls evs = [] /\
    csv w' = csv w.
Proof.
  intros Hload Hfolder Hmax.
  destruct (upload_run w w1 m entries Hload Hfolder Hmax)
    as (counts & w2 & evs & (A1 & A2 & A3 & A4 & A5) & _ & Hrun).
  destruct (loadMapping_pure _ _ _ Hload) as (Hc1 & _).
  exists (Spec.after w2 [EvLog (InfoUploadDone counts.1.1 counts.1.2 counts.2);
                         EvLog (InfoElapsed "attachment upload")]),
    evs, counts.1.1, counts.1.2, counts.2.
  split; [exact Hrun|]. subst counts. simpl in *. rewrite A3, A1, Hc1.
  rewrite <- !app_assoc. repeat split; try done; lia.
Qed.

(** X10: the [UploadAttachment] calls of the phase are, in this order, one
    for every plain file of every folder whose name the ledger maps to a
    key other than ERROR, each to that key and with the path
    root/folder/file; plain files of the root, unmapped folders, folders
    that cannot be listed and folders inside a folder get none. *)
Theorem upload_targets (w w1 : W) (m : gmap string string)
    (entries : list DirEntry) :
  loadMapping w = Some (Ok m, w1) ->
  folder w = Entries entries ->
  1 <= MaxConcurrent config ->
  exists (w' : W) (evs : list (Event ClientError)),
    upload w = Some (None, w') /\
    trace w' = trace w ++ evs /\
    Spec.uploads evs
      = Obs.expectedUploads (AttachmentsFolder config) m entries.
Proof.
  intros Hload Hfolder Hmax.
  destruct (upload_run w w1 m entries Hload Hfolder Hmax)
    as (counts & w2 & evs & (_ & _ & A3 & _) & Hup & Hrun).
  destruct (loadMapping_pure _ _ _ Hload) as (_ & _ & _ & logs & Hlogs).
  eexists _, (map EvLog logs
              ++ EvLog (InfoUploadStart (AttachmentsFolder config)) :: evs
              ++ [EvLog (InfoUploadDone counts.1.1 counts.1.2 counts.2);
                  EvLog (InfoElapsed "attachment upload")]).
  split; [exact Hrun|]. simpl in *. rewrite A3, Hlogs.
  split; [by rewrite <- !app_assoc|].
  rewrite uploads_app. simpl. rewrite uploads_app. simpl.
  rewrite app_nil_r, <- Hup.
  assert (Hnone : Spec.uploads (map EvLog logs) = []).
  { clear. induction logs; [done|]. simpl. exact IHlogs. }
  by rewrite Hnone.
Qed.

(** X11: when the upload phase returns an error, it has made no call to
    JIRA and has not touched the ledger file. *)
Theorem upload_error_before_any_call (w w' : W) (e : error ClientError) :
  upload w = Some (Some e, w') ->
  jira w' = jira w /\ csv w' = csv w /\
  Obs.clientCalls (trace w') = Obs.clientCalls (trace w).
Proof.
  unfold UploadAttachments. unfold bind at 1.
  destruct (loadMapping w) as [[r w1]|] eqn:Hload; [|done].
  destruct (loadMapping_pure _ _ _ Hload) as (Hc & Hf & Hj & logs & Hlogs).
  assert (Hcalls : forall logs' : list (LogLine ClientError),
            Obs.clientCalls (trace w1 ++ map EvLog logs')
            = Obs.clientCalls (trace w)).
  { intros logs'. rewrite Hlogs. unfold Obs.clientCalls.
    rewrite !List.filter_app.
    assert (Hnone : forall l : list (LogLine ClientError),
              List.filter Obs.isCall (map EvLog l) = []).
    { induction l; [done|]. simpl. exact IHl. }
    by rewrite !Hnone, !app_nil_r. }
  destruct r as [m|e1].
  - unfold bind at 1. unfold bind at 1. unfold getFolder at 1.
    destruct (folder w1) as [| |entries] eqn:Hfol.
    + eff_open. intros [= <- <-]. simpl. rewrite Hj, Hc.
      split; [done|]. split; [done|]. apply (Hcalls [_]).
    + unfold bind at 1. unfold log at 1, emit at 1.
      destruct (MaxConcurrent config <? 0); [done|]. eff_open.
      intros [= <- <-]. simpl. rewrite Hj, Hc.
      split; [done|]. split; [done|]. rewrite <- app_assoc.
      apply (Hcalls [_; _]).
    + unfold bind at 1. unfold log at 1, emit at 1.
      destruct (MaxConcurrent config <? 0); [done|].
      unfold bind at 1.
      destruct (forEach _ _ _ _ _ _) as [[[[t u] f] w2]|]; [|done].
      eff_open. done.
  - eff_open. intros [= <- <-]. simpl. rewrite Hj, Hc.
    split; [done|]. split; [done|]. apply (Hcalls [_]).
Qed.

End Facts.

Lemma upload_report_witness :
  exists w' evs total uploaded failed,
    Sample.upload Sample2.doneWorld = Some (None, w') /\
    trace w' =
      trace Sample2.doneLoaded ++ EvLog (InfoUploadStart "attachments") :: evs
      ++ [EvLog (InfoUploadDone total uploaded failed);
          EvLog (InfoElapsed "attachment upload")] /\
    total = Z.of_nat (length (Spec.uploads evs)) /\
    total = uploaded + failed.
Proof.
  destruct (upload_report nat string Sample.uploadAttachment Sample.config
              Sample2.doneWorld Sample2.doneLoaded Sample2.doneMapping
              [mkDirEntry "101" true (Some [("shot.png"%string, false)])])
    as (w' & evs & t & u & f & Hrun & Htr & Ht & _ & Hsum & _).
  - vm_compute. reflexivity.
  - reflexivity.
  - vm_compute. discriminate.
  - exists w', evs, t, u, f. repeat split; assumption.
Defined.

Lemma upload_targets_witness :
  exists w' evs,
    Sample.upload Sample2.doneWorld = Some (None, w') /\
    trace w' = trace Sample2.doneWorld ++ evs /\
    Spec.uploads evs = [("PRJ-7"%string, ["attachments"; "101"; "shot.png"]%string)].
Proof.
  destruct (upload_targets nat string Sample.uploadAttachment Sample.config
              Sample2.doneWorld Sample2.doneLoaded Sample2.doneMapping
              [mkDirEntry "101" true (Some [("shot.png"%string, false)])])
    as (w' & evs & Hrun & Htr & Hup).
  - vm_compute. reflexivity.
  - reflexivity.
  - vm_compute. discriminate.
  - exists w', evs. split; [exact Hrun|]. split; [exact Htr|].
    rewrite Hup. vm_compute. reflexivity.
Defined.

Lemma upload_error_before_any_call_witness :
  jira (Spec.after Sample2.freshRewritten
          [EvLog InfoLoadingMapping; EvLog (InfoElapsed "attachment upload")])
    = jira Sample2.freshRewritten /\
  Obs.clientCalls
    (trace (Spec.after Sample2.freshRewritten
              [EvLog InfoLoadingMapping;
               EvLog (InfoElapsed "attachment upload")]))
    = Obs.clientCalls (trace Sample2.freshRewritten).
Proof.
  destruct (upload_error_before_any_call nat string Sample.uploadAttachment
              Sample.config Sample2.freshRewritten
              (Spec.after Sample2.freshRewritten
                 [EvLog InfoLoadingMapping;
                  EvLog (InfoElapsed "attachment upload")])
              (ErrLoadMapping ErrMappingRead))
    as (Hj & _ & Hcalls).
  - vm_compute. reflexivity.
  - split; [exact Hj|exact Hcalls].
Defined.

End UploadFacts.

(** ** More on [processRecord] *)

Module RecordMore.
Import Services.

Section Facts.

Variable J : Type.
Variable ClientError : Type.
Variable createIssue : J -> CreateArgs -> J * res ClientError string.
Variable updateStoryPoints : J -> string -> Z -> J * option ClientError.
Variable updateStatus : J -> string -> string -> J * option ClientError.
Variable addComment : J -> string -> string -> J * option ClientError.
Variable unicodeLower : string -> string.
Variable TrimSpace : string -> string.
Variable scanInt : string -> Z.

Abbreviation W := (World J ClientError).
Abbreviation process :=
  (processRecord J ClientError createIssue updateStoryPoints updateStatus
     addComment unicodeLower TrimSpace scanInt).
Abbreviation argsOf := (createArgsOf unicodeLower TrimSpace).

(** [processRecord], run: its result and its calls. *)
Lemma processRecord_run (record : gmap string string) (w : W) :
  exists (w' : W) (evs : list (Event ClientError)),
    process record w =
      Some (match snd (createIssue (jira w) (argsOf record)) with
            | Ok issueKey => Ok issueKey
            | Err e => Err (ErrIssueCreate e)
            end, w') /\
    trace w' = trace w ++ evs /\
    csv w' = csv w /\ folder w' = folder w /\
    Obs.calls evs =
      Obs.CreateIssue (argsOf record)
      :: match snd (createIssue (jira w) (argsOf record)) with
         | Ok issueKey => Obs.followUps scanInt record issueKey
         | Err _ => []
         end.
Proof.
  unfold processRecord, CreateIssue, UpdateStoryPoints, UpdateStatus,
    AddComment, call, bind, ret, log, emit, Obs.followUps.
  destruct w as [j f d tr]. simpl.
  destruct (createIssue j _) as [j1 [issueKey|e]]; simpl.
  2:{ eexists _, [_]. repeat split; reflexivity. }
  repeat match goal with
         | |- context [if ?c then _ else _] => destruct c; simpl
         | |- context [updateStoryPoints ?a ?b ?c] =>
             destruct (updateStoryPoints a b c) as [? [?|]]; simpl
         | |- context [updateStatus ?a ?b ?c] =>
             destruct (updateStatus a b c) as [? [?|]]; simpl
         | |- context [addComment ?a ?b ?c] =>
             destruct (addComment a b c) as [? [?|]]; simpl
         end;
    rewrite <- ?app_assoc; simpl;
    eexists _, _; (split; [reflexivity|]); simpl;
    (split; [reflexivity|]); repeat split; reflexivity.
Qed.

(** X12: the result of [processRecord] is decided by [CreateIssue] alone:
    the key it returned, or its error wrapped; a failure to set the story
    points, the status or the comment never fails the record. *)
Theorem processRecord_best_effort (record : gmap string string) (w : W) :
  exists w' : W,
    process record w =
    Some (match snd (createIssue (jira w) (argsOf record)) with
          | Ok issueKey => Ok issueKey
          | Err e => Err (ErrIssueCreate e)
          end, w').
Proof.
  destruct (processRecord_run record w) as (w' & evs & Hrun & _).
  by exists w'.
Qed.

(** X13: the calls [processRecord] makes to JIRA are [CreateIssue] first
    and, only when that succeeded, in this order and each at most once:
    [UpdateStoryPoints] when the record has story points that scan to a
    positive number, [UpdateStatus] when its status is neither empty nor
    the text Backlog, [AddComment] when its comment is not empty.  The
    ledger file is not touched. *)
Theorem processRecord_calls (record : gmap string string) (w : W) :
  exists (r : res (error ClientError) string) (w' : W)
         (evs : list (Event ClientError)),
    process record w = Some (r, w') /\
    trace w' = trace w ++ evs /\
    csv w' = csv w /\
    Obs.calls evs =
      Obs.CreateIssue (argsOf record)
      :: match r with
         | Ok issueKey => Obs.followUps scanInt record issueKey
         | Err _ => []
         end.
Proof.
  destruct (processRecord_run record w)
    as (w' & evs & Hrun & Htr & Hcsv & _ & Hcalls).
  eexists _, w', evs. split; [exact Hrun|]. split; [exact Htr|].
  split; [exact Hcsv|]. rewrite Hcalls.
  by destruct (snd (createIssue (jira w) (argsOf record))).
Qed.

End Facts.
End RecordMore.

(** ** api/jira_client.go, continued *)

Module ApiMore.
Import Api.

Section Facts.

Variable Server : Type.
Variable roundTrip : Server -> Wire -> Server * res error Response.
Variable unicodeLower : string -> string.
Variable urlParses : string -> bool.
Variable basicAuth : string -> string -> string.
Variable jsonMarshal : json -> string.
Variable jsonDecodeObject : string -> option (list (string * json)).
Variable config : Config.

Abbreviation retry := (retryOnRateLimit Server roundTrip).
Abbreviation getTransitions :=
  (GetTransitions Server roundTrip unicodeLower urlParses basicAuth
     jsonDecodeObject config).
Abbreviation updateStatus :=
  (UpdateStatus Server roundTrip unicodeLower urlParses basicAuth jsonMarshal
     jsonDecodeObject config).

#[local] Arguments Do : simpl never.

Lemma sends_app (a b : list Event) :
  Spec.sends (a ++ b) = Spec.sends a ++ Spec.sends b.
Proof. apply omap_app. Qed.

(** [retryOnRateLimit], run: one or two attempts, each with the method and
    the URL of the request. *)
Lemma retry_run (req : Request) (srv : Server) (tr : list Event) :
  exists req' r srv' evs,
    retry req (srv, tr) = Some ((req', r), (srv', tr ++ evs)) /\
    Forall (ApiObs.goesTo (Method req) (URL req)) (Spec.sends evs) /\
    (1 <= length (Spec.sends evs) <= 2)%nat.
Proof.
  unfold retryOnRateLimit, bind. rewrite ApiFacts.Do_sends. cbv zeta.
  destruct (roundTrip srv _) as [srv1 [resp|e]] eqn:Hrt; simpl.
  - destruct (StatusCode resp =? 429) eqn:Hs; simpl.
    + set (req2 := match Body (snd (drain req)) with
                   | Some rest => _ | None => _ end).
      assert (Hm : Method req2 = Method req /\ URL req2 = URL req).
      { unfold req2, drain.
        destruct (Body req) eqn:Hb; simpl; rewrite ?Hb; auto. }
      destruct Hm as [Hm Hu].
      rewrite ApiFacts.Do_sends. cbv zeta. rewrite <- !app_assoc. simpl.
      eexists _, _, _, _. split; [reflexivity|]. simpl.
      split; [|lia].
      repeat constructor; simpl; assumption.
    + unfold ret. eexists _, _, _, [_]. split; [reflexivity|]. simpl.
      split; [|lia]. repeat constructor.
  - unfold ret. eexists _, _, _, [_]. split; [reflexivity|]. simpl.
    split; [|lia]. repeat constructor.
Qed.

(** X14: a request with a nil body is sent again exactly as it was: every
    attempt of [retryOnRateLimit] puts the same wire request out, once or
    twice, and the request comes back unchanged. *)
Theorem retryOnRateLimit_nil_body_repeats
    (req : Request) (srv : Server) (tr : list Event) :
  Body req = None ->
  exists r st n,
    retry req (srv, tr) = Some ((req, r), st) /\
    Spec.sends (snd st) =
      Spec.sends tr
      ++ replicate n (mkWire (Method req) (URL req) (Header req) EmptyString) /\
    (n = 1 \/ n = 2)%nat.
Proof.
  intros Hb.
  assert (Hd : drain req = (EmptyString, req)) by (unfold drain; by rewrite Hb).
  unfold retryOnRateLimit, bind. rewrite ApiFacts.Do_sends, Hb, Hd. simpl.
  destruct (roundTrip srv _) as [srv1 [resp|e]] eqn:Hrt; simpl.
  - destruct (StatusCode resp =? 429) eqn:Hs; simpl.
    + rewrite Hb, ApiFacts.Do_sends, Hb, Hd. simpl.
      eexists _, _, 2%nat. split; [reflexivity|]. simpl.
      rewrite !sends_app, <- !app_assoc. simpl. auto.
    + unfold ret. eexists _, _, 1%nat. split; [reflexivity|]. simpl.
      rewrite sends_app. auto.
  - unfold ret. eexists _, _, 1%nat. split; [reflexivity|]. simpl.
    rewrite sends_app. auto.
Qed.

Lemma transitionMapOf_snoc (ts : list json) (t : json) :
  transitionMapOf unicodeLower (ts ++ [t]) =
  match transitionEntry unicodeLower t with
  | Some (name, id) => <[name := id]> (transitionMapOf unicodeLower ts)
  | None => transitionMapOf unicodeLower ts
  end.
Proof. unfold transitionMapOf. by rewrite foldl_app. Qed.

(** X15: the map [GetTransitions] builds binds a status name to the id of
    the last element of the [transitions] array that passes the type
    assertions and whose lower-cased [to.name] is that name; it binds
    nothing else. *)
Theorem transitionMapOf_last_wins (ts : list json) (k : string) :
  transitionMapOf unicodeLower ts !! k =
  last (omap (ApiObs.leadsTo unicodeLower k) ts).
Proof.
  induction ts as [|t ts IH] using rev_ind; [reflexivity|].
  rewrite transitionMapOf_snoc, omap_app. simpl. unfold ApiObs.leadsTo at 2.
  destruct (transitionEntry unicodeLower t) as [[name id]|]; simpl.
  - destruct (String.eqb name k) eqn:Hn; simpl.
    + apply String.eqb_eq in Hn as ->.
      by rewrite lookup_insert_eq, last_snoc.
    + apply String.eqb_neq in Hn.
      by rewrite lookup_insert_ne, app_nil_r.
  - by rewrite app_nil_r.
Qed.

(** [GetTransitions], run: at most two requests, all GET on the issue's
    transitions; none when the URL is refused. *)
Lemma GetTransitions_run (issueKey : string) (srv : Server) (tr : list Event) :
  exists r srv' evs,
    getTransitions issueKey (srv, tr) = Some (r, (srv', tr ++ evs)) /\
    Forall (ApiObs.goesTo "GET" (transitionsURL config issueKey))
      (Spec.sends evs) /\
    (length (Spec.sends evs) <= 2)%nat /\
    (urlParses (transitionsURL config issueKey) = false ->
     r = Err ErrNewRequest /\ evs = []).
Proof.
  unfold GetTransitions, newRequest.
  destruct (urlParses (transitionsURL config issueKey)) eqn:Hurl.
  2:{ exists (Err ErrNewRequest), srv, []. rewrite app_nil_r.
      split; [reflexivity|]. simpl. split; [constructor|]. split; [lia|auto]. }
  set (req := mkRequest _ _ _ _ _).
  destruct (retry_run req srv tr) as (req' & r & srv1 & evs & Hrun & Hall & Hlen).
  unfold bind at 1. rewrite Hrun.
  destruct r as [resp|e].
  - destruct (negb (StatusCode resp =? 200)); simpl;
      unfold bind, emit, ret; simpl; rewrite <- !app_assoc;
      eexists _, _, _; (split; [reflexivity|]);
      rewrite sends_app; simpl; rewrite app_nil_r;
      (split; [exact Hall|]); (split; [lia|discriminate]).
  - unfold ret. eexists _, _, _. split; [reflexivity|].
    split; [exact Hall|]. split; [lia|discriminate].
Qed.

(** X16: [UpdateStatus] always returns, and all it sends goes to the
    transitions of the issue: at most two GET requests, then at most two
    POST requests.  A POST has been sent only when the result is nil, a
    transport error or a refused update: after every other error, the
    missing transition among them, the issue has only been read. *)
Theorem UpdateStatus_requests
    (issueKey targetStatus : string) (srv : Server) (tr : list Event) :
  exists out srv' evs gets posts,
    updateStatus issueKey targetStatus (srv, tr)
      = Some (out, (srv', tr ++ evs)) /\
    Spec.sends evs = gets ++ posts /\
    Forall (ApiObs.goesTo "GET" (transitionsURL config issueKey)) gets /\
    Forall (ApiObs.goesTo "POST" (transitionsURL config issueKey)) posts /\
    (length gets <= 2)%nat /\ (length posts <= 2)%nat /\
    (posts <> [] ->
     out = None \/ (exists e, out = Some (ErrSend e))
     \/ (exists body, out = Some (ErrStatusUpdateFailed body))).
Proof.
  unfold UpdateStatus.
  destruct (String.eqb (ToLower unicodeLower targetStatus) "backlog").
  { eexists _, _, [_], [], []. split; [reflexivity|]. simpl.
    repeat split; try constructor; try lia. congruence. }
  destruct (GetTransitions_run issueKey srv tr)
    as (r & srv1 & evs & Hrun & Hall & Hlen & Hurl).
  unfold bind at 1. rewrite Hrun.
  destruct r as [transitions|e].
  2:{ unfold ret. eexists _, _, evs, _, []. split; [reflexivity|].
      rewrite app_nil_r. split; [reflexivity|].
      repeat split; try assumption; try constructor; simpl; try lia.
      congruence. }
  destruct (transitions !! ToLower unicodeLower targetStatus) as [transitionID|].
  2:{ unfold ret. eexists _, _, evs, _, []. split; [reflexivity|].
      rewrite app_nil_r. split; [reflexivity|].
      repeat split; try assumption; try constructor; simpl; try lia.
      congruence. }
  unfold newRequest.
  destruct (urlParses (transitionsURL config issueKey)) eqn:Hparse.
  2:{ destruct Hurl as [Hr _]; [reflexivity|discriminate]. }
  set (req := mkRequest _ _ _ _ _).
  destruct (retry_run req srv1 (tr ++ evs))
    as (req' & r & srv2 & evs2 & Hrun2 & Hall2 & Hlen2).
  unfold bind at 1. rewrite Hrun2.
  destruct r as [resp|e].
  - destruct (negb (StatusCode resp =? 204)); simpl;
      unfold bind, emit, ret; simpl; rewrite <- !app_assoc;
      eexists _, _, _, (Spec.sends evs), (Spec.sends evs2);
      (split; [reflexivity|]);
      rewrite !sends_app; simpl; rewrite app_nil_r;
      (split; [reflexivity|]);
      (split; [exact Hall|]); (split; [exact Hall2|]);
      (split; [lia|]); (split; [lia|]); intros _; eauto.
  - unfold ret. rewrite <- !app_assoc.
    eexists _, _, _, (Spec.sends evs), (Spec.sends evs2).
    split; [reflexivity|]. rewrite sends_app.
    split; [reflexivity|].
    split; [exact Hall|]. split; [exact Hall2|].
    split; [lia|]. split; [lia|]. intros _; eauto.
Qed.

End Facts.

Lemma retryOnRateLimit_nil_body_repeats_witness :
  Body ApiObs.getMyself = None /\
  exists r st n,
    retryOnRateLimit nat Sample.rateLimitedOnce ApiObs.getMyself (0%nat, [])
      = Some ((ApiObs.getMyself, r), st) /\
    Spec.sends (snd st) =
      Spec.sends []
      ++ replicate n (mkWire (Method ApiObs.getMyself) (URL ApiObs.getMyself)
                        (Header ApiObs.getMyself) EmptyString) /\
    (n = 1 \/ n = 2)%nat.
Proof.
  split; [reflexivity|].
  apply (retryOnRateLimit_nil_body_repeats nat Sample.rateLimitedOnce
           ApiObs.getMyself 0%nat []).
  reflexivity.
Defined.

End ApiMore.

(** ** The Convert phase: the rows of [ReadPivotalCSV] *)

Module ConvertFacts.
Import Services Migration.

Lemma headerIndices_fold (h : string) (headers : list string) :
  forall (i : nat) (m : gmap string (list nat)),
    foldl (fun m ih => <[snd ih := default [] (m !! snd ih) ++ [fst ih]]> m) m
      (zip (seq i (length headers)) headers) !! h
    = match MigObs.positionsFrom i h headers with
      | [] => m !! h
      | l => Some (default [] (m !! h) ++ l)
      end.
Proof.
  induction headers as [|x hs IH]; intros i m; simpl; [done|].
  rewrite IH. destruct (String.eqb x h) eqn:E; simpl.
  - apply String.eqb_eq in E as ->. rewrite lookup_insert_eq. simpl.
    destruct (MigObs.positionsFrom (S i) h hs); simpl.
    + done.
    + by rewrite <- app_assoc.
  - apply String.eqb_neq in E. by rewrite lookup_insert_ne.
Qed.

Lemma headerIndices_lookup (h : string) (headers : list string) :
  headerIndices headers !! h
  = match MigObs.positionsFrom 0 h headers with
    | [] => None
    | l => Some l
    end.
Proof.
  unfold headerIndices. rewrite headerIndices_fold.
  by destruct (MigObs.positionsFrom 0 h headers).
Qed.

Lemma positionsFrom_ge (h : string) (headers : list string) :
  forall i, Forall (fun p => (i <= p)%nat) (MigObs.positionsFrom i h headers).
Proof.
  induction headers as [|x hs IH]; intros i; simpl; [constructor|].
  apply Forall_app. split.
  - destruct (String.eqb x h); repeat constructor.
  - eapply Forall_impl; [apply IH|]. simpl. lia.
Qed.

Lemma nth_drop_hd (record : list string) (i : nat) :
  nth i record EmptyString = hd EmptyString (drop i record).
Proof.
  revert i. induction record as [|v vs IH]; intros [|i]; simpl; auto.
Qed.

Lemma tl_drop (record : list string) (i : nat) :
  tl (drop i record) = drop (S i) record.
Proof.
  revert i. induction record as [|v vs IH]; intros [|i]; simpl; auto.
Qed.

Lemma firstCell_positions (h : string) (record headers : list string) :
  forall i,
    (fun p => nth p record EmptyString) <$> head (MigObs.positionsFrom i h headers)
    = MigObs.firstCell h headers (drop i record).
Proof.
  induction headers as [|x hs IH]; intros i; simpl; [done|].
  destruct (String.eqb x h); simpl.
  - by rewrite nth_drop_hd.
  - by rewrite IH, tl_drop.
Qed.

Lemma cellsUnder_positions (h : string) (record headers : list string) :
  forall i,
    omap (fun idx =>
            if (idx <? length record)%nat
               && negb (String.eqb (nth idx record EmptyString) "")
            then Some (nth idx record EmptyString) else None)
      (MigObs.positionsFrom i h headers)
    = List.filter MigObs.nonEmpty (MigObs.cellsUnder h headers (drop i record)).
Proof.
  induction headers as [|x hs IH]; intros i; simpl; [done|].
  rewrite omap_app, IH.
  destruct (drop i record) as [|v vs] eqn:Hd.
  - assert (Hlen : (length record <= i)%nat).
    { apply (f_equal length) in Hd. rewrite length_drop in Hd. simpl in Hd. lia. }
    rewrite (drop_ge record (S i)) by lia.
    replace (MigObs.cellsUnder h hs []) with (@nil string) by (by destruct hs).
    destruct (String.eqb x h); simpl; [|done].
    replace (i <? length record)%nat with false; [done|].
    symmetry. apply Nat.ltb_ge. lia.
  - assert (Hlen : (i < length record)%nat).
    { apply (f_equal length) in Hd. rewrite length_drop in Hd. simpl in Hd. lia. }
    assert (Hv : nth i record EmptyString = v) by (by rewrite nth_drop_hd, Hd).
    assert (Hvs : drop (S i) record = vs) by (by rewrite <- tl_drop, Hd).
    rewrite Hvs, List.filter_app.
    destruct (String.eqb x h); simpl; [|done].
    rewrite Hv. replace (i <? length record)%nat with true
      by (symmetry; by apply Nat.ltb_lt).
    simpl. unfold MigObs.nonEmpty. by destruct (negb (String.eqb v "")).
Qed.

(** X17: outside the Comment column [ReadPivotalCSV] reads a header name
    from its first column: what a row stores under a name is its cell under
    the first header with that name, the empty string when the row ends
    before that column, and a name that is no header is no key. *)
Theorem pivotalRow_first_column (headers record : list string) (h : string) :
  h <> "Comment"%string ->
  pivotalRow (headerIndices headers) record !! h
  = MigObs.firstCell h headers record.
Proof.
  intros Hh.
  assert (Hrow :
    map_imap (fun header indices =>
                if negb (String.eqb header "Comment") then
                  Some (match indices with
                        | i :: _ =>
                            if (i <? length record)%nat
                            then nth i record EmptyString else EmptyString
                        | [] => EmptyString
                        end)
                else None) (headerIndices headers) !! h
    = MigObs.firstCell h headers record).
  { rewrite map_lookup_imap, headerIndices_lookup.
    transitivity (MigObs.firstCell h headers (drop 0 record));
      [|by rewrite drop_0].
    rewrite <- firstCell_positions.
    destruct (MigObs.positionsFrom 0 h headers) as [|p l]; simpl; [done|].
    replace (String.eqb h "Comment") with false
      by (symmetry; by apply String.eqb_neq).
    simpl. f_equal.
    destruct (p <? length record)%nat eqn:E; [done|].
    apply Nat.ltb_ge in E. symmetry. by apply nth_overflow. }
  unfold pivotalRow.
  destruct (headerIndices headers !! "Comment"%string) as [ci|]; [|exact Hrow].
  destruct (0 <? length ci)%nat; [|exact Hrow].
  rewrite lookup_insert_ne by done. exact Hrow.
Qed.

(** X18: when the header row has a Comment column, the Comment of a row is
    made of its non-empty cells under all the Comment headers, left to
    right, joined by the separator line; it is the empty string when there
    is no such cell. *)
Theorem pivotalRow_comment (headers record : list string) :
  "Comment"%string ∈ headers ->
  pivotalRow (headerIndices headers) record !! "Comment"%string
  = Some (Join (List.filter MigObs.nonEmpty
                  (MigObs.cellsUnder "Comment" headers record))
            commentSeparator).
Proof.
  intros Hin. unfold pivotalRow. rewrite headerIndices_lookup.
  assert (Hpos : MigObs.positionsFrom 0 "Comment" headers <> []).
  { clear -Hin. generalize 0%nat.
    induction headers as [|x hs IH]; intros i; [by apply elem_of_nil in Hin|].
    simpl. apply elem_of_cons in Hin as [<-|Hin].
    - by rewrite String.eqb_refl.
    - intros Happ. apply app_eq_nil in Happ as [_ Happ]. by eapply IH. }
  destruct (MigObs.positionsFrom 0 "Comment" headers) as [|p l] eqn:Hp; [done|].
  change (0 <? length (p :: l))%nat with true. cbv iota.
  rewrite lookup_insert_eq. f_equal.
  rewrite <- Hp, cellsUnder_positions, drop_0.
  by destruct (List.filter _ _).
Qed.

Lemma pivotalRow_first_column_witness :
  "Title"%string <> "Comment"%string /\
  Sample3.story !! "Title"%string = Some "Login page"%string.
Proof.
  split; [discriminate|].
  apply (pivotalRow_first_column Sample3.exportHeaders Sample3.exportRow
           "Title").
  discriminate.
Defined.

Lemma pivotalRow_comment_witness :
  "Comment"%string ∈ Sample3.exportHeaders /\
  Sample3.story !! "Comment"%string
  = Some (Join ["first"; "second"]%string commentSeparator).
Proof.
  assert (Hin : "Comment"%string ∈ Sample3.exportHeaders).
  { unfold Sample3.exportHeaders. do 3 apply list_elem_of_further.
    apply list_elem_of_here. }
  split; [exact Hin|].
  apply (pivotalRow_comment Sample3.exportHeaders Sample3.exportRow Hin).
Defined.

End ConvertFacts.

(** ** The Convert phase, run *)

Module ConvertRun.
Import Services Migration.

Lemma logged_refl {J CE} (s : State J CE) : MigObs.logged s s [].
Proof. unfold MigObs.logged. simpl. by rewrite app_nil_r. Qed.

Lemma logged_trans {J CE} (s1 s2 s3 : State J CE) (l1 l2 : list LogLine) :
  MigObs.logged s1 s2 l1 -> MigObs.logged s2 s3 l2 ->
  MigObs.logged s1 s3 (l1 ++ l2).
Proof.
  unfold MigObs.logged. intros (-> & -> & -> & ->) (-> & -> & -> & ->).
  by rewrite map_app, app_assoc.
Qed.

Lemma logged_log {J CE} (s : State J CE) (l : LogLine) :
  MigObs.logged s (mkState (jira s) (ledger s) (folder s) (trace s ++ [Log l])) [l].
Proof. by unfold MigObs.logged. Qed.

Lemma StatusMapping_lookup (x : string) :
  ConfigMap.StatusMapping !! x =
  (if String.eqb x "unscheduled" then Some "Backlog"
   else if String.eqb x "unstarted" then Some "Backlog"
   else if String.eqb x "started" then Some "進行中"
   else if String.eqb x "finished" then Some "REVIEWS"
   else if String.eqb x "delivered" then Some "RELEASED"
   else if String.eqb x "accepted" then Some "受け入れ済み"
   else if String.eqb x "rejected" then Some "Backlog"
   else None)%string.
Proof.
  unfold ConfigMap.StatusMapping. cbn [list_to_map foldr uncurry fst snd].
  repeat match goal with
         | |- context [String.eqb x ?k] =>
             destruct (String.eqb x k) eqn:?E;
             [apply String.eqb_eq in E; subst x; by rewrite ?lookup_insert_eq
             |apply String.eqb_neq in E; rewrite lookup_insert_ne by done; clear E]
         end.
  apply lookup_empty.
Qed.

Section Facts.

Variable J : Type.
Variable ClientError : Type.
Variable checkAuth : J -> J * option ClientError.
Variable createIssue : J -> CreateArgs -> J * res ClientError string.
Variable updateStoryPoints : J -> string -> Z -> J * option ClientError.
Variable updateStatus : J -> string -> string -> J * option ClientError.
Variable addComment : J -> string -> string -> J * option ClientError.
Variable uploadAttachment :
  J -> string -> list string -> J * option ClientError.
Variable unicodeLower : string -> string.
Variable TrimSpace : string -> string.
Variable scanInt : string -> Z.
Variable Atoi : string -> Z.
Variable Itoa : Z -> string.
Variable Time : Type.
Variable timeParse : string -> string -> option Time.
Variable timeFormat : Time -> string -> string.
Variable config : Config.
Variable PivotalCSV : Input.

Abbreviation St := (State J ClientError).
Abbreviation readPivotalCSV := (ReadPivotalCSV J ClientError PivotalCSV).
Abbreviation rows_ := (readRows J ClientError).
Abbreviation dateFormat := (convertDateFormat J ClientError Time timeParse timeFormat).
Abbreviation jiraRecord_ :=
  (jiraRecord J ClientError unicodeLower Atoi Itoa Time timeParse timeFormat).
Abbreviation convertRows_ :=
  (convertRows J ClientError unicodeLower Atoi Itoa Time timeParse timeFormat).
Abbreviation process :=
  (ProcessPivotalToJiraCSV J ClientError unicodeLower Atoi Itoa Time timeParse
     timeFormat).
Abbreviation writeJiraCSV := (WriteJiraCSV J ClientError).
Abbreviation convertCSV :=
  (ConvertCSV J ClientError unicodeLower Atoi Itoa Time timeParse timeFormat
     PivotalCSV).

(** The loop of [ReadPivotalCSV]: it stops at the first row with more
    fields than the header row, and else gives one record per row. *)
Lemma readRows_run (headers : list string) (indices : gmap string (list nat))
    (rows : list (list string)) :
  forall (i : nat) (result : list (gmap string string)) (s : St),
  exists (lines : list LogLine) (s' : St),
    rows_ headers indices i rows result s =
      Some (match list_find (fun r => (length headers < length r)%nat) rows with
            | Some (k, row) =>
                Err (ErrRowTooLong (Z.of_nat (i + k) + 2)
                       (Z.of_nat (length headers)) (Z.of_nat (length row)))
            | None =>
                Ok (result ++ map (fun r => pivotalRow indices
                                              (padded (length headers) r)) rows)
            end, s') /\
    MigObs.logged s s' lines.
Proof.
  induction rows as [|record rest IH]; intros i result s.
  { exists [], s. simpl. rewrite app_nil_r. split; [done|apply logged_refl]. }
  cbn [readRows list_find].
  destruct (decide (length headers < length record)%nat) as [Hlong|Hok].
  { replace (length headers <? length record)%nat with true
      by (symmetry; by apply Nat.ltb_lt).
    exists [], s. replace (i + 0)%nat with i by lia.
    split; [done|apply logged_refl]. }
  replace (length headers <? length record)%nat with false
    by (symmetry; apply Nat.ltb_ge; lia).
  destruct (length record <? length headers)%nat eqn:Hshort.
  - unfold bind at 1. unfold bind at 1. unfold log at 1. unfold ret at 1.
    cbn beta iota.
    match goal with
    | |- context [readRows _ _ _ _ _ _ ?r ?s1] =>
        destruct (IH (S i) r s1) as (lines & s' & -> & Hlog)
    end.
    eexists (_ :: lines), s'. split.
    + destruct (list_find _ rest) as [[k row]|]; simpl.
      * by replace (i + S k)%nat with (S i + k)%nat by lia.
      * by rewrite <- app_assoc.
    + eapply (logged_trans _ _ _ [_]); [apply logged_log|exact Hlog].
  - unfold bind at 1. unfold ret at 1.
    destruct (IH (S i) (result ++ [pivotalRow indices record]) s)
      as (lines & s' & -> & Hlog).
    exists lines, s'. split; [|exact Hlog].
    assert (Hpad : padded (length headers) record = record).
    { unfold padded. apply Nat.ltb_ge in Hshort.
      replace (length headers - length record)%nat with 0%nat by lia.
      apply app_nil_r. }
    destruct (list_find _ rest) as [[k row]|]; simpl.
    * by replace (i + S k)%nat with (S i + k)%nat by lia.
    * by rewrite <- app_assoc, Hpad.
Qed.

(** X19: on an export with a header row and one more row at least,
    [ReadPivotalCSV] fails at the first row that has more fields than the
    header row, naming its line (the first data row is line 2), and else
    returns one record per row, in order, rows that are too short filled up
    with empty cells.  Besides that it only logs. *)
Theorem ReadPivotalCSV_rows (s : St) (headers : list string)
    (rows : list (list string)) :
  MigObs.sourceOf PivotalCSV (ledger s) = Records (headers :: rows) ->
  rows <> [] ->
  exists (lines : list LogLine) (s' : St),
    readPivotalCSV s =
      Some (match list_find (fun r => (length headers < length r)%nat) rows with
            | Some (k, row) =>
                Err (ErrRowTooLong (Z.of_nat k + 2)
                       (Z.of_nat (length headers)) (Z.of_nat (length row)))
            | None =>
                Ok (map (fun r => pivotalRow (headerIndices headers)
                                    (padded (length headers) r)) rows)
            end, s') /\
    MigObs.logged s s' lines.
Proof.
  intros Hsrc Hne. unfold ReadPivotalCSV.
  unfold bind at 1. unfold log at 1. unfold bind at 1. unfold readPivotal at 1.
  cbn [ledger]. fold (MigObs.sourceOf PivotalCSV (ledger s)). rewrite Hsrc.
  destruct rows as [|r0 rt]; [done|].
  change (length (headers :: r0 :: rt) <? 2)%nat with false. cbv iota.
  change (hd [] (headers :: r0 :: rt)) with headers.
  change (tl (headers :: r0 :: rt)) with (r0 :: rt).
  unfold bind at 1.
  match goal with
  | |- context [readRows _ _ _ _ _ _ _ ?s1] =>
      destruct (readRows_run headers (headerIndices headers) (r0 :: rt) 0 [] s1)
        as (lines & s' & -> & Hlog)
  end.
  destruct (list_find _ (r0 :: rt)) as [[k row]|].
  - eexists (_ :: lines), s'. split; [done|].
    eapply (logged_trans _ _ _ [_]); [apply logged_log|exact Hlog].
  - eexists (_ :: lines ++ [_]), _. split; [reflexivity|].
    eapply (logged_trans _ _ _ [_]); [apply logged_log|].
    eapply logged_trans; [exact Hlog|apply logged_log].
Qed.

Lemma convertDateFormat_run (dateStr : string) (s : St) :
  exists (v : string) (lines : list LogLine) (s' : St),
    dateFormat dateStr s = Some (v, s') /\ MigObs.logged s s' lines.
Proof.
  unfold convertDateFormat.
  destruct (String.eqb dateStr "").
  { exists EmptyString, [], s. split; [done|apply logged_refl]. }
  destruct (firstParse Time timeParse formats dateStr) as [t|].
  - eexists _, [], s. split; [reflexivity|apply logged_refl].
  - eexists _, [_], _. split; [reflexivity|apply logged_log].
Qed.

Lemma jiraRecord_run (record : gmap string string) (s : St) :
  exists (r : gmap string string) (lines : list LogLine) (s' : St),
    jiraRecord_ record s = Some (r, s') /\
    MigObs.logged s s' lines /\
    MigObs.converted unicodeLower record r.
Proof.
  unfold jiraRecord. cbv zeta.
  destruct (convertDateFormat_run (get record "Created at") s)
    as (created & l1 & s1 & Hc & Hl1).
  destruct (convertDateFormat_run (get record "Accepted at") s1)
    as (resolved & l2 & s2 & Hr & Hl2).
  unfold bind at 1. rewrite Hc. unfold bind at 1. rewrite Hr. unfold ret.
  eexists _, (l1 ++ l2), s2. split; [reflexivity|].
  split; [by eapply logged_trans|].
  unfold MigObs.converted, MigObs.carried, ToLower.
  repeat split;
    try (repeat (rewrite lookup_insert_ne by done); by rewrite lookup_insert_eq).
Qed.

Lemma convertRows_run (n : nat) (records : list (gmap string string)) :
  forall (i : nat) (result : list (gmap string string)) (s : St),
  exists (rs : list (gmap string string)) (lines : list LogLine) (s' : St),
    convertRows_ n i records result s = Some (result ++ rs, s') /\
    MigObs.logged s s' lines /\
    Forall2 (MigObs.converted unicodeLower) records rs.
Proof.
  induction records as [|record rest IH]; intros i result s.
  { exists [], [], s. simpl. rewrite app_nil_r.
    split; [done|]. split; [apply logged_refl|constructor]. }
  cbn [convertRows].
  destruct (jiraRecord_run record s) as (r & l1 & s1 & Hr & Hl1 & Hconv).
  unfold bind at 1. rewrite Hr. unfold bind at 1.
  destruct ((0 <? i)%nat && (i mod 100 =? 0)%nat).
  - unfold log at 1.
    match goal with
    | |- context [convertRows _ _ _ _ _ _ _ _ _ _ _ ?res ?s2] =>
        destruct (IH (S i) res s2) as (rs & l2 & s' & -> & Hl2 & Hall)
    end.
    eexists (r :: rs), (l1 ++ [_] ++ l2), s'.
    split; [by rewrite <- app_assoc|]. split; [|by constructor].
    eapply logged_trans; [exact Hl1|].
    eapply logged_trans; [apply logged_log|exact Hl2].
  - unfold ret at 1.
    destruct (IH (S i) (result ++ [r]) s1)
      as (rs & l2 & s' & -> & Hl2 & Hall).
    eexists (r :: rs), (l1 ++ l2), s'.
    split; [by rewrite <- app_assoc|]. split; [|by constructor].
    by eapply logged_trans.
Qed.

Lemma process_run (records : list (gmap string string)) (s : St) :
  records <> [] ->
  exists (result : list (gmap string string)) (lines : list LogLine) (s' : St),
    process records s = Some (Ok result, s') /\
    MigObs.logged s s' lines /\
    Forall2 (MigObs.converted unicodeLower) records result.
Proof.
  intros Hne. unfold ProcessPivotalToJiraCSV.
  unfold bind at 1. unfold log at 1.
  replace (length records =? 0)%nat with false by (by destruct records).
  unfold bind at 1.
  match goal with
  | |- context [convertRows _ _ _ _ _ _ _ _ _ _ _ _ ?s1] =>
      destruct (convertRows_run (length records) records 0 [] s1)
        as (rs & l & s' & -> & Hl & Hall)
  end.
  simpl. eexists rs, (_ :: l ++ [_]), _. split; [reflexivity|].
  split; [|exact Hall].
  eapply (logged_trans _ _ _ [_]); [apply logged_log|].
  eapply logged_trans; [exact Hl|apply logged_log].
Qed.

(** X20: [ProcessPivotalToJiraCSV] on one record at least returns one
    record per record, in order; the keys of each are exactly the headers
    [WriteJiraCSV] writes, the id, title, description, labels, type,
    assignee, reporter and comment are those of the export, and the JIRA
    key is blank.  Besides that it only logs. *)
Theorem ProcessPivotalToJiraCSV_carries
    (records : list (gmap string string)) (s : St) :
  records <> [] ->
  exists (result : list (gmap string string)) (lines : list LogLine) (s' : St),
    process records s = Some (Ok result, s') /\
    MigObs.logged s s' lines /\
    Forall2 MigObs.carried records result.
Proof.
  intros Hne.
  destruct (process_run records s Hne) as (result & lines & s' & Hrun & Hl & Hall).
  exists result, lines, s'. split; [exact Hrun|]. split; [exact Hl|].
  eapply Forall2_impl; [exact Hall|]. by intros rec r [Hc _].
Qed.

Lemma moving_status (x : string) :
  negb (String.eqb (get ConfigMap.StatusMapping x) "")
  && negb (String.eqb (get ConfigMap.StatusMapping x) "Backlog") = true
  <-> x ∈ MigObs.movingStates.
Proof.
  unfold get, MigObs.movingStates. rewrite StatusMapping_lookup.
  repeat match goal with
         | |- context [String.eqb x ?k] =>
             destruct (String.eqb x k) eqn:?E;
             [apply String.eqb_eq in E; subst x; simpl;
              split;
              [intros H; first [discriminate H|set_solver]
              |intros Hin;
               first [reflexivity
                     |exfalso;
                      repeat (apply elem_of_cons in Hin as [Hin|Hin];
                              [discriminate|]);
                      by apply elem_of_nil in Hin]]
             |apply String.eqb_neq in E;
              let H := fresh "Hne" in rename E into H]
         end.
  simpl. split; [intros; discriminate|]. intros Hin.
  repeat (apply elem_of_cons in Hin as [Hin|Hin]; [done|]).
  by apply elem_of_nil in Hin.
Qed.

Lemma followUps_status (r : gmap string string) (issueKey : string) :
  (exists st, In (Obs.UpdateStatus issueKey st)
                (Obs.followUps scanInt r issueKey))
  <-> negb (String.eqb (get r "JIRA Status") "")
      && negb (String.eqb (get r "JIRA Status") "Backlog") = true.
Proof.
  unfold Obs.followUps.
  destruct (negb (String.eqb (get r "JIRA Status") "")
            && negb (String.eqb (get r "JIRA Status") "Backlog")).
  - split; [done|]. intros _. eexists. apply in_or_app. right.
    apply in_or_app. left. by left.
  - split; [|done]. intros [st Hin].
    apply in_app_or in Hin as [Hin|Hin];
      [|apply in_app_or in Hin as [Hin|Hin]].
    + destruct (_ && _); simpl in Hin; [destruct Hin as [?|[]]|]; done.
    + destruct Hin.
    + destruct (negb _); simpl in Hin; [destruct Hin as [?|[]]|]; done.
Qed.

(** X21: a converted record makes [processRecord] call [UpdateStatus]
    exactly when the lower-cased state of the story in the export is one
    of started, finished, delivered and accepted: the states mapped to
    Backlog and every state that [config.StatusMapping] does not know lead
    to no status call. *)
Theorem converted_status_calls (records result : list (gmap string string))
    (s s' : St) :
  process records s = Some (Ok result, s') ->
  Forall2 (fun record r =>
             forall issueKey,
               (exists st, In (Obs.UpdateStatus issueKey st)
                             (Obs.followUps scanInt r issueKey))
               <-> GoStrings.ToLower unicodeLower (get record "Current State")
                   ∈ MigObs.movingStates)
    records result.
Proof.
  intros Hrun.
  destruct (decide (records = [])) as [->|Hne].
  { by vm_compute in Hrun. }
  destruct (process_run records s Hne) as (result' & lines & s2 & Hrun' & _ & Hall).
  rewrite Hrun in Hrun'. injection Hrun' as <- <-.
  eapply Forall2_impl; [exact Hall|].
  intros record r [_ Hst] issueKey.
  rewrite followUps_status. unfold get at 1 2. rewrite Hst. simpl.
  apply moving_status.
Qed.

(** [WriteJiraCSV] on one record at least: it fails only when the ledger
    cannot be created. *)
Lemma writeJiraCSV_run (records : list (gmap string string)) (s : St) :
  records <> [] ->
  writeJiraCSV records s =
  Some (if writable (ledger s) then
          (None,
           mkState (jira s)
             (mkFile (Some (jiraHeaders :: map jiraRow records)) true)
             (folder s)
             (trace s ++ map Log [InfoWritingJira;
                                  InfoWritten (Z.of_nat (length records))]))
        else
          (Some (Svc ErrCSVCreate),
           mkState (jira s) (ledger s) (folder s)
             (trace s ++ map Log [InfoWritingJira]))).
Proof.
  intros Hne. unfold WriteJiraCSV, bind, log, getLedger, putLedger, ret.
  replace (length records =? 0)%nat with false by (by destruct records).
  simpl. destruct (writable (ledger s)); simpl; [|done].
  by rewrite <- app_assoc.
Qed.

Lemma jiraRow_carried (record r : gmap string string) :
  MigObs.carried record r ->
  length (jiraRow r) = length jiraHeaders /\
  cell (jiraRow r) 12 = EmptyString.
Proof.
  intros (_ & _ & _ & _ & _ & _ & _ & _ & _ & Hkey).
  split; [apply length_map|].
  unfold cell, jiraRow, jiraHeaders, get. simpl. by rewrite Hkey.
Qed.

(** [ConvertCSV], run. *)
Lemma convertCSV_run (s : St) :
  exists (out : option (error ClientError)) (s' : St) (lines : list LogLine),
    convertCSV s = Some (out, s') /\
    jira s' = jira s /\ folder s' = folder s /\
    trace s' = trace s ++ map Log lines /\
    match out with
    | None =>
        exists rows,
          ledger s' = mkFile (Some (jiraHeaders :: rows)) true /\
          rows <> [] /\
          Forall (fun row => length row = length jiraHeaders
                             /\ cell row 12 = EmptyString) rows
    | Some e =>
        ledger s' = ledger s /\
        ((exists cause, e = ErrPivotalRead cause)
         \/ e = ErrJiraWrite (Svc ErrCSVCreate))
    end.
Proof.
  unfold ConvertCSV. unfold bind at 1.
  assert (Hread : exists r s1 l1,
             readPivotalCSV s = Some (r, s1) /\ MigObs.logged s s1 l1 /\
             forall records, r = Ok records -> records <> []).
  { destruct (MigObs.sourceOf PivotalCSV (ledger s)) as [| |raw] eqn:Hsrc.
    1,2: unfold ReadPivotalCSV, bind, log, readPivotal, ret; cbn [ledger];
         fold (MigObs.sourceOf PivotalCSV (ledger s)); rewrite Hsrc;
         eexists _, _, [_]; split; [reflexivity|];
         split; [apply logged_log|done].
    destruct raw as [|headers [|r0 rt]].
    1,2: unfold ReadPivotalCSV, bind, log, readPivotal, ret; cbn [ledger];
         fold (MigObs.sourceOf PivotalCSV (ledger s)); rewrite Hsrc;
         eexists _, _, [_]; split; [reflexivity|];
         split; [apply logged_log|done].
    destruct (ReadPivotalCSV_rows s headers (r0 :: rt) Hsrc ltac:(done))
      as (l1 & s1 & Hrun & Hl1).
    eexists _, s1, l1. split; [exact Hrun|]. split; [exact Hl1|].
    intros records. destruct (list_find _ _) as [[k row]|]; [done|].
    intros [= <-]. done. }
  destruct Hread as (r & s1 & l1 & -> & Hl1 & Hne).
  destruct r as [records|e].
  2:{ unfold ret. destruct Hl1 as (Hj & Hf & Hd & Ht).
      eexists _, s1, l1. split; [reflexivity|]. repeat split; eauto. }
  specialize (Hne records eq_refl).
  destruct (process_run records s1 Hne)
    as (result & l2 & s2 & Hproc & Hl2 & Hall).
  unfold bind at 1. rewrite Hproc.
  assert (Hres : result <> []).
  { intros ->. apply Forall2_nil_inv_r in Hall. done. }
  unfold bind at 1. rewrite (writeJiraCSV_run result s2 Hres).
  destruct Hl1 as (Hj1 & Hf1 & Hd1 & Ht1).
  destruct Hl2 as (Hj2 & Hf2 & Hd2 & Ht2).
  destruct (writable (ledger s2)).
  - unfold bind, log, ret. cbn [jira ledger folder trace].
    eexists None, _, (l1 ++ l2 ++ [_; _; _]). split; [reflexivity|].
    cbn [jira ledger folder trace].
    split; [congruence|]. split; [congruence|].
    split.
    { rewrite Ht2, Ht1, !map_app, <- !app_assoc. reflexivity. }
    exists (map jiraRow result). split; [done|].
    split; [by destruct result|].
    clear -Hall. induction Hall as [|rec r recs rs [Hc _] _ IH]; simpl;
      [constructor|].
    constructor; [by eapply jiraRow_carried|exact IH].
  - unfold ret. cbn [jira ledger folder trace].
    eexists (Some _), _, (l1 ++ l2 ++ [_]). split; [reflexivity|].
    cbn [jira ledger folder trace].
    split; [congruence|]. split; [congruence|].
    split.
    { rewrite Ht2, Ht1, !map_app, <- !app_assoc. reflexivity. }
    split; [congruence|]. by right.
Qed.


Lemma loadRecords_blank (rows : list (list string)) :
  Forall (fun row => length row = length jiraHeaders
                     /\ cell row 12 = EmptyString) rows ->
  foldl (loadRecord 0 12) ∅ rows = ∅.
Proof.
  induction 1 as [|row rows [Hlen Hkey] _ IH]; simpl; [done|].
  unfold loadRecord at 2. rewrite Hkey. simpl.
  rewrite andb_false_r. by destruct (_ <=? _).
Qed.

(** X23: after a successful [ConvertCSV] the ledger holds the header row
    of [WriteJiraCSV] and at least one row, every row as long as the header
    row, and no row has a key: [LoadIssueMapping] reads the empty mapping
    from it, whatever keys the ledger held before. *)
Theorem ConvertCSV_blanks_keys (s s' : St) :
  convertCSV s = Some (None, s') ->
  exists rows,
    ledger s' = mkFile (Some (jiraHeaders :: rows)) true /\
    rows <> [] /\
    Forall (fun row => length row = length jiraHeaders) rows /\
    LoadIssueMapping J ClientError
      (mkWorld (jira s') (ledger s') (folder s') [])
    = Some (Ok ∅,
            mkWorld (jira s') (ledger s') (folder s')
              [EvLog InfoLoadingMapping; EvLog (InfoMappingLoaded 0)]).
Proof.
  intros Hrun.
  destruct (convertCSV_run s) as (out & s2 & lines & Hrun' & _ & _ & _ & Hout).
  rewrite Hrun in Hrun'. injection Hrun' as <- <-.
  destruct Hout as (rows & Hl & Hne & Hall).
  exists rows. split; [exact Hl|]. split; [exact Hne|].
  assert (Hu : Forall (fun row => length row = length jiraHeaders) rows).
  { eapply Forall_impl; [exact Hall|]. by intros row [? _]. }
  split; [exact Hu|].
  unfold LoadIssueMapping, bind, log, emit, getFile, ret. simpl.
  rewrite Hl. cbn [content].
  rewrite (LedgerFacts.csv_ReadAll_uniform _ _ Hu).
  destruct rows as [|r0 rt]; [done|].
  change (length (jiraHeaders :: r0 :: rt) <? 2)%nat with false. cbv iota.
  change (hd [] (jiraHeaders :: r0 :: rt)) with jiraHeaders.
  change (tl (jiraHeaders :: r0 :: rt)) with (r0 :: rt).
  change (scanHeaders2 0 jiraHeaders (-1, -1)) with (0, 12).
  cbv iota beta. change ((0 =? -1) || (12 =? -1)) with false. cbv iota.
  rewrite (loadRecords_blank _ Hall). simpl. done.
Qed.

End Facts.

Lemma ReadPivotalCSV_rows_witness :
  exists lines s',
    Sample3.readPivotalCSV Sample3.start = Some (Ok [Sample3.story], s') /\
    MigObs.logged Sample3.start s' lines.
Proof.
  apply (ReadPivotalCSV_rows nat string Sample3.export Sample3.start
           Sample3.exportHeaders [Sample3.exportRow]).
  - reflexivity.
  - discriminate.
Defined.

Lemma ProcessPivotalToJiraCSV_carries_witness :
  exists result lines s',
    Sample3.process [Sample3.story] Sample3.start = Some (Ok result, s') /\
    MigObs.logged Sample3.start s' lines /\
    Forall2 MigObs.carried [Sample3.story] result.
Proof.
  apply (ProcessPivotalToJiraCSV_carries nat string Sample.lower Sample3.atoi
           Sample3.itoa unit Sample3.timeParse Sample3.timeFormat
           [Sample3.story] Sample3.start).
  discriminate.
Defined.

Lemma converted_status_calls_witness :
  Sample3.process [Sample3.story] Sample3.start
    = Some (Ok Sample3.converted, Sample3.afterProcess) /\
  Forall2 (fun record r =>
             forall issueKey,
               (exists st, In (Obs.UpdateStatus issueKey st)
                             (Obs.followUps Sample.scanInt r issueKey))
               <-> GoStrings.ToLower Sample.lower (get record "Current State")
                   ∈ MigObs.movingStates)
    [Sample3.story] Sample3.converted.
Proof.
  assert (Hrun : Sample3.process [Sample3.story] Sample3.start
                 = Some (Ok Sample3.converted, Sample3.afterProcess)).
  { vm_compute. reflexivity. }
  split; [exact Hrun|].
  apply (converted_status_calls nat string Sample.lower Sample.scanInt
           Sample3.atoi Sample3.itoa unit Sample3.timeParse
           Sample3.timeFormat [Sample3.story] Sample3.converted
           Sample3.start Sample3.afterProcess).
  exact Hrun.
Defined.

Lemma ConvertCSV_blanks_keys_witness :
  exists s' rows,
    Sample3.convertCSV Sample3.later = Some (None, s') /\
    ledger s' = mkFile (Some (jiraHeaders :: rows)) true /\
    LoadIssueMapping nat string (mkWorld (jira s') (ledger s') (folder s') [])
    = Some (Ok ∅,
            mkWorld (jira s') (ledger s') (folder s')
              [EvLog InfoLoadingMapping; EvLog (InfoMappingLoaded 0)]).
Proof.
  eexists _. 
  assert (Hrun : Sample3.convertCSV Sample3.later
                 = Some (None, snd (default (None, Sample3.later)
                                      (Sample3.convertCSV Sample3.later)))).
  { vm_compute. reflexivity. }
  destruct (ConvertCSV_blanks_keys nat string Sample.lower Sample3.atoi
              Sample3.itoa unit Sample3.timeParse Sample3.timeFormat
              Sample3.export Sample3.later _ Hrun)
    as (rows & Hl & _ & _ & Hload).
  exists rows. split; [exact Hrun|]. split; [exact Hl|exact Hload].
Defined.

End ConvertRun.

(** ** What the Import and Upload phases leave alone *)

Module QuietFacts.
Import Services LedgerFacts PhaseFacts.

Section Facts.

Variable J : Type.
Variable ClientError : Type.
Variable createIssue : J -> CreateArgs -> J * res ClientError string.
Variable updateStoryPoints : J -> string -> Z -> J * option ClientError.
Variable updateStatus : J -> string -> string -> J * option ClientError.
Variable addComment : J -> string -> string -> J * option ClientError.
Variable uploadAttachment :
  J -> string -> list string -> J * option ClientError.
Variable unicodeLower : string -> string.
Variable TrimSpace : string -> string.
Variable scanInt : string -> Z.
Variable config : Config.

Abbreviation W := (World J ClientError).
Abbreviation process :=
  (processRecord J ClientError createIssue updateStoryPoints updateStatus
     addComment unicodeLower TrimSpace scanInt).
Abbreviation work :=
  (worker J ClientError createIssue updateStoryPoints updateStatus
     addComment unicodeLower TrimSpace scanInt).
Abbreviation workers :=
  (runWorkers J ClientError createIssue updateStoryPoints updateStatus
     addComment unicodeLower TrimSpace scanInt).
Abbreviation import :=
  (ImportIssues J ClientError createIssue updateStoryPoints updateStatus
     addComment unicodeLower TrimSpace scanInt config).
Abbreviation updateKeys := (UpdateJiraKeysWithErrorFlags J ClientError).
Abbreviation readCSV := (ReadCSV J ClientError).
Abbreviation upload :=
  (UploadAttachments J ClientError uploadAttachment config).
Abbreviation upFile := (uploadFile J ClientError uploadAttachment config).
Abbreviation upGroup := (uploadGroup J ClientError uploadAttachment config).

Lemma uploads_of_calls (evs : list (Event ClientError)) :
  Spec.uploads evs =
  omap (fun c => match c with
                 | Obs.UploadAttachment k p => Some (k, p)
                 | _ => None
                 end) (Obs.calls evs).
Proof.
  induction evs as [|e evs IH]; [done|].
  destruct e; simpl; unfold Spec.uploads, Obs.calls in *; simpl; by rewrite ?IH.
Qed.

(** [processRecord] uploads nothing. *)
Lemma processRecord_quiet (record : gmap string string) (w : W) :
  exists r (w' : W),
    process record w = Some (r, w') /\
    Spec.uploads (trace w') = Spec.uploads (trace w).
Proof.
  destruct (RecordMore.processRecord_run J ClientError createIssue
              updateStoryPoints updateStatus addComment unicodeLower TrimSpace
              scanInt record w) as (w' & evs & Hrun & Htr & _ & _ & Hcalls).
  eexists _, w'. split; [exact Hrun|].
  rewrite Htr, UploadFacts.uploads_app, (uploads_of_calls evs), Hcalls.
  simpl. destruct (snd (createIssue _ _)) as [issueKey|e];
    [|by rewrite app_nil_r].
  unfold Obs.followUps. rewrite !omap_app.
  repeat match goal with
         | |- context [if ?c then _ else _] => destruct c
         end; simpl; by rewrite app_nil_r.
Qed.

Lemma worker_quiet (idx : nat) (rec : gmap string string) (a : Results)
    (w : W) :
  exists a' (w' : W),
    work idx rec a w = Some (a', w') /\
    Spec.uploads (trace w') = Spec.uploads (trace w).
Proof.
  unfold worker.
  set (pre := match rec !! "Error"%string with
              | Some errorFlag => _ | None => _ end).
  assert (Hpre : exists w0 : W, pre w = Some (tt, w0)
            /\ Spec.uploads (trace w0) = Spec.uploads (trace w)).
  { unfold pre. destruct w as [j f d tr]. simpl.
    destruct (rec !! "Error"%string) as [flag|];
      [destruct (String.eqb flag "1")|];
      unfold log, emit, ret; simpl; eexists; (split; [reflexivity|]); simpl;
      rewrite ?UploadFacts.uploads_app; simpl; by rewrite ?app_nil_r. }
  destruct Hpre as (w0 & Hpre & Hq0).
  unfold bind at 1. rewrite Hpre.
  destruct (processRecord_quiet rec w0) as (r & w1 & Hrun & Hq1).
  unfold bind at 1. rewrite Hrun.
  destruct r as [issueKey|e]; unfold bind, log, emit, ret; simpl;
    eexists _, _; (split; [reflexivity|]); simpl;
    rewrite UploadFacts.uploads_app; simpl; rewrite app_nil_r; congruence.
Qed.

Lemma workers_quiet (records : list (gmap string string)) (sched : list nat) :
  forall (a : Results) (w : W),
  exists a' (w' : W),
    workers records sched a w = Some (a', w') /\
    Spec.uploads (trace w') = Spec.uploads (trace w).
Proof.
  induction sched as [|idx sched IH]; intros a w.
  - by exists a, w.
  - unfold runWorkers. simpl. fold (workers records sched).
    destruct (records !! idx) as [rec|].
    + destruct (worker_quiet idx rec a w) as (a1 & w1 & Hrun & Hq).
      unfold bind. rewrite Hrun.
      destruct (IH a1 w1) as (a2 & w2 & Hrun2 & Hq2).
      exists a2, w2. split; [exact Hrun2|congruence].
    + unfold bind, ret. simpl. apply IH.
Qed.

Lemma updateKeys_quiet (mapping : gmap string string)
    (errorFlags : gmap string bool) (w w' : W)
    (e : option (error ClientError)) :
  updateKeys mapping errorFlags w = Some (e, w') ->
  Spec.uploads (trace w') = Spec.uploads (trace w) /\
  folder w' = folder w /\ jira w' = jira w.
Proof.
  unfold UpdateJiraKeysWithErrorFlags. eff_open. intros Hrun.
  repeat case_match; simplify_eq; simpl;
    rewrite ?UploadFacts.uploads_app; simpl; by rewrite ?app_nil_r.
Qed.

(** [ImportIssues], whenever it returns: no attachment has been uploaded,
    the folder is as before, and after a nil result the ledger is the
    rewrite of the one the phase started from. *)
Lemma import_inv (sched : list nat) (w w' : W)
    (out : option (error ClientError)) :
  import sched w = Some (out, w') ->
  Spec.uploads (trace w') = Spec.uploads (trace w) /\
  folder w' = folder w /\
  (out = None ->
   exists mapping errorFlags (w2 w3 : W),
     csv w2 = csv w /\
     updateKeys mapping errorFlags w2 = Some (None, w3) /\
     csv w' = csv w3).
Proof.
  destruct (ImportFacts.readCSV_pure J ClientError w) as (r & Hread & Hne).
  destruct r as [records|e].
  2:{ unfold ImportIssues. unfold bind at 1. rewrite Hread. eff_open.
      intros [= <- <-]. simpl. rewrite UploadFacts.uploads_app. simpl.
      by rewrite app_nil_r. }
  specialize (Hne records eq_refl).
  assert (Hlen : Nat.eqb (length records) 0 = false) by (by destruct records).
  destruct (decide (MaxConcurrent config < 1)) as [Hlt|Hge].
  { unfold ImportIssues. unfold bind at 1. rewrite Hread.
    unfold bind at 1. unfold bind at 1. unfold log at 1, emit at 1.
    destruct (MaxConcurrent config <? 0) eqn:E1; [done|].
    replace (MaxConcurrent config =? 0) with true by lia.
    by rewrite Hlen. }
  destruct (workers_run J ClientError createIssue updateStoryPoints
              updateStatus addComment unicodeLower TrimSpace scanInt
              records sched (mkResults ∅ ∅ 0)
              (Spec.after w [EvLog (InfoImportStart
                                      (Z.of_nat (length records)))]))
    as (outs & w2 & Hwork & _ & _ & Hcsv2 & Hfol2 & _).
  destruct (workers_quiet records sched (mkResults ∅ ∅ 0)
              (Spec.after w [EvLog (InfoImportStart
                                      (Z.of_nat (length records)))]))
    as (a' & w2' & Hwork' & Hq2).
  rewrite Hwork in Hwork'. injection Hwork' as <- <-.
  destruct (RewriteFacts.updateKeys_total J ClientError
              (resultMapping (foldl Spec.tally (mkResults ∅ ∅ 0) outs))
              (errorFlags (foldl Spec.tally (mkResults ∅ ∅ 0) outs)) w2)
    as (e & w3 & Hupd).
  rewrite (import_steps J ClientError createIssue updateStoryPoints
             updateStatus addComment unicodeLower TrimSpace scanInt
             config w w2 w3 records sched _ e Hread ltac:(lia) Hwork Hupd).
  destruct (updateKeys_quiet _ _ _ _ _ Hupd) as (Hq3 & Hfol3 & _).
  simpl in Hq2, Hcsv2, Hfol2. rewrite UploadFacts.uploads_app in Hq2.
  simpl in Hq2. rewrite app_nil_r in Hq2.
  destruct e as [e|]; intros [= <- <-]; simpl;
    rewrite UploadFacts.uploads_app; simpl; rewrite app_nil_r;
    (split; [congruence|]); (split; [congruence|]); [done|].
  intros _. eexists _, _, w2, w3. split; [exact Hcsv2|].
  split; [exact Hupd|done].
Qed.

(** On a ledger whose rows do not all have the length of the header row
    the Upload phase stops at the mapping. *)
Lemma upload_ragged (w : W) (raw : list (list string)) :
  content (csv w) = Some raw ->
  csv_ReadAll raw = None ->
  upload w =
  Some (Some (ErrLoadMapping ErrMappingRead),
        Spec.after w [EvLog InfoLoadingMapping;
                      EvLog (InfoElapsed "attachment upload")]).
Proof.
  intros Hc Hbad. unfold UploadAttachments, LoadIssueMapping, Spec.after.
  eff_open. rewrite Hc, Hbad. simpl. by rewrite <- app_assoc.
Qed.

Lemma uploadFile_keeps (issueFolder : list string) (issueKey : string)
    (file : string * bool) (counts counts' : Z * Z * Z) (w w' : W) :
  upFile issueFolder issueKey file counts w = Some (counts', w') ->
  csv w' = csv w /\
  Spec.createCalls (trace w') = Spec.createCalls (trace w).
Proof.
  unfold uploadFile, UploadAttachment, call. eff_open.
  destruct counts as [[t u] f]. intros Hrun.
  repeat case_match; simplify_eq; simpl;
    rewrite ?createCalls_app; simpl; by rewrite ?app_nil_r.
Qed.

Lemma forEach_keeps {A B} (f : A -> B -> M J ClientError B) (l : list A) :
  (forall x b b' (w w' : W),
     f x b w = Some (b', w') ->
     csv w' = csv w /\
     Spec.createCalls (trace w') = Spec.createCalls (trace w)) ->
  forall b b' (w w' : W),
    forEach J ClientError f l b w = Some (b', w') ->
    csv w' = csv w /\
    Spec.createCalls (trace w') = Spec.createCalls (trace w).
Proof.
  intros Hf. induction l as [|x l IH]; intros b b' w w'; simpl.
  - unfold ret. by intros [= <- <-].
  - unfold bind. destruct (f x b w) as [[b1 w1]|] eqn:Hx; [|done].
    intros Hrest. destruct (Hf _ _ _ _ _ Hx) as [H1 H2].
    destruct (IH _ _ _ _ Hrest) as [H3 H4]. split; congruence.
Qed.

Lemma uploadGroup_keeps (m : gmap string string) (entry : DirEntry)
    (counts counts' : Z * Z * Z) (w w' : W) :
  upGroup m entry counts w = Some (counts', w') ->
  csv w' = csv w /\
  Spec.createCalls (trace w') = Spec.createCalls (trace w).
Proof.
  unfold uploadGroup.
  destruct (negb (IsDir entry)); [unfold ret; by intros [= <- <-]|].
  assert (Hskip : forall l : LogLine ClientError,
            (log J ClientError l ;;; ret counts)%eff w = Some (counts', w') ->
            csv w' = csv w /\
            Spec.createCalls (trace w') = Spec.createCalls (trace w)).
  { intros l. eff_open. intros [= <- <-]. simpl.
    rewrite createCalls_app. simpl. by rewrite app_nil_r. }
  destruct (m !! Name entry) as [k|]; [|apply Hskip].
  destruct (String.eqb k "ERROR"); [apply Hskip|].
  destruct (listing entry) as [files|]; [|apply Hskip].
  apply forEach_keeps. intros. by eapply uploadFile_keeps.
Qed.

(** [UploadAttachments], whenever it returns: the ledger is as before and
    no issue has been created. *)
Lemma upload_keeps (w w' : W) (out : option (error ClientError)) :
  upload w = Some (out, w') ->
  csv w' = csv w /\
  Spec.createCalls (trace w') = Spec.createCalls (trace w).
Proof.
  unfold UploadAttachments. unfold bind at 1.
  destruct (LoadIssueMapping J ClientError w) as [[loaded w1]|] eqn:Hload;
    [|done].
  destruct (UploadFacts.loadMapping_pure _ _ _ _ _ Hload)
    as (Hc1 & Hf1 & _ & logs & Ht1).
  assert (Hq1 : Spec.createCalls (trace w1) = Spec.createCalls (trace w)).
  { rewrite Ht1, createCalls_app.
    replace (Spec.createCalls (map EvLog logs)) with (@nil CreateArgs);
      [by rewrite app_nil_r|].
    clear. induction logs; [done|]. simpl. done. }
  destruct loaded as [m|e].
  2:{ eff_open. intros [= <- <-]. simpl. rewrite createCalls_app. simpl.
      rewrite app_nil_r. done. }
  unfold bind at 1. unfold bind at 1. unfold getFolder at 1.
  destruct (folder w1) as [| |entries] eqn:Hd.
  - eff_open. intros [= <- <-]. simpl. rewrite createCalls_app. simpl.
    rewrite app_nil_r. done.
  - unfold bind at 1. unfold log at 1, emit at 1.
    destruct (MaxConcurrent config <? 0); [done|].
    eff_open. intros [= <- <-]. simpl. rewrite !createCalls_app. simpl.
    rewrite !app_nil_r. done.
  - unfold bind at 1. unfold log at 1, emit at 1.
    destruct (MaxConcurrent config <? 0); [done|].
    unfold bind at 1.
    destruct (forEach _ _ _ _ _ _) as [[counts w2]|] eqn:Hloop; [|done].
    destruct counts as [[t u] f].
    apply (forEach_keeps _ _ (uploadGroup_keeps m)) in Hloop as [Hc2 Hq2].
    simpl in Hc2, Hq2. rewrite createCalls_app in Hq2. simpl in Hq2.
    rewrite app_nil_r in Hq2.
    eff_open. intros [= <- <-]. simpl. rewrite !createCalls_app. simpl.
    rewrite !app_nil_r. split; congruence.
Qed.

End Facts.
End QuietFacts.

(** ** The whole run *)

Module RunFacts.
Import Services Migration.

(** Open the outermost bind of a run that is known to return. *)
Ltac bind_inv H a s E :=
  unfold bind at 1 in H;
  match type of H with
  | match ?m with Some _ => _ | None => None end = Some _ =>
      destruct m as [[a s]|] eqn:E; [|discriminate H]
  end.

Lemma inner_app {CE} (a b : list (Event CE)) :
  MigObs.inner (a ++ b) = MigObs.inner a ++ MigObs.inner b.
Proof. apply omap_app. Qed.

Lemma inner_Inner {CE} (l : list (Services.Event CE)) :
  MigObs.inner (map Inner l) = l.
Proof. induction l as [|e l IH]; [done|]. simpl. by f_equal. Qed.

Lemma inner_Log {CE} (l : list LogLine) :
  MigObs.inner (map (@Log CE) l) = [].
Proof. by induction l. Qed.

Section Facts.

Variable J : Type.
Variable ClientError : Type.
Variable checkAuth : J -> J * option ClientError.
Variable createIssue : J -> CreateArgs -> J * res ClientError string.
Variable updateStoryPoints : J -> string -> Z -> J * option ClientError.
Variable updateStatus : J -> string -> string -> J * option ClientError.
Variable addComment : J -> string -> string -> J * option ClientError.
Variable uploadAttachment :
  J -> string -> list string -> J * option ClientError.
Variable unicodeLower : string -> string.
Variable TrimSpace : string -> string.
Variable scanInt : string -> Z.
Variable Atoi : string -> Z.
Variable Itoa : Z -> string.
Variable Time : Type.
Variable timeParse : string -> string -> option Time.
Variable timeFormat : Time -> string -> string.
Variable config : Config.
Variable PivotalCSV : Input.

Abbreviation St := (State J ClientError).
Abbreviation convertCSV :=
  (ConvertCSV J ClientError unicodeLower Atoi Itoa Time timeParse timeFormat
     PivotalCSV).
Abbreviation importIssues :=
  (ImportIssues J ClientError createIssue updateStoryPoints updateStatus
     addComment unicodeLower TrimSpace scanInt config).
Abbreviation uploadAttachments :=
  (UploadAttachments J ClientError uploadAttachment config).
Abbreviation run :=
  (RunMigration J ClientError checkAuth createIssue updateStoryPoints
     updateStatus addComment uploadAttachment unicodeLower TrimSpace scanInt
     Atoi Itoa Time timeParse timeFormat config PivotalCSV).

(** The Import phase inside a run, whenever it returns. *)
Lemma importIssues_inv (sched : list nat) (s s' : St)
    (out : option (error ClientError)) :
  importIssues sched s = Some (out, s') ->
  exists evs,
    trace s' = trace s ++ map Inner evs /\
    Spec.uploads evs = [] /\
    folder s' = folder s /\
    (out = None ->
     forall headers rows,
       content (ledger s) = Some (headers :: rows) ->
       exists rows',
         ledger s' = mkFile (Some (headers :: rows')) true /\
         rows <> [] /\
         Forall (fun r => length r = length headers) rows /\
         Forall2 (fun r r' =>
                    length r' = if Spec.column "Error" headers =? -1
                                then S (length r) else length r)
           rows rows').
Proof.
  unfold ImportIssues. intros Hrun. bind_inv Hrun e0 s0 Hstep.
  unfold ret in Hrun. injection Hrun as <- <-.
  unfold lift in Hstep.
  destruct (Services.ImportIssues _ _ _ _ _ _ _ _ _ _ _ _) as [[e w']|] eqn:Himp;
    [|done].
  injection Hstep as <- <-.
  destruct (QuietFacts.import_inv _ _ _ _ _ _ _ _ _ _ _ _ _ _ Himp)
    as (Hq & Hfol & Hok).
  exists (Services.trace w'). cbn [trace folder ledger].
  split; [done|]. split; [exact Hq|]. split; [exact Hfol|].
  destruct e as [e|]; [done|]. intros _ headers rows Hc.
  destruct (Hok eq_refl) as (mapping & errorFlags & w2 & w3 & Hc2 & Hupd & Hc3).
  simpl in Hc2.
  destruct (RewriteFacts.updateKeys_success_shape J ClientError mapping
              errorFlags w2 w3 headers rows ltac:(by rewrite Hc2) Hupd)
    as (rows' & Hcsv & Hu & Hne & Hlen).
  exists rows'. by rewrite Hc3, Hcsv.
Qed.

(** The Upload phase inside a run, whenever it returns. *)
Lemma uploadAttachments_inv (s s' : St) (out : option (error ClientError)) :
  uploadAttachments s = Some (out, s') ->
  exists evs,
    trace s' = trace s ++ map Inner evs /\
    Spec.createCalls evs = [] /\
    ledger s' = ledger s.
Proof.
  unfold UploadAttachments. intros Hrun. bind_inv Hrun e0 s0 Hstep.
  unfold ret in Hrun. injection Hrun as <- <-.
  unfold lift in Hstep.
  destruct (Services.UploadAttachments _ _ _ _ _) as [[e w']|] eqn:Hup;
    [|done].
  injection Hstep as <- <-.
  destruct (QuietFacts.upload_keeps _ _ _ _ _ _ _ Hup) as (Hc & Hq).
  exists (Services.trace w'). cbn [trace folder ledger].
  split; [done|]. split; [exact Hq|exact Hc].
Qed.

(** The Upload phase on a ledger with a row longer than the header row. *)
Lemma uploadAttachments_ragged (s : St) (headers : list string)
    (rows : list (list string)) :
  content (ledger s) = Some (headers :: rows) ->
  rows <> [] ->
  Forall (fun r => length r = S (length headers)) rows ->
  uploadAttachments s =
  Some (Some (Svc (ErrLoadMapping ErrMappingRead)),
        mkState (jira s) (ledger s) (folder s)
          (trace s ++ map Inner [EvLog InfoLoadingMapping;
                                 EvLog (InfoElapsed "attachment upload")])).
Proof.
  intros Hc Hne Hall. unfold UploadAttachments, bind, lift.
  rewrite (QuietFacts.upload_ragged J ClientError uploadAttachment config _
             (headers :: rows)); [done|exact Hc|].
  destruct rows as [|r0 rt]; [done|]. simpl.
  inversion Hall as [|? ? Hr0 _]; subst.
  replace (length r0 =? length headers)%nat with false; [done|].
  symmetry. apply Nat.eqb_neq. lia.
Qed.

(** X24: a full run (no flag set) never returns nil and never uploads an
    attachment.  When the authentication, the conversion and the import
    succeed, the import has rewritten a ledger without an Error column, so
    that its rows are one field longer than its header row, and the Upload
    phase fails reading it. *)
Theorem full_run_never_uploads (sched : list nat) (s s' : St)
    (out : option (error ClientError)) :
  run false false false sched s = Some (out, s') ->
  out <> None /\
  Spec.uploads (MigObs.inner (trace s'))
  = Spec.uploads (MigObs.inner (trace s)).
Proof.
  unfold RunMigration. intros Hrun. bind_inv Hrun o s0 Hbody.
  unfold bind, log, ret in Hrun. injection Hrun as <- <-.
  cbn [trace]. rewrite inner_app. simpl (MigObs.inner [_]). rewrite app_nil_r.
  unfold bind at 1 in Hbody.
  unfold CheckAuth at 1 in Hbody.
  destruct (checkAuth (jira s)) as [j1 [e|]] eqn:Hauth.
  { unfold ret in Hbody. injection Hbody as <- <-. cbn [trace].
    rewrite inner_app. simpl. by rewrite app_nil_r. }
  unfold bind at 1 in Hbody. unfold log at 1 in Hbody.
  cbn [negb andb jira ledger folder trace] in Hbody.
  bind_inv Hbody e1 s3 Hconv.
  unfold bind at 1 in Hconv. unfold log at 1 in Hconv.
  cbn [jira ledger folder trace] in Hconv.
  match type of Hconv with
  | ConvertCSV _ _ _ _ _ _ _ _ _ ?s2 = _ =>
      destruct (ConvertRun.convertCSV_run J ClientError unicodeLower Atoi Itoa
                  Time timeParse timeFormat PivotalCSV s2)
        as (e1' & s3' & lines & Hconv' & _ & _ & Htr3 & Hout);
      rewrite Hconv in Hconv'; injection Hconv' as <- <-
  end.
  cbn [trace jira ledger folder] in Htr3.
  assert (Hq3 : Spec.uploads (MigObs.inner (trace s3))
                = Spec.uploads (MigObs.inner (trace s))).
  { rewrite Htr3, !inner_app, inner_Log. simpl. by rewrite !app_nil_r. }
  destruct e1 as [e|].
  { unfold ret in Hbody. by injection Hbody as <- <-. }
  destruct Hout as (rows & Hl3 & Hne & Hall).
  bind_inv Hbody e2 s4 Himp.
  cbn [negb] in Himp. unfold bind at 1 in Himp. unfold log at 1 in Himp.
  cbn [jira ledger folder trace] in Himp.
  apply importIssues_inv in Himp as (evs & Htr4 & Hup4 & _ & Hok).
  cbn [trace ledger] in Htr4, Hok.
  assert (Hq4 : Spec.uploads (MigObs.inner (trace s4))
                = Spec.uploads (MigObs.inner (trace s))).
  { rewrite Htr4, !inner_app, inner_Inner, UploadFacts.uploads_app, Hup4.
    simpl. rewrite !app_nil_r. exact Hq3. }
  destruct e2 as [e|].
  { unfold ret in Hbody. by injection Hbody as <- <-. }
  destruct (Hok eq_refl jiraHeaders rows ltac:(by rewrite Hl3))
    as (rows' & Hl4 & _ & Hu & Hlen).
  change (Spec.column "Error" jiraHeaders =? -1) with true in Hlen.
  cbv iota in Hlen.
  assert (Hrows' : rows' <> []
                   /\ Forall (fun r => length r
                                       = S (length jiraHeaders)) rows').
  { clear -Hne Hu Hlen. split.
    - intros ->. apply Forall2_nil_inv_r in Hlen. done.
    - clear Hne. induction Hlen as [|r r' rows rows' Hr _ IH]; [done|].
      inversion Hu; subst. constructor; [congruence|]. by apply IH. }
  destruct Hrows' as [Hne' Hall'].
  bind_inv Hbody e3 s5 Hupl.
  cbn [negb orb] in Hupl. unfold bind at 1 in Hupl. unfold log at 1 in Hupl.
  cbn [jira ledger folder trace] in Hupl.
  rewrite (uploadAttachments_ragged _ jiraHeaders rows') in Hupl;
    [|by cbn [ledger]; rewrite Hl4|exact Hne'|exact Hall'].
  injection Hupl as <- <-.
  unfold ret in Hbody. injection Hbody as <- <-.
  split; [done|]. cbn [trace]. rewrite !inner_app. simpl.
  rewrite !app_nil_r, UploadFacts.uploads_app. simpl.
  rewrite app_nil_r. exact Hq4.
Qed.

(** X25: when [CheckAuth] fails, [RunMigration] returns its error wrapped,
    whatever the flags; nothing else has happened than the call and the
    line of [TrackTime]: no phase has run and the ledger is as before. *)
Theorem failed_auth_stops_run (convertOnly importOnly attachmentsOnly : bool)
    (sched : list nat) (s : St) (j1 : J) (e : ClientError) :
  checkAuth (jira s) = (j1, Some e) ->
  run convertOnly importOnly attachmentsOnly sched s =
  Some (Some (ErrAuth e),
        mkState j1 (ledger s) (folder s)
          (trace s ++ [EvCheckAuth (Some e); Log InfoElapsedAll])).
Proof.
  intros Hauth. unfold RunMigration, bind, CheckAuth, log, ret.
  rewrite Hauth. simpl. by rewrite <- app_assoc.
Qed.

(** X26: with [convertOnly] the run always returns and neither the
    Import nor the Upload phase does anything, whatever the other flags;
    when [importOnly] or [attachmentsOnly] is set as well, the conversion
    is skipped too: the ledger is as before and the result is that of
    [CheckAuth] alone. *)
Theorem convert_only_runs_no_phase (importOnly attachmentsOnly : bool)
    (sched : list nat) (s : St) :
  exists (out : option (error ClientError)) (s' : St),
    run true importOnly attachmentsOnly sched s = Some (out, s') /\
    MigObs.inner (trace s') = MigObs.inner (trace s) /\
    folder s' = folder s /\
    (importOnly || attachmentsOnly = true ->
     ledger s' = ledger s /\
     out = option_map ErrAuth (snd (checkAuth (jira s)))).
Proof.
  unfold RunMigration. unfold bind at 1. unfold bind at 1.
  unfold CheckAuth at 1.
  destruct (checkAuth (jira s)) as [j1 [e|]] eqn:Hauth.
  { unfold bind, log, ret. simpl. eexists _, _. split; [reflexivity|].
    cbn [trace folder ledger]. rewrite !inner_app. simpl.
    by rewrite !app_nil_r. }
  unfold bind at 1. unfold log at 1. cbn [jira ledger folder trace].
  destruct (negb importOnly && negb attachmentsOnly) eqn:Hflags.
  - unfold bind at 1. unfold bind at 1. unfold log at 1.
    cbn [jira ledger folder trace].
    match goal with
    | |- context [ConvertCSV _ _ _ _ _ _ _ _ _ ?s2] =>
        destruct (ConvertRun.convertCSV_run J ClientError unicodeLower Atoi
                    Itoa Time timeParse timeFormat PivotalCSV s2)
          as (e1 & s3 & lines & -> & _ & Hfol & Htr3 & _)
    end.
    cbn [jira ledger folder trace] in Hfol, Htr3.
    destruct e1 as [e|]; unfold bind, log, ret; cbn [trace folder ledger];
      eexists _, _; (split; [reflexivity|]); cbn [trace folder ledger];
      rewrite Htr3, !inner_app, inner_Log; simpl; rewrite !app_nil_r;
      (split; [done|]); (split; [exact Hfol|]);
      destruct importOnly, attachmentsOnly; done.
  - unfold bind, log, ret. cbn [trace folder ledger].
    eexists _, _. split; [reflexivity|]. cbn [trace folder ledger].
    rewrite !inner_app. simpl. by rewrite !app_nil_r.
Qed.

(** X27: with [attachmentsOnly] a run that returns has left the ledger as
    it was and has created no issue, whatever the other flags. *)
Theorem attachments_only_keeps_ledger (convertOnly importOnly : bool)
    (sched : list nat) (s s' : St) (out : option (error ClientError)) :
  run convertOnly importOnly true sched s = Some (out, s') ->
  ledger s' = ledger s /\
  Spec.createCalls (MigObs.inner (trace s'))
  = Spec.createCalls (MigObs.inner (trace s)).
Proof.
  unfold RunMigration. intros Hrun. bind_inv Hrun o s0 Hbody.
  unfold bind, log, ret in Hrun. injection Hrun as <- <-.
  cbn [trace ledger]. rewrite inner_app. simpl (MigObs.inner [_]).
  rewrite app_nil_r.
  unfold bind at 1 in Hbody. unfold CheckAuth at 1 in Hbody.
  destruct (checkAuth (jira s)) as [j1 [e|]] eqn:Hauth.
  { unfold ret in Hbody. injection Hbody as <- <-. cbn [trace ledger].
    rewrite inner_app. simpl. by rewrite app_nil_r. }
  unfold bind at 1 in Hbody. unfold log at 1 in Hbody.
  rewrite andb_false_r, orb_true_r in Hbody.
  cbn [negb jira ledger folder trace] in Hbody.
  unfold bind at 1 in Hbody. unfold ret at 1 in Hbody.
  destruct convertOnly.
  { unfold ret in Hbody. injection Hbody as <- <-. cbn [trace ledger].
    rewrite !inner_app. simpl. by rewrite !app_nil_r. }
  unfold bind at 1 in Hbody. unfold ret at 1 in Hbody.
  bind_inv Hbody e3 s5 Hupl.
  unfold bind at 1 in Hupl. unfold log at 1 in Hupl.
  cbn [jira ledger folder trace] in Hupl.
  apply uploadAttachments_inv in Hupl as (evs & Htr & Hq & Hl).
  cbn [jira ledger folder trace] in Htr, Hl.
  assert (Hq5 : Spec.createCalls (MigObs.inner (trace s5))
                = Spec.createCalls (MigObs.inner (trace s))).
  { rewrite Htr, !inner_app, inner_Inner, PhaseFacts.createCalls_app, Hq.
    simpl. by rewrite !app_nil_r. }
  destruct e3 as [e|]; unfold bind, log, ret in Hbody;
    injection Hbody as <- <-; cbn [trace ledger];
    rewrite ?inner_app; simpl; rewrite ?app_nil_r; done.
Qed.

End Facts.

Lemma full_run_never_uploads_witness :
  exists out s',
    Sample3.run Sample3.checkAuth false false false Sample3.start
      = Some (out, s') /\
    out = Some (Svc (ErrLoadMapping ErrMappingRead)) /\
    out <> None /\
    Spec.uploads (MigObs.inner (trace s'))
    = Spec.uploads (MigObs.inner (trace Sample3.start)).
Proof.
  eexists _, _. split; [vm_compute; reflexivity|].
  split; [reflexivity|].
  eapply (full_run_never_uploads nat string Sample3.checkAuth
            Sample.createIssue Sample.updateStoryPoints Sample.updateStatus
            Sample.addComment Sample.uploadAttachment Sample.lower
            Sample.trimSpace Sample.scanInt Sample3.atoi Sample3.itoa unit
            Sample3.timeParse Sample3.timeFormat Sample.config Sample3.export
            [0%nat] Sample3.start).
  vm_compute. reflexivity.
Defined.

Lemma failed_auth_stops_run_witness :
  Sample3.refuseAuth (jira Sample3.start)
    = (0%nat, Some "401 Unauthorized"%string) /\
  Sample3.run Sample3.refuseAuth false false false Sample3.start =
  Some (Some (ErrAuth "401 Unauthorized"%string),
        mkState 0%nat (ledger Sample3.start) (folder Sample3.start)
          (trace Sample3.start
           ++ [EvCheckAuth (Some "401 Unauthorized"%string);
               Log InfoElapsedAll])).
Proof.
  split; [reflexivity|].
  apply (failed_auth_stops_run nat string Sample3.refuseAuth
           Sample.createIssue Sample.updateStoryPoints Sample.updateStatus
           Sample.addComment Sample.uploadAttachment Sample.lower
           Sample.trimSpace Sample.scanInt Sample3.atoi Sample3.itoa unit
           Sample3.timeParse Sample3.timeFormat Sample.config Sample3.export
           false false false [0%nat] Sample3.start 0%nat).
  reflexivity.
Defined.

Lemma attachments_only_keeps_ledger_witness :
  exists out s',
    Sample3.run Sample3.checkAuth false false true Sample3.later
      = Some (out, s') /\
    Spec.uploads (MigObs.inner (trace s'))
      = [("PRJ-7"%string, ["attachments"; "101"; "shot.png"]%string)] /\
    ledger s' = ledger Sample3.later /\
    Spec.createCalls (MigObs.inner (trace s'))
    = Spec.createCalls (MigObs.inner (trace Sample3.later)).
Proof.
  eexists _, _. split; [vm_compute; reflexivity|].
  split; [vm_compute; reflexivity|].
  eapply (attachments_only_keeps_ledger nat string Sample3.checkAuth
            Sample.createIssue Sample.updateStoryPoints Sample.updateStatus
            Sample.addComment Sample.uploadAttachment Sample.lower
            Sample.trimSpace Sample.scanInt Sample3.atoi Sample3.itoa unit
            Sample3.timeParse Sample3.timeFormat Sample.config Sample3.export
            false false [0%nat] Sample3.later).
  vm_compute. reflexivity.
Defined.

End RunFacts.

(** ** [ReadCSV] and [UpdateJiraKeys] *)

Module KeysFacts.
Import Services Migration LedgerFacts.

Lemma rowData_keeps (name : string) (headers : list string) :
  forall (row : list string) (m : gmap string string),
    name ∉ headers ->
    foldl (fun m hv => <[fst hv := snd hv]> m) m (zip headers row) !! name
    = m !! name.
Proof.
  induction headers as [|h t IH]; intros row m Hnot; [done|].
  destruct row as [|v vs]; [done|]. simpl.
  apply not_elem_of_cons in Hnot as [Hne Hnot].
  rewrite IH by done. by rewrite lookup_insert_ne.
Qed.

Lemma rowData_last (name : string) (headers : list string) :
  forall (row : list string) (m : gmap string string) (i : nat),
    length headers = length row ->
    headers !! i = Some name ->
    (forall j, (i < j)%nat -> headers !! j <> Some name) ->
    foldl (fun m hv => <[fst hv := snd hv]> m) m (zip headers row) !! name
    = row !! i.
Proof.
  induction headers as [|h t IH]; intros row m i Hlen Hi Hlast; [done|].
  destruct row as [|v vs]; [done|]. simpl in Hlen. injection Hlen as Hlen.
  simpl. destruct i as [|i]; simpl in *.
  - injection Hi as ->. rewrite rowData_keeps.
    + by rewrite lookup_insert_eq.
    + intros Hin. apply list_elem_of_lookup in Hin as [j Hj].
      by apply (Hlast (S j) ltac:(lia)).
  - apply IH; [done|done|].
    intros j Hj. apply (Hlast (S j)). lia.
Qed.

Section Facts.

Variable J : Type.
Variable ClientError : Type.

Abbreviation W := (World J ClientError).
Abbreviation St := (State J ClientError).

(** X29: [ReadCSV] reads a header name from its last column: on a ledger
    it accepts, what a record stores under a name is the cell of its row
    under the last header with that name. *)
Theorem ReadCSV_last_column (w : W) (headers : list string)
    (rows : list (list string)) (name : string) (i : nat) :
  content (csv w) = Some (headers :: rows) ->
  Forall (fun r => length r = length headers) rows ->
  rows <> [] ->
  headers !! i = Some name ->
  (forall j, (i < j)%nat -> headers !! j <> Some name) ->
  exists records,
    ReadCSV J ClientError w = Some (Ok records, w) /\
    Forall2 (fun row record => record !! name = row !! i) rows records.
Proof.
  intros Hc Hu Hne Hi Hlast.
  exists (map (rowData headers) rows).
  split; [by apply PhaseFacts.readCSV_run|].
  clear Hc Hne. induction Hu as [|row rows Hrow _ IH]; simpl; constructor.
  - unfold rowData. by apply rowData_last.
  - exact IH.
Qed.





End Facts.

Lemma ReadCSV_last_column_witness :
  exists records,
    ReadCSV nat string Sample4.twoTitles = Some (Ok records, Sample4.twoTitles) /\
    Forall2 (fun row record => record !! "Title"%string = row !! 2%nat)
      [["1"; "old"; "new"]%string] records.
Proof.
  apply (ReadCSV_last_column nat string Sample4.twoTitles
           ["JIRA Issue ID"; "Title"; "Title"]%string
           [["1"; "old"; "new"]%string] "Title" 2).
  - reflexivity.
  - repeat constructor.
  - discriminate.
  - reflexivity.
  - intros j Hj. destruct j as [|[|[|j]]]; [lia|lia|lia|discriminate].
Defined.

End KeysFacts.
